(** * centipede: crawler registry, Path nodes and the CreateVersion task

    A shallow embedding of
      - [src/lib/centipede/Crawler/Fs/Path.py]        (module [Path])
      - [src/lib/ingestor/Task/Version/CreateVersion.py] (module [CreateVersion])
      - [data/examples/jobs/RND/crawlers/DpxClientPlate.py] (module [DpxClientPlate])
      - [updateUmediaMetadata] of [src/lib/ingestor/Task/Image/UpdateImageMetadata.py]
        (module [UpdateImageMetadata])
    together with the parts of Python they rely on (module [Py]) and the
    base class [Crawler] and the value object [PathHolder], whose source
    files are not part of the tree and are modelled from the specification. *)

From Stdlib Require Import ZArith List String Ascii Permutation.
From stdpp Require Import gmap strings list fin_maps sorting.

Set Warnings "-register-all,-clear-no-such-hyp".

(* ===================================================================== *)
(** * Python values, exceptions and the functions of [os.path] *)
(* ===================================================================== *)

Module Py.

(** JSON-representable Python values: what [json.loads (json.dumps v)]
    returns unchanged.  A [VDict] lists the items of a dict in insertion
    order; its keys are distinct. *)
Inductive Value :=
| VNone
| VBool (b : bool)
| VInt (z : Z)
| VStr (s : string)
| VList (l : list Value)
| VDict (d : list (string * Value)).

(** The exceptions the two modules raise or let through. *)
Inductive exn :=
| TestCrawlerError (registeredName path : string) (err : exn)
| CreateCrawlerError (registeredName path : string) (err : exn)
| AssertionError (msg : string)
| NotImplementedError
| KeyError (key : Value)
| TypeError (msg : string)
| ValueError (msg : string)
| AttributeError (attr : string)
| OSError (path : string)
| UndefinedVariableError (name : string)
| FileNotUnderDataDirectoryError (filePath dataPath : string)
| MetadataNotFoundError (filePath : string)
| OtherError (msg : string).

Inductive result (A : Type) :=
| Ok (a : A)
| Raise (e : exn).
Arguments Ok {A} a.
Arguments Raise {A} e.

Definition bind {A B} (m : result A) (k : A -> result B) : result B :=
  match m with
  | Ok a => k a
  | Raise e => Raise e
  end.

Notation "'let!' x ':=' m 'in' k" := (bind m (fun x => k))
  (at level 10, x name, m at level 100, k at level 200).

(** A [for] loop whose body may raise. *)
Fixpoint foldM {A B} (f : A -> B -> result A) (a : A) (l : list B) : result A :=
  match l with
  | [] => Ok a
  | b :: l' => let! a' := f a b in foldM f a' l'
  end.

(** A list comprehension whose element may raise. *)
Fixpoint mapM {A B} (f : A -> result B) (l : list A) : result (list B) :=
  match l with
  | [] => Ok []
  | a :: l' => let! b := f a in let! bs := mapM f l' in Ok (b :: bs)
  end.

(** ** Strings and POSIX paths ([os.sep] is the slash) *)

Definition chars (s : string) : list ascii := list_ascii_of_string s.
Definition str (l : list ascii) : string := string_of_list_ascii l.

Definition sep : ascii := "/"%char.
Definition dot : ascii := "."%char.

(** [s.startswith(pre)] *)
Fixpoint startswith (s pre : string) {struct pre} : bool :=
  match pre, s with
  | EmptyString, _ => true
  | String a pre', String b s' => if decide (a = b) then startswith s' pre' else false
  | String _ _, EmptyString => false
  end.

(** [s[n:]] *)
Fixpoint slice_from (n : nat) (s : string) : string :=
  match n, s with
  | O, _ => s
  | S n', String _ s' => slice_from n' s'
  | S _, EmptyString => EmptyString
  end.

(** [sub in s] for two strings *)
Fixpoint contains (s sub : string) : bool :=
  startswith s sub ||
  match s with
  | EmptyString => false
  | String _ s' => contains s' sub
  end.

(** [p.rfind(c) + 1] cuts [p] in two: [split_last c p = (head, tail)]
    where [tail] is what follows the last [c]. *)
Fixpoint split_last (c : ascii) (l : list ascii) : list ascii * list ascii :=
  match l with
  | [] => ([], [])
  | a :: l' =>
      let '(h, t) := split_last c l' in
      if decide (c ∈ l') then (a :: h, t)
      else if decide (a = c) then ([a], l') else ([], a :: l')
  end.

(** [s.rstrip('/')] *)
Fixpoint rstrip (c : ascii) (l : list ascii) : list ascii :=
  match l with
  | [] => []
  | a :: l' =>
      match rstrip c l' with
      | [] => if decide (a = c) then [] else [a]
      | r => a :: r
      end
  end.

(** [posixpath.basename] *)
Definition basename (p : string) : string :=
  str (split_last sep (chars p)).2.

(** [posixpath.dirname]: the head, without its trailing separators unless
    it consists of separators only. *)
Definition dirname (p : string) : string :=
  let head := (split_last sep (chars p)).1 in
  str (match rstrip sep head with
       | [] => head
       | stripped => stripped
       end).

(** [posixpath.join(a, b)] for a relative [b]. *)
Definition join (a b : string) : string :=
  match a with
  | EmptyString => b
  | _ => if decide (last (chars a) = Some sep) then a +:+ b
         else a +:+ String sep b
  end.

(** [posixpath.splitext]: the extension starts at the last dot of the last
    component, unless only dots precede it there. *)
Definition splitext (p : string) : string * string :=
  let '(head, tail) := split_last sep (chars p) in
  let '(root, afterdot) := split_last dot tail in
  match root with
  | [] => (p, EmptyString)
  | _ =>
      if forallb (fun a => bool_decide (a = dot)) root then (p, EmptyString)
      else (str (head ++ removelast root), str (dot :: afterdot))
  end.

(** ** [int(s)] on the decimal spelling of an integer *)

Definition digit (a : ascii) : option Z :=
  let n := Z.of_nat (nat_of_ascii a) in
  if decide (48 <= n <= 57)%Z then Some (n - 48)%Z else None.

Fixpoint int_digits (acc : Z) (l : list ascii) : option Z :=
  match l with
  | [] => Some acc
  | a :: l' =>
      match digit a with
      | Some d => int_digits (10 * acc + d)%Z l'
      | None => None
      end
  end.

Definition is_blank (a : ascii) : bool :=
  let n := nat_of_ascii a in
  bool_decide (n = 32 \/ 9 <= n <= 13)%nat.

Fixpoint lstrip_blank (l : list ascii) : list ascii :=
  match l with
  | a :: l' => if is_blank a then lstrip_blank l' else l
  | [] => []
  end.

Definition strip_blank (l : list ascii) : list ascii :=
  reverse (lstrip_blank (reverse (lstrip_blank l))).

(** [int(s)]: blanks around the number and one sign are accepted, the
    digits are ASCII.  (Underscores between digits, which Python 3.6
    added, and non-ASCII digits are outside this model: the version
    folders the task reads follow the convention v001.) *)
Definition int (s : string) : result Z :=
  let body := strip_blank (chars s) in
  let '(neg, ds) :=
    match body with
    | a :: ds => if decide (a = "-"%char) then (true, ds)
                 else if decide (a = "+"%char) then (false, ds)
                 else (false, body)
    | [] => (false, [])
    end in
  match ds with
  | [] => Raise (ValueError s)
  | _ => match int_digits 0 ds with
         | Some z => Ok (if neg then (- z)%Z else z)
         | None => Raise (ValueError s)
         end
  end.

(** ** Ordered dictionaries ([OrderedDict], and [dict] where order shows) *)

Definition odict (V : Type) := list (string * V).

Definition keys {V} (d : odict V) : list string := d.*1.
Definition values {V} (d : odict V) : list V := d.*2.

Fixpoint odict_get {V} (k : string) (d : odict V) : option V :=
  match d with
  | [] => None
  | (k', v) :: d' => if decide (k' = k) then Some v else odict_get k d'
  end.

(** [d[k] = v]: an existing key keeps its position, a new one goes last. *)
Fixpoint odict_set {V} (k : string) (v : V) (d : odict V) : odict V :=
  match d with
  | [] => [(k, v)]
  | (k', v') :: d' =>
      if decide (k' = k) then (k, v) :: d' else (k', v') :: odict_set k v d'
  end.

End Py.

(* ===================================================================== *)
(** * The node model: [PathHolder] and the [Crawler] base class *)
(* ===================================================================== *)

Module Crawler.
Import Py.

(** Modelled from the spec: [PathHolder], whose source file is not in the
    tree.  An immutable value wrapping one path; base name, extension and
    the directory flag are fixed at construction. *)
Record PathHolder := mkPathHolder {
  path : string;
  isDirectory : bool;
}.

Definition baseName (ph : PathHolder) : string := basename (path ph).
Definition ext (ph : PathHolder) : string := slice_from 1 (splitext (path ph)).2.

(** A crawler object.  [cclass] is the method resolution order of the
    concrete class of the instance, most derived class first.  The last
    two fields are the private attributes of [Path]. *)
Inductive Crawler := mkCrawler {
  cname : string;
  cclass : list string;
  cvars : gmap string Value;
  cctx : gset string;
  ctags : gmap string Value;
  cparent : option Crawler;
  cchildren : list Crawler;
  pathHolder : option PathHolder;
  globCache : option (list Crawler);
}.

(** Modelled from the spec: [Crawler.__init__(name, parentCrawler)], whose
    source file is not in the tree.  The parent is set once, here; a new
    node owns no children, no variables and no tags.  (The specification
    does not say whether a node takes variables over from its parent;
    the statements below that depend on it construct without one.) *)
Definition Crawler__init__ (cls : list string) (name : string)
    (parentCrawler : option Crawler) : Crawler :=
  {| cname := name; cclass := cls; cvars := ∅; cctx := ∅; ctags := ∅;
     cparent := parentCrawler; cchildren := []; pathHolder := None;
     globCache := None |}.

(** Modelled from the spec: [setVar] inserts or overwrites; with
    [isContextVar] the name joins the context names. *)
Definition setVar (name : string) (value : Value) (isContextVar : bool)
    (c : Crawler) : Crawler :=
  {| cname := cname c; cclass := cclass c;
     cvars := <[name := value]> (cvars c);
     cctx := if isContextVar then {[name]} ∪ cctx c else cctx c;
     ctags := ctags c; cparent := cparent c; cchildren := cchildren c;
     pathHolder := pathHolder c; globCache := globCache c |}.

(** Modelled from the spec: [var] fails on an undefined name. *)
Definition var (name : string) (c : Crawler) : result Value :=
  match cvars c !! name with
  | Some v => Ok v
  | None => Raise (UndefinedVariableError name)
  end.

Definition varNames (c : Crawler) : list string := elements (dom (cvars c)).
Definition contextVarNames (c : Crawler) : list string := elements (cctx c).

(** Modelled from the spec: tags, the same contract in a namespace of
    their own. *)
Definition setTag (name : string) (value : Value) (c : Crawler) : Crawler :=
  {| cname := cname c; cclass := cclass c; cvars := cvars c; cctx := cctx c;
     ctags := <[name := value]> (ctags c);
     cparent := cparent c; cchildren := cchildren c;
     pathHolder := pathHolder c; globCache := globCache c |}.

Definition tag (name : string) (c : Crawler) : result Value :=
  match ctags c !! name with
  | Some v => Ok v
  | None => Raise (UndefinedVariableError name)
  end.

Definition tagNames (c : Crawler) : list string := elements (dom (ctags c)).

(** Modelled from the spec: a node is a leaf iff it has no children. *)
Definition children (c : Crawler) : list Crawler := cchildren c.
Definition isLeaf (c : Crawler) : bool :=
  match cchildren c with [] => true | _ => false end.

(** What the outside world changes between two calls on the same object:
    the children its directory lists. *)
Definition withChildren (kids : list Crawler) (c : Crawler) : Crawler :=
  {| cname := cname c; cclass := cclass c; cvars := cvars c; cctx := cctx c;
     ctags := ctags c; cparent := cparent c; cchildren := kids;
     pathHolder := pathHolder c; globCache := globCache c |}.

End Crawler.

(* ===================================================================== *)
(** * [Path]: registry, classification, serialization and glob *)
(* ===================================================================== *)

Module Path.
Import Py Crawler.

(** ** Classes derived from [Path] *)

(** What the constructor of a subclass does after [Path.__init__] has
    run: it sets variables and tags (see [DpxClientPlate.__init__]). *)
Inductive SetOp :=
| SetVar (name : string) (value : Value) (isContextVar : bool)
| SetTag (name : string) (value : Value).

(** A crawler class: its method resolution order (its own name first),
    its [test] class method and the body of its constructor.  Both may
    raise. *)
Record PathClass := mkPathClass {
  mro : list string;
  test : PathHolder -> option Crawler -> result bool;
  initBody : PathHolder -> option Crawler -> Crawler -> result (list SetOp);
}.

Definition PathMro : list string := ["Path"; "Crawler"; "object"].

(** [issubclass(c, b)] for classes with single inheritance, by their
    method resolution orders. *)
Definition issubclassMro (c b : list string) : bool :=
  bool_decide (b `suffix_of` c).
Definition issubclass (c b : PathClass) : bool := issubclassMro (mro c) (mro b).

(** [isinstance(x, classes)] for a tuple of classes. *)
Definition isinstance (x : Crawler) (classes : list PathClass) : bool :=
  existsb (fun t => issubclassMro (cclass x) (mro t)) classes.

(** The class [Path] itself: [test] is left to the subclasses. *)
Definition PathBase : PathClass :=
  {| mro := PathMro;
     test := fun _ _ => Raise NotImplementedError;
     initBody := fun _ _ _ => Ok [] |}.

Definition setPathHolder (ph : PathHolder) (c : Crawler) : Crawler :=
  {| cname := cname c; cclass := cclass c; cvars := cvars c; cctx := cctx c;
     ctags := ctags c; cparent := cparent c; cchildren := cchildren c;
     pathHolder := Some ph; globCache := globCache c |}.

Definition setGlobCache (cache : option (list Crawler)) (c : Crawler) : Crawler :=
  {| cname := cname c; cclass := cclass c; cvars := cvars c; cctx := cctx c;
     ctags := ctags c; cparent := cparent c; cchildren := cchildren c;
     pathHolder := pathHolder c; globCache := cache |}.

(** [Path.__init__] *)
Definition Path__init__ (cls : list string) (ph : PathHolder)
    (parentCrawler : option Crawler) : Crawler :=
  let self := Crawler__init__ cls (baseName ph) parentCrawler in
  let self := setPathHolder ph self in
  let self := setVar "filePath" (VStr (path ph)) false self in
  let self := setVar "ext" (VStr (ext ph)) false self in
  let self := setVar "baseName" (VStr (baseName ph)) false self in
  let self := setVar "name" (VStr (splitext (baseName ph)).1) false self in
  let self :=
    if bool_decide ("sourceDirectory" ∈ varNames self) then self
    else
      let path := if isDirectory ph then path ph else dirname (path ph) in
      setVar "sourceDirectory" (VStr path) false self in
  setGlobCache None self.

Definition applyOp (c : Crawler) (op : SetOp) : Crawler :=
  match op with
  | SetVar name value isContextVar => setVar name value isContextVar c
  | SetTag name value => setTag name value c
  end.

(** Calling a class: [crawlerClass(pathHolder, parentCrawler)]. *)
Definition construct (crawlerClass : PathClass) (ph : PathHolder)
    (parentCrawler : option Crawler) : result Crawler :=
  let self := Path__init__ (mro crawlerClass) ph parentCrawler in
  let! ops := initBody crawlerClass ph parentCrawler self in
  Ok (foldl applyOp self ops).

(** ** The registry *)

(** [Path.__registeredTypes], an [OrderedDict]. *)
Definition Registry := odict PathClass.

(** [Path.register] *)
Definition register (name : string) (crawlerClass : PathClass)
    (registeredTypes : Registry) : result Registry :=
  if issubclass crawlerClass PathBase
  then Ok (odict_set name crawlerClass registeredTypes)
  else Raise (AssertionError "Invalid crawler class!").

(** A run of [register] calls, in the order of the list. *)
Definition registerAll (entries : list (string * PathClass))
    (registeredTypes : Registry) : result Registry :=
  foldM (fun r '(name, crawlerClass) => register name crawlerClass r)
        registeredTypes entries.

(** [Path.registeredNames] *)
Definition registeredNames (registeredTypes : Registry) : list string :=
  keys registeredTypes.

(** The loop of [Path.create] over [reversed(keys)]; [None] when the
    names are exhausted and [result] is still [None].  What [test]
    returns is read as a truth value; a crawler object is true, [Path]
    defines neither [__bool__] nor [__len__]. *)
Fixpoint createLoop (registeredTypes : Registry) (names : list string)
    (ph : PathHolder) (parentCrawler : option Crawler)
    : result (option Crawler) :=
  match names with
  | [] => Ok None
  | registeredName :: names' =>
      match odict_get registeredName registeredTypes with
      | None => Raise (KeyError (VStr registeredName))
      | Some testCrawlerType =>
          match test testCrawlerType ph parentCrawler with
          | Raise err =>
              Raise (TestCrawlerError registeredName (path ph) err)
          | Ok false => createLoop registeredTypes names' ph parentCrawler
          | Ok true =>
              match construct testCrawlerType ph parentCrawler with
              | Raise err =>
                  Raise (CreateCrawlerError registeredName (path ph) err)
              | Ok result =>
                  Ok (Some (setVar "type" (VStr registeredName) false result))
              end
          end
      end
  end.

(** The message of the closing assertion of [Path.create]. *)
Definition noCrawlerFor (ph : PathHolder) : exn :=
  AssertionError ("Don't know how to create a path crawler for " +:+ path ph).

(** [Path.create].  The closing [assert result] is the failure of a path
    no registered type claims. *)
Definition create (registeredTypes : Registry) (ph : PathHolder)
    (parentCrawler : option Crawler) : result Crawler :=
  let! result :=
    createLoop registeredTypes (reverse (keys registeredTypes)) ph parentCrawler in
  match result with
  | Some crawler => Ok crawler
  | None => Raise (noCrawlerFor ph)
  end.

(** What [create] returns once the type registered as [name] has claimed
    the path: the node that class constructs, with its [type] variable. *)
Definition createdBy (name : string) (cls : PathClass) (ph : PathHolder)
    (parent : option Crawler) : result Crawler :=
  match construct cls ph parent with
  | Ok crawler => Ok (setVar "type" (VStr name) false crawler)
  | Raise err => Raise (CreateCrawlerError name (path ph) err)
  end.

(** ** Serialization *)

(** [json.dumps] prints a tree of [Value]s and [json.loads] parses the
    text back to that tree: the embedding hands over the tree itself. *)

(** [Path.toJson] *)
Definition toJson (self : Crawler) : result Value :=
  let! vars :=
    foldM (fun vars varName =>
             let! v := var varName self in Ok (odict_set varName v vars))
          [] (varNames self) in
  let contextVarNames :=
    foldl (fun names varName => names ++ [VStr varName]) [] (contextVarNames self) in
  let! tags :=
    foldM (fun tags tagName =>
             let! v := tag tagName self in Ok (odict_set tagName v tags))
          [] (tagNames self) in
  Ok (VDict [("vars", VDict vars);
             ("contextVarNames", VList contextVarNames);
             ("tags", VDict tags)]).

(** [contents[key]] for a string key *)
Definition getitem (contents : Value) (key : string) : result Value :=
  match contents with
  | VDict d =>
      match odict_get key d with
      | Some v => Ok v
      | None => Raise (KeyError (VStr key))
      end
  | _ => Raise (TypeError "indices must be integers")
  end.

(** [contents.items()] *)
Definition items (contents : Value) : result (list (string * Value)) :=
  match contents with
  | VDict d => Ok d
  | _ => Raise (AttributeError "items")
  end.

Definition isStr (name : string) (v : Value) : bool :=
  match v with
  | VStr s => bool_decide (s = name)
  | _ => false
  end.

(** [name in container] *)
Definition pyIn (name : string) (container : Value) : result bool :=
  match container with
  | VList l => Ok (existsb (isStr name) l)
  | VDict d => Ok (bool_decide (name ∈ keys d))
  | VStr s => Ok (contains s name)
  | _ => Raise (TypeError "argument is not iterable")
  end.

(** [Path.__registeredTypes[crawlerType]] *)
Definition registeredType (registeredTypes : Registry) (crawlerType : Value)
    : result PathClass :=
  match crawlerType with
  | VStr name =>
      match odict_get name registeredTypes with
      | Some crawlerClass => Ok crawlerClass
      | None => Raise (KeyError crawlerType)
      end
  | VList _ | VDict _ => Raise (TypeError "unhashable type")
  | _ => Raise (KeyError crawlerType)
  end.

(** Modelled from the spec: [PathHolder(filePath)], whose source file is
    not in the tree, wraps a path string; [isdir] is what the file system
    answers for it. *)
Definition newPathHolder (isdir : string -> bool) (filePath : Value)
    : result PathHolder :=
  match filePath with
  | VStr p => Ok {| path := p; isDirectory := isdir p |}
  | _ => Raise (TypeError "path must be a string")
  end.

(** One turn of the loop over [contents["tags"].items()]. *)
Definition setTagItem (crawler : Crawler) (item : string * Value) : Crawler :=
  let '(tagName, tagValue) := item in setTag tagName tagValue crawler.

(** [Path.createFromJson] *)
Definition createFromJson (isdir : string -> bool) (registeredTypes : Registry)
    (contents : Value) : result Crawler :=
  let! vars := getitem contents "vars" in
  let! crawlerType := getitem vars "type" in
  let! filePath := getitem vars "filePath" in
  let! crawlerClass := registeredType registeredTypes crawlerType in
  let! ph := newPathHolder isdir filePath in
  let! crawler := construct crawlerClass ph None in
  let! varItems := items vars in
  let! crawler :=
    foldM (fun crawler '(varName, varValue) =>
             let! names := getitem contents "contextVarNames" in
             let! isContextVar := pyIn varName names in
             Ok (setVar varName varValue isContextVar crawler))
          crawler varItems in
  let! tags := getitem contents "tags" in
  let! tagItems := items tags in
  Ok (foldl setTagItem crawler tagItems).

(** The items of a dict for the given names, as the loops of [toJson]
    list them, and one turn of the loop of [createFromJson] over the
    variables once the context flag is known. *)
Definition itemsOf (m : gmap string Value) (names : list string) : odict Value :=
  (fun k => (k, default VNone (m !! k))) <$> names.

Definition setVarItem (isContext : string -> bool) (crawler : Crawler)
    (item : string * Value) : Crawler :=
  setVar item.1 item.2 (isContext item.1) crawler.

(** [Path.clone] *)
Definition clone (isdir : string -> bool) (registeredTypes : Registry)
    (self : Crawler) : result Crawler :=
  let! contents := toJson self in
  createFromJson isdir registeredTypes contents.


(** ** Glob *)

(** [Path.__collectCrawlers] *)
Fixpoint collectCrawlers (crawler : Crawler) : list Crawler :=
  crawler ::
  match crawler with
  | mkCrawler _ _ _ _ _ _ kids _ _ =>
      match kids with
      | [] => []
      | _ => flat_map collectCrawlers kids
      end
  end.

(** A filter of [glob]: the name of a registered type or a class. *)
Inductive FilterType :=
| ByName (name : string)
| ByClass (cls : PathClass).

(** [Path.__baseClass] *)
Definition baseClass (registeredTypes : Registry) (baseClassOrTypeName : FilterType)
    : result PathClass :=
  match baseClassOrTypeName with
  | ByName name =>
      match odict_get name registeredTypes with
      | Some cls => Ok cls
      | None => Raise (AssertionError "")
      end
  | ByClass cls =>
      if issubclass cls PathBase then Ok cls else Raise (AssertionError "")
  end.

(** The loop of [Path.registeredSubclasses]: the registered classes
    derived from [base]. *)
Definition subclassesOf (registeredTypes : Registry) (base : PathClass)
    : list PathClass :=
  filter (fun registeredType => issubclass registeredType base = true)
         (values registeredTypes).

(** [Path.registeredSubclasses].  The source collects the classes in a
    set and returns them as a list; [isinstance], the only reader here,
    sees neither the order nor the repetitions of that list. *)
Definition registeredSubclasses (registeredTypes : Registry)
    (baseClassOrTypeName : FilterType) : result (list PathClass) :=
  let! base := baseClass registeredTypes baseClassOrTypeName in
  Ok (subclassesOf registeredTypes base).

(** [Path.registeredSubTypes]: the names, where [registeredSubclasses]
    gives the classes.  The names are collected in a set and returned as
    [list(result)], in the order [enumerate] lists a set of names. *)
Definition registeredSubTypes (enumerate : gset string -> list string)
    (registeredTypes : Registry) (baseClassOrTypeName : FilterType)
    : result (list string) :=
  let! base := baseClass registeredTypes baseClassOrTypeName in
  let result :=
    foldl (fun (result : gset string) '(name, registeredType) =>
             if issubclass registeredType base then result ∪ {[name]} else result)
          ∅ registeredTypes in
  Ok (enumerate result).

(** Positions in [cache] of the crawlers that are instances of one of
    [subClasses]. *)
Definition instancesAt (subClasses : list PathClass) (cache : list Crawler)
    : list nat :=
  (filter (fun ix => isinstance ix.2 subClasses = true) (imap pair cache)).*1.

(** [Path.glob].

    The crawlers of a tree are distinct objects, and a Python [set] of
    them holds each object once: the set [filteredCrawlers] is modelled
    as the set of their positions in [__globCache].  Python leaves the
    order in which [list(filteredCrawlers)] enumerates the set open;
    [enumerate] is that order.

    Returns the result and [self] with its memo.  (The list begins with
    [self] as it was when the list was made.) *)
Definition glob (enumerate : gset nat -> list nat) (registeredTypes : Registry)
    (filterTypes : list FilterType) (useCache : bool) (self : Crawler)
    : result (list Crawler) * Crawler :=
  let refresh :=
    match globCache self with
    | None => true
    | Some _ => negb useCache
    end in
  let self := if refresh then setGlobCache (Some (collectCrawlers self)) self
              else self in
  let cache := default [] (globCache self) in
  match filterTypes with
  | [] => (Ok cache, self)
  | _ =>
      let filtered :=
        let! filteredCrawlers :=
          foldM (fun (filteredCrawlers : gset nat) filterType =>
                   let! subClasses := registeredSubclasses registeredTypes filterType in
                   Ok (filteredCrawlers ∪ list_to_set (instancesAt subClasses cache)))
                ∅ filterTypes in
        Ok (omap (fun i => cache !! i) (enumerate filteredCrawlers)) in
      (filtered, self)
  end.

(** *** The words of the specification about [glob] *)

(** The subtree of a node flattened depth first, each node before its
    children, the children in the order they are listed. *)
Fixpoint preorder (crawler : Crawler) : list Crawler :=
  crawler ::
  match crawler with
  | mkCrawler _ _ _ _ _ _ kids _ _ => flat_map preorder kids
  end.

(** An order in which a set may be enumerated: each element once. *)
Definition validEnumeration (enumerate : gset nat -> list nat) : Prop :=
  forall S, enumerate S ≡ₚ elements S.

(** The same for a set of names. *)
Definition validNameEnumeration (enumerate : gset string -> list string) : Prop :=
  forall S, enumerate S ≡ₚ elements S.

(** One such order: the largest position first. *)
Definition descending (S : gset nat) : list nat :=
  reverse (merge_sort Nat.le (elements S)).

(** The memo [glob] answers from: what is cached, unless there is nothing
    cached or the caller asks for a new traversal. *)
Definition globList (useCache : bool) (self : Crawler) : list Crawler :=
  match globCache self with
  | Some cache => if useCache then cache else collectCrawlers self
  | None => collectCrawlers self
  end.

(** The test [glob] applies to a crawler for the filters that resolve to
    [bases]: it is an instance of a registered class derived from one of
    them. *)
Definition selectedBy (registeredTypes : Registry) (bases : list PathClass)
    (x : Crawler) : bool :=
  existsb (fun base => isinstance x (subclassesOf registeredTypes base)) bases.

(** The concrete type of [x] is, or derives from, one of [bases]. *)
Definition derivesFrom (bases : list PathClass) (x : Crawler) : bool :=
  existsb (fun base => issubclassMro (cclass x) (mro base)) bases.

End Path.

(* ===================================================================== *)
(** * A small installation: three crawler types and a tree *)
(* ===================================================================== *)

Module Examples.
Import Py Crawler Path.

(** Matches every path. *)
Definition Generic : PathClass :=
  {| mro := "Generic" :: PathMro;
     test := fun _ _ => Ok true;
     initBody := fun _ _ _ => Ok [] |}.

(** Matches what is not a directory. *)
Definition File : PathClass :=
  {| mro := "File" :: PathMro;
     test := fun ph _ => Ok (negb (isDirectory ph));
     initBody := fun _ _ _ => Ok [] |}.

(** Matches the directories. *)
Definition Directory : PathClass :=
  {| mro := "Directory" :: PathMro;
     test := fun ph _ => Ok (isDirectory ph);
     initBody := fun _ _ _ => Ok [] |}.

(** Matches the files with the extension dpx, and tags them. *)
Definition Dpx : PathClass :=
  {| mro := "Dpx" :: "File" :: PathMro;
     test := fun ph _ => Ok (negb (isDirectory ph) && bool_decide (ext ph = "dpx"));
     initBody := fun _ _ _ =>
       Ok [SetVar "imageType" (VStr "single") false; SetTag "group" (VStr "plate")] |}.

(** Claims nothing. *)
Definition Never : PathClass :=
  {| mro := "Never" :: PathMro;
     test := fun _ _ => Ok false;
     initBody := fun _ _ _ => Ok [] |}.

Definition registry : Registry :=
  [("generic", Generic); ("file", File); ("dpx", Dpx)].

Definition plate : PathHolder := {| path := "/a/b.dpx"; isDirectory := false |}.

Definition noDirs : string -> bool := fun _ => false.

(** A node made by calling a class, as [createFromPath] does before it
    sets [type]. *)
Definition untyped : Crawler := Path__init__ (mro File) plate None.

(** A node made by [Path.create]. *)
Definition typed : Crawler :=
  setVar "type" (VStr "dpx") false
    (foldl applyOp (Path__init__ (mro Dpx) plate None)
       [SetVar "imageType" (VStr "single") false; SetTag "group" (VStr "plate")]).

(** A directory with two files. *)
Definition leaf (name : string) : Crawler :=
  Path__init__ (mro File) {| path := "/d/" +:+ name; isDirectory := false |} None.

Definition tree : Crawler :=
  withChildren [leaf "a"; leaf "b"]
    (Path__init__ (mro Generic) {| path := "/d"; isDirectory := true |} None).

End Examples.

(* ===================================================================== *)
(** * [CreateVersion]: the publish task *)
(* ===================================================================== *)

Module CreateVersion.
Import Py Crawler.

(** A Python [dict] with string keys, as an object on the heap. *)
Abbreviation Dict := (gmap string Value).

(** What [_perform] leaves on disk. *)
Inductive Written :=
| EnvJson (filePath : string) (env : gmap string string)
| InfoJson (filePath : string) (info : Dict)
| DataJson (filePath : string) (filesData : gmap string Dict)
| CopyTree (src : Value) (dst : string).

(** The process and the file system around one call: [os.environ],
    [time.time()] in whole seconds, and [os.stat(p).st_size], which is
    [None] where [os.stat] raises. *)
Record Env := mkEnv {
  environ : gmap string string;
  now : Z;
  st_size : string -> option Z;
}.

(** The heap of dict objects and the attributes of one [CreateVersion]
    instance.  [pathCrawlers] and [filePath] belong to the base class
    [Task]; the attributes [__versionPath], [__dataPath], [__configPath]
    and [__version] do not exist ([None]) until [__loadPublishData] has
    assigned them; [__files] maps a path to its metadata object. *)
Record State := mkState {
  heap : gmap nat Dict;
  pathCrawlers : list Crawler;
  filePath : Crawler -> result string;
  files_ : odict nat;
  info_ : Dict;
  assetName_ : Value;
  variant_ : Value;
  startTime : Z;
  loadedPublishedData : bool;
  versionPath_ : option string;
  dataPath_ : option string;
  configPath_ : option Value;
  version_ : option Z;
  written : list Written;
}.

(** Modelled from the spec: [Task], whose source file is not in the tree,
    binds the input nodes ([pathCrawlers]) and resolves a target path for
    each of them ([filePath]).  [CreateVersion.__init__] on top of it. *)
Definition CreateVersion__init__ (h : gmap nat Dict) (crawlers : list Crawler)
    (target : Crawler -> result string) (time : Z) : State :=
  {| heap := h; pathCrawlers := crawlers; filePath := target;
     files_ := []; info_ := ∅; assetName_ := VNone; variant_ := VNone;
     startTime := time; loadedPublishedData := false;
     versionPath_ := None; dataPath_ := None; configPath_ := None;
     version_ := None; written := [] |}.

Definition set_heap (h : gmap nat Dict) (s : State) : State :=
  let 'mkState _ pc fp f i a v st l vp dp cp ver w := s in
  mkState h pc fp f i a v st l vp dp cp ver w.
Definition set_files (f : odict nat) (s : State) : State :=
  let 'mkState h pc fp _ i a v st l vp dp cp ver w := s in
  mkState h pc fp f i a v st l vp dp cp ver w.
Definition set_info (i : Dict) (s : State) : State :=
  let 'mkState h pc fp f _ a v st l vp dp cp ver w := s in
  mkState h pc fp f i a v st l vp dp cp ver w.
Definition set_assetName (a : Value) (s : State) : State :=
  let 'mkState h pc fp f i _ v st l vp dp cp ver w := s in
  mkState h pc fp f i a v st l vp dp cp ver w.
Definition set_variant (v : Value) (s : State) : State :=
  let 'mkState h pc fp f i a _ st l vp dp cp ver w := s in
  mkState h pc fp f i a v st l vp dp cp ver w.
Definition set_loaded (l : bool) (s : State) : State :=
  let 'mkState h pc fp f i a v st _ vp dp cp ver w := s in
  mkState h pc fp f i a v st l vp dp cp ver w.
Definition set_versionPath (vp : string) (s : State) : State :=
  let 'mkState h pc fp f i a v st l _ dp cp ver w := s in
  mkState h pc fp f i a v st l (Some vp) dp cp ver w.
Definition set_dataPath (dp : string) (s : State) : State :=
  let 'mkState h pc fp f i a v st l vp _ cp ver w := s in
  mkState h pc fp f i a v st l vp (Some dp) cp ver w.
Definition set_configPath (cp : Value) (s : State) : State :=
  let 'mkState h pc fp f i a v st l vp dp _ ver w := s in
  mkState h pc fp f i a v st l vp dp (Some cp) ver w.
Definition set_version (ver : Z) (s : State) : State :=
  let 'mkState h pc fp f i a v st l vp dp cp _ w := s in
  mkState h pc fp f i a v st l vp dp cp (Some ver) w.
Definition add_written (x : Written) (s : State) : State :=
  let 'mkState h pc fp f i a v st l vp dp cp ver w := s in
  mkState h pc fp f i a v st l vp dp cp ver (w ++ [x]).

(** ** Methods: state passing, an exception keeps the state reached *)

Definition M (A : Type) : Type := State -> result A * State.

Definition ret {A} (a : A) : M A := fun s => (Ok a, s).
Definition raise {A} (e : exn) : M A := fun s => (Raise e, s).
Definition lift {A} (r : result A) : M A := fun s => (r, s).
Definition get {A} (f : State -> A) : M A := fun s => (Ok (f s), s).
Definition modify (f : State -> State) : M unit := fun s => (Ok tt, f s).
Definition mbind {A B} (m : M A) (k : A -> M B) : M B :=
  fun s =>
    match m s with
    | (Ok a, s') => k a s'
    | (Raise e, s') => (Raise e, s')
    end.

Notation "'let*' x ':=' m 'in' k" := (mbind m (fun x => k))
  (at level 10, x name, m at level 100, k at level 200).
Notation "m ';;' k" := (mbind m (fun _ => k))
  (at level 100, k at level 200, right associativity).

(** Reading an attribute that may not exist yet. *)
Definition getattr {A} (name : string) (f : State -> option A) : M A :=
  fun s =>
    match f s with
    | Some a => (Ok a, s)
    | None => (Raise (AttributeError name), s)
    end.

(** A new dict object. *)
Definition alloc (d : Dict) : M nat :=
  fun s =>
    let l := fresh (dom (heap s)) in
    (Ok l, set_heap (<[l := d]> (heap s)) s).

(** The dict behind a reference. *)
Definition deref (l : nat) : M Dict :=
  fun s =>
    match heap s !! l with
    | Some d => (Ok d, s)
    | None => (Raise (OtherError "no such object"), s)
    end.

Definition truthy (v : Value) : bool :=
  match v with
  | VNone => false
  | VBool b => b
  | VInt z => negb (z =? 0)%Z
  | VStr s => negb (bool_decide (s = EmptyString))
  | VList l => match l with [] => false | _ => true end
  | VDict d => match d with [] => false | _ => true end
  end.

(** [CreateVersion.__loadPublishData] *)
Definition loadPublishData : M unit :=
  let* loaded := get loadedPublishedData in
  let* crawlers := get pathCrawlers in
  match loaded, crawlers with
  | false, pathCrawler :: _ =>
      modify (set_loaded true) ;;
      (if bool_decide ("assetName" ∈ varNames pathCrawler)
       then
         let* a := lift (var "assetName" pathCrawler) in
         modify (set_assetName a) ;;
         let* v := lift (var "variant" pathCrawler) in
         modify (set_variant v)
       else ret tt) ;;
      let* target := get filePath in
      let* p := lift (target pathCrawler) in
      let versionPath := dirname p in
      modify (set_versionPath versionPath) ;;
      modify (set_dataPath (join versionPath "data")) ;;
      let* c := lift (var "configPath" pathCrawler) in
      modify (set_configPath c) ;;
      let* n := lift (int (slice_from 1 (basename versionPath))) in
      modify (set_version n)
  | _, _ => ret tt
  end.

(** [CreateVersion.version] *)
Definition version : M Z :=
  loadPublishData ;; getattr "__version" version_.

(** [CreateVersion.variant] *)
Definition variant : M Value :=
  loadPublishData ;; get assetName_.

(** [CreateVersion.assetName] *)
Definition assetName : M Value :=
  loadPublishData ;; get assetName_.

(** [CreateVersion.versionPath] *)
Definition versionPath : M string :=
  loadPublishData ;; getattr "__versionPath" versionPath_.

(** [CreateVersion.dataPath] *)
Definition dataPath : M string :=
  loadPublishData ;; getattr "__dataPath" dataPath_.

(** [CreateVersion.configPath] *)
Definition configPath : M Value :=
  loadPublishData ;; getattr "__configPath" configPath_.

(** The [metadata] argument of [addFile]: [None], a dict object, or
    anything else. *)
Inductive Metadata :=
| MNone
| MDict (l : nat)
| MOther (v : Value).

(** [CreateVersion.addFile].  [dict(metadata)] is the new object; the
    empty dict that stands in for [None] is copied like any other. *)
Definition addFile (env : Env) (filePath : string) (metadata : Metadata) : M unit :=
  let* d := dataPath in
  if negb (startswith filePath (d +:+ String sep EmptyString))
  then raise (FileNotUnderDataDirectoryError filePath d)
  else
    let* given :=
      match metadata with
      | MNone => ret ∅
      | MDict l => deref l
      | MOther _ => raise (AssertionError "metadata needs to be a dict or None")
      end in
    let* metadata := alloc given in
    let* size :=
      match st_size env filePath with
      | Some n => ret n
      | None => raise (OSError filePath)
      end in
    modify (fun s => set_heap (alter (insert "size" (VInt size)) metadata (heap s)) s) ;;
    let* m := deref metadata in
    (if bool_decide ("type" ∈ dom m) then ret tt
     else
       let type := slice_from 1 (splitext filePath).2 in
       modify (fun s => set_heap (alter (insert "type" (VStr type)) metadata (heap s)) s)) ;;
    modify (fun s => set_files (odict_set filePath metadata (files_ s)) s).

(** [CreateVersion.files] *)
Definition files : M (list string) :=
  get (fun s => keys (files_ s)).

(** [CreateVersion.fileMetadata]: a new dict object with the items of the
    recorded one. *)
Definition fileMetadata (filePath : string) : M nat :=
  let* recorded := get (fun s => odict_get filePath (files_ s)) in
  match recorded with
  | Some l => let* m := deref l in alloc m
  | None => raise (MetadataNotFoundError filePath)
  end.

(** [CreateVersion.addInfo] *)
Definition addInfo (key : string) (value : Value) : M unit :=
  modify (fun s => set_info (<[key := value]> (info_ s)) s).

(** [totalSize += metadata['size']] *)
Definition addSize (totalSize : Z) (entry : string * nat) : M Z :=
  let* metadata := deref entry.2 in
  match metadata !! "size" with
  | Some (VInt n) => ret (totalSize + n)%Z
  | Some (VBool b) => ret (totalSize + (if b then 1 else 0))%Z
  | Some _ => raise (TypeError "unsupported operand type")
  | None => raise (KeyError (VStr "size"))
  end.

(** A [for] loop over a list in [M]. *)
Fixpoint forM {A B} (f : A -> B -> M A) (a : A) (l : list B) : M A :=
  match l with
  | [] => ret a
  | b :: l' => let* a' := f a b in forM f a' l'
  end.

(** [CreateVersion.__writeInfo] *)
Definition writeInfo (env : Env) : M unit :=
  let* entries := get files_ in
  let* totalSize := forM addSize 0%Z entries in
  addInfo "size" (VInt totalSize) ;;
  let* v := version in
  addInfo "version" (VInt v) ;;
  addInfo "user" (VStr (default EmptyString (environ env !! "USERNAME"))) ;;
  let* start := get startTime in
  addInfo "totalTime" (VInt (now env - start)) ;;
  let* a := assetName in
  (if truthy a
   then
     let* a := assetName in
     addInfo "assetName" a ;;
     let* v := variant in
     addInfo "variant" v
   else ret tt) ;;
  let* vp := versionPath in
  let* info := get info_ in
  modify (add_written (InfoJson (join vp "info.json") info)).

(** [CreateVersion.__writeEnv] *)
Definition writeEnv (env : Env) : M unit :=
  let* vp := versionPath in
  modify (add_written (EnvJson (join vp "env.json") (environ env))).

(** One turn of the loop of [__writeData]. *)
Definition addFileData (filesData : gmap string Dict) (entry : string * nat)
    : M (gmap string Dict) :=
  let* vp := versionPath in
  let relativePath := slice_from (String.length vp + 1) entry.1 in
  let* metadata := deref entry.2 in
  ret (<[relativePath := metadata]> filesData).

(** [CreateVersion.__writeData] *)
Definition writeData : M unit :=
  let* vp := versionPath in
  let* entries := get files_ in
  let* filesData := forM addFileData ∅ entries in
  modify (add_written (DataJson (join vp "data.json") filesData)).

(** [CreateVersion.__copyIngestorConfig] *)
Definition copyIngestorConfig : M unit :=
  let* c := configPath in
  let* vp := versionPath in
  modify (add_written (CopyTree c (join vp "ingestorConfig"))).

(** [CreateVersion._perform] *)
Definition perform (env : Env) : M unit :=
  writeEnv env ;;
  writeInfo env ;;
  writeData ;;
  copyIngestorConfig.

(** What code outside the task can do to the heap: rebind the items of a
    dict object it holds a reference to. *)
Definition mutate (l : nat) (d : Dict) (s : State) : State :=
  set_heap (<[l := d]> (heap s)) s.

(** *** The words of the specification about a version *)

(** [p] lies strictly under the directory [dir]: it is [dir], a
    separator, and a name. *)
Definition strictlyUnder (dir p : string) : Prop :=
  exists rest, rest <> EmptyString /\ p = dir +:+ String sep rest.

(** The size recorded in a metadata object, and the sum over the files
    added. *)
Definition sizeOf (h : gmap nat Dict) (l : nat) : Z :=
  match h !! l with
  | Some m => match m !! "size" with Some (VInt n) => n | _ => 0%Z end
  | None => 0%Z
  end.

Definition sumOfSizes (s : State) : Z :=
  foldr (fun entry acc => (sizeOf (heap s) entry.2 + acc)%Z) 0%Z (files_ s).

(** The items [addFile] copies from its [metadata] argument, and the
    dict it records for a file of [size] bytes. *)
Definition givenItems (metadata : Metadata) (h : gmap nat Dict) : option Dict :=
  match metadata with
  | MNone => Some ∅
  | MDict l => h !! l
  | MOther _ => None
  end.

Definition recorded (given : Dict) (size : Z) (filePath : string) : Dict :=
  let m := <["size" := VInt size]> given in
  if bool_decide ("type" ∈ dom m) then m
  else <["type" := VStr (slice_from 1 (splitext filePath).2)]> m.

(** *** The life of a task *)

(** What can happen to a task and to the heap around it: a call of one
    of its methods (every accessor is [__loadPublishData] followed by a
    read), or code outside creating a dict or changing one it holds.  No
    method hands out a reference to a recorded metadata object, so code
    outside changes other objects only. *)
Inductive step : State -> State -> Prop :=
| step_addFile env p md s : step s (addFile env p md s).2
| step_fileMetadata p s : step s (fileMetadata p s).2
| step_addInfo k v s : step s (addInfo k v s).2
| step_load s : step s (loadPublishData s).2
| step_perform env s : step s (perform env s).2
| step_alloc d s : step s (alloc d s).2
| step_mutate l d s : l ∉ values (files_ s) -> step s (mutate l d s).

Inductive reachable : State -> Prop :=
| reach_init h crawlers target time :
    reachable (CreateVersion__init__ h crawlers target time)
| reach_step s s' : reachable s -> step s s' -> reachable s'.

(** What every reachable state satisfies. *)
Record inv (s : State) : Prop := mkInv {
  inv_nodup : NoDup (keys (files_ s));
  inv_files : forall p l, (p, l) ∈ files_ s ->
     exists d m n, dataPath_ s = Some d
       /\ startswith p (d +:+ String sep EmptyString) = true
       /\ heap s !! l = Some m /\ m !! "size" = Some (VInt n);
  inv_data : forall d, dataPath_ s = Some d ->
     exists vp, versionPath_ s = Some vp /\ d = join vp "data";
  inv_version : forall v, version_ s = Some v ->
     exists vp, versionPath_ s = Some vp
       /\ int (slice_from 1 (basename vp)) = Ok v;
  inv_loaded : forall vp, versionPath_ s = Some vp ->
     loadedPublishedData s = true;
}.

(** A method that keeps the invariant, whether it returns or raises. *)
Definition keeps {A} (m : M A) : Prop := forall s, inv s -> inv (m s).2.

(** The record [__writeInfo] writes for version [v]. *)
Definition infoOf (env : Env) (s : State) (v : Z) : Dict :=
  let info :=
    <["totalTime" := VInt (now env - startTime s)]>
      (<["user" := VStr (default EmptyString (environ env !! "USERNAME"))]>
         (<["version" := VInt v]>
            (<["size" := VInt (sumOfSizes s)]> (info_ s)))) in
  if truthy (assetName_ s)
  then <["variant" := assetName_ s]> (<["assetName" := assetName_ s]> info)
  else info.

(** The manifest [__writeData] writes: one turn of its loop, and the
    whole. *)
Definition dataStep (vp : string) (h : gmap nat Dict)
    (filesData : gmap string Dict) (entry : string * nat) : gmap string Dict :=
  <[slice_from (String.length vp + 1) entry.1 := default ∅ (h !! entry.2)]> filesData.

Definition filesDataOf (vp : string) (s : State) : gmap string Dict :=
  foldl (dataStep vp (heap s)) ∅ (files_ s).

(** The part of the state [__loadPublishData] leaves alone. *)
Definition sameRecords (s s' : State) : Prop :=
  heap s' = heap s /\ files_ s' = files_ s /\ info_ s' = info_ s
  /\ written s' = written s /\ pathCrawlers s' = pathCrawlers s
  /\ filePath s' = filePath s /\ startTime s' = startTime s.

End CreateVersion.

(* ===================================================================== *)
(** * A version to publish *)
(* ===================================================================== *)

Module VersionExamples.
Import Py Crawler CreateVersion.

(** The node the task is bound to: asset hero, variant red. *)
Definition node : Crawler :=
  setVar "configPath" (VStr "/job/config") false
    (setVar "variant" (VStr "red") false
       (setVar "assetName" (VStr "hero") false Examples.typed)).

(** A second node, of another asset. *)
Definition otherNode : Crawler :=
  setVar "configPath" (VStr "/elsewhere") false
    (setVar "variant" (VStr "blue") false
       (setVar "assetName" (VStr "villain") false Examples.typed)).

(** Every node is published into the version folder v007. *)
Definition target : Crawler -> result string :=
  fun _ => Ok "/job/v007/version.json".

Definition dataDir : string := "/job/v007/data".
Definition img : string := "/job/v007/data/img.dpx".

(** The disk: the image has 1024 bytes, the data directory is there. *)
Definition disk : Env :=
  {| environ := {["USERNAME" := "ann"]};
     now := 160;
     st_size := fun p =>
       if decide (p = img) then Some 1024%Z
       else if decide (p = "/job/v007/data/") then Some 4096%Z
       else None |}.

(** The caller holds one dict, at address 0, that claims 5 bytes. *)
Definition callerHeap : gmap nat Dict :=
  {[ 0 := {[ "size" := VInt 5; "comment" := VStr "first take" ]} ]}.

Definition task : State :=
  CreateVersion__init__ callerHeap [node; otherNode] target 100.

End VersionExamples.

(* ===================================================================== *)
(** * More of Python: splitting, joining and slicing strings *)
(* ===================================================================== *)

Module PyText.
Import Py.

(** [IndexError], for which the exceptions above have no constructor of
    their own. *)
Definition IndexError : exn := OtherError "IndexError: list index out of range".

(** [s.split(c)] for a separator of one character: one part more than
    there are separators, empty parts included. *)
Fixpoint split (c : ascii) (s : string) : list string :=
  match s with
  | EmptyString => [EmptyString]
  | String a s' =>
      if decide (a = c) then EmptyString :: split c s'
      else match split c s' with
           | part :: parts => String a part :: parts
           | [] => [String a EmptyString]
           end
  end.

(** [c.join(parts)] *)
Fixpoint join_with (c : ascii) (parts : list string) : string :=
  match parts with
  | [] => EmptyString
  | [part] => part
  | part :: parts' => part +:+ String c (join_with c parts')
  end.

(** [s[:n]] and [s[i:j]] for indices that are not negative. *)
Fixpoint slice_to (n : nat) (s : string) : string :=
  match n, s with
  | S n', String a s' => String a (slice_to n' s')
  | _, _ => EmptyString
  end.

Definition slice (i j : nat) (s : string) : string :=
  slice_to (j - i) (slice_from i s).

(** [l[i]] and [l[-1]] *)
Definition index {A} (l : list A) (i : nat) : result A :=
  match l !! i with
  | Some x => Ok x
  | None => Raise IndexError
  end.

Definition index_last {A} (l : list A) : result A :=
  match last l with
  | Some x => Ok x
  | None => Raise IndexError
  end.

(** [len(s)] *)
Definition len (s : string) : Z := Z.of_nat (String.length s).

(** How often [c] occurs in [s]. *)
Definition count (c : ascii) (s : string) : nat :=
  length (filter (fun a => a = c) (chars s)).

End PyText.

(* ===================================================================== *)
(** * [DpxClientPlate]: the crawler of the example job *)
(* ===================================================================== *)

Module DpxClientPlate.
Import Py Crawler Path PyText.

Definition underscore : ascii := "_"%char.

(** [self.var('name').split('_')]: only a string can be split. *)
Definition splitName (name : Value) : result (list string) :=
  match name with
  | VStr s => Ok (split underscore s)
  | _ => Raise (AttributeError "split")
  end.

(** What [DpxClientPlate.__init__] does once the constructor of the base
    class has returned: the variables it sets, in the order it sets
    them.  A variable is read from the node as it is at that point of
    the body. *)
Definition DpxClientPlate__init__ (self : Crawler) : result (list SetOp) :=
  let! name := var "name" self in
  let! nameParts := splitName name in
  let! part0 := index nameParts 0 in
  let seq := "EP" +:+ slice_from 3 part0 in
  let! part1 := index nameParts 1 in
  let! part2 := index nameParts 2 in
  let shot :=
    "HVN-" +:+ seq +:+ "-" +:+ part1 +:+ "-" +:+ part2 in
  let ops := [SetVar "seq" (VStr seq) false;
              SetVar "shot" (VStr shot) false;
              SetVar "plateName" (VStr "plate") false] in
  let! imageType := var "imageType" (foldl applyOp self ops) in
  if isStr "sequence" imageType
  then Ok (ops ++ [SetVar "version" (VInt 0) false])
  else
    let versionDigits := 4 in
    let! lastPart := index_last nameParts in
    let! version := int (slice 1 versionDigits lastPart) in
    let frame := slice_from versionDigits lastPart in
    let! frameNumber := int frame in
    Ok (ops ++
        [SetVar "name" (VStr (join_with underscore (removelast nameParts))) false;
         SetVar "version" (VInt version) false;
         SetVar "frame" (VInt frameNumber) false;
         SetVar "padding" (VInt (len frame)) false;
         SetVar "imageType" (VStr "sequence") false]).

(** The class.  Its base [centipede.Crawler.Fs.Image.Dpx] is not in the
    tree and is left open: [DpxClientPlate] inherits its [test], and its
    constructor calls the one of the base first. *)
Definition DpxClientPlate (base : PathClass) : PathClass :=
  {| mro := "DpxClientPlate" :: mro base;
     test := test base;
     initBody := fun ph parentCrawler self =>
       let! inherited := initBody base ph parentCrawler self in
       let! own := DpxClientPlate__init__ (foldl applyOp self inherited) in
       Ok (inherited ++ own) |}.

(** Reading a variable after a run of assignments: the last assignment
    to that name counts, the node as it was otherwise. *)
Fixpoint assigned (name : string) (ops : list SetOp) : option Value :=
  match ops with
  | [] => None
  | SetVar name' value _ :: ops' =>
      match assigned name ops' with
      | Some later => Some later
      | None => if decide (name' = name) then Some value else None
      end
  | SetTag _ _ :: ops' => assigned name ops'
  end.

(** [DpxClientPlate.register('dpxClientPlate', DpxClientPlate)] *)
Definition registerDpxClientPlate (base : PathClass) (registeredTypes : Registry)
    : result Registry :=
  register "dpxClientPlate" (DpxClientPlate base) registeredTypes.

End DpxClientPlate.

(* ===================================================================== *)
(** * [UpdateImageMetadata.updateUmediaMetadata] *)
(* ===================================================================== *)

Module UpdateImageMetadata.
Import Py Crawler.

(** The attributes of an image spec.  ([oiio.ImageSpec] is not part of
    the repository; [spec.attribute(name, value)] sets one attribute.) *)
Abbreviation ImageSpec := (gmap string Value).

Definition attribute (name : string) (value : Value) (spec : ImageSpec) : ImageSpec :=
  <[name := value]> spec.

(** [os.environ.get(name, '')] and [os.environ[name]] *)
Definition environGet (environ : gmap string string) (name : string) : Value :=
  VStr (default EmptyString (environ !! name)).

Definition environItem (environ : gmap string string) (name : string) : result Value :=
  match environ !! name with
  | Some value => Ok (VStr value)
  | None => Raise (KeyError (VStr name))
  end.

(** [UpdateImageMetadata.updateUmediaMetadata].  [timestamp] is what
    [datetime.now().strftime(...)] prints.  Returns the outcome and the
    spec as the call leaves it. *)
Definition updateUmediaMetadata (environ : gmap string string) (timestamp : string)
    (spec : ImageSpec) (crawler : Crawler) : result unit * ImageSpec :=
  let headerInfo :=
    let! sourceFile := var "filePath" crawler in
    let! ingestorUser := environItem environ "USERNAME" in
    Ok [("sourceFile", sourceFile);
        ("fileUpdatedTime", VStr timestamp);
        ("uverVersion", environGet environ "UVER_VERSION");
        ("ingestorUser", ingestorUser);
        ("ingestorVersion", environGet environ "UVER_INGESTOR_VERSION")] in
  match headerInfo with
  | Raise e => (Raise e, spec)
  | Ok items =>
      (Ok tt,
       foldl (fun spec '(headerName, headerValue) =>
                attribute ("umedia:" +:+ headerName) headerValue spec)
             spec items)
  end.

End UpdateImageMetadata.

(* ===================================================================== *)
(** * More scenarios: a client plate, a task without nodes, a bad folder *)
(* ===================================================================== *)

Module Scenarios.
Import Py Crawler Path CreateVersion DpxClientPlate.

(** A plate as the client delivers it: version 2, frame 986. *)
Definition plateFile : PathHolder :=
  {| path := "/in/XHE102_013_060_plate_v00200986.dpx"; isDirectory := false |}.

(** The node when the constructor of the base class [Examples.Dpx] has
    returned. *)
Definition plateSelf : Crawler :=
  foldl applyOp (Path__init__ (mro (DpxClientPlate Examples.Dpx)) plateFile None)
    [SetVar "imageType" (VStr "single") false; SetTag "group" (VStr "plate")].

(** What [DpxClientPlate.__init__] then sets. *)
Definition plateOps : list SetOp :=
  [SetVar "seq" (VStr "EP102") false;
   SetVar "shot" (VStr "HVN-EP102-013-060") false;
   SetVar "plateName" (VStr "plate") false;
   SetVar "name" (VStr "XHE102_013_060_plate") false;
   SetVar "version" (VInt 2) false;
   SetVar "frame" (VInt 986) false;
   SetVar "padding" (VInt 5) false;
   SetVar "imageType" (VStr "sequence") false].

(** A set of names listed as the library stores it. *)
Definition stored (S : gset string) : list string := elements S.

(** A task that is bound to no node. *)
Definition unboundTask : State :=
  CreateVersion__init__ VersionExamples.callerHeap [] VersionExamples.target 100.

(** A task whose version folder is called latest, not v007. *)
Definition latestTask : State :=
  CreateVersion__init__ VersionExamples.callerHeap [VersionExamples.node]
    (fun _ => Ok "/job/latest/version.json") 100.

End Scenarios.

(* ===================================================================== *)
(** * Facts about the Python layer *)
(* ===================================================================== *)

Module PyFacts.
Import Py.

Lemma bind_Ok {A B} (m : result A) (k : A -> result B) b :
  bind m k = Ok b -> exists a, m = Ok a /\ k a = Ok b.
Proof. destruct m; simpl; [eauto | discriminate]. Qed.

(** *** Ordered dictionaries *)

Section odict.
Context {V : Type}.
Implicit Types (d : odict V) (k : string) (v : V).

Lemma keys_app d1 d2 : keys (d1 ++ d2) = keys d1 ++ keys d2.
Proof. unfold keys. apply fmap_app. Qed.

Lemma odict_get_app_notin k d1 d2 :
  k ∉ keys d1 -> odict_get k (d1 ++ d2) = odict_get k d2.
Proof.
  induction d1 as [|[k' v'] d1 IH]; simpl; [done|].
  intros Hk. apply not_elem_of_cons in Hk as [Hne Hk].
  destruct (decide (k' = k)); [congruence | auto].
Qed.

Lemma odict_set_app_notin k v d1 d2 :
  k ∉ keys d1 -> odict_set k v (d1 ++ d2) = d1 ++ odict_set k v d2.
Proof.
  induction d1 as [|[k' v'] d1 IH]; simpl; [done|].
  intros Hk. apply not_elem_of_cons in Hk as [Hne Hk].
  destruct (decide (k' = k)); [congruence | by rewrite IH].
Qed.

Lemma odict_set_notin k v d : k ∉ keys d -> odict_set k v d = d ++ [(k, v)].
Proof.
  intros Hk. rewrite <- (app_nil_r d) at 1.
  by rewrite odict_set_app_notin.
Qed.

Lemma odict_get_Some_elem k v d : odict_get k d = Some v -> (k, v) ∈ d.
Proof.
  induction d as [|[k' v'] d IH]; simpl; [done|].
  destruct (decide (k' = k)) as [->|].
  - intros [= ->]. left.
  - intros H. right. auto.
Qed.

Lemma odict_get_is_Some k d : k ∈ keys d -> is_Some (odict_get k d).
Proof.
  induction d as [|[k' v'] d IH]; simpl.
  - intros H. by apply elem_of_nil in H.
  - intros H. destruct (decide (k' = k)); [eauto|].
    apply elem_of_cons in H as [H|H]; [congruence | auto].
Qed.

Lemma keys_odict_set_in k v d : k ∈ keys d -> keys (odict_set k v d) = keys d.
Proof.
  induction d as [|[k' v'] d IH]; simpl.
  - intros H. by apply elem_of_nil in H.
  - intros H. destruct (decide (k' = k)) as [->|Hne]; [done|].
    apply elem_of_cons in H as [H|H]; [congruence|].
    simpl. f_equal. auto.
Qed.

Lemma odict_get_set_eq k v d : odict_get k (odict_set k v d) = Some v.
Proof.
  induction d as [|[k' v'] d IH]; simpl.
  - by rewrite decide_True.
  - destruct (decide (k' = k)) as [->|Hne]; simpl.
    + by rewrite decide_True.
    + by rewrite decide_False.
Qed.

End odict.

(** *** Strings *)

Lemma startswith_app s rest : startswith (s +:+ rest) s = true.
Proof. induction s as [|a s IH]; simpl; [done|]. by rewrite decide_True. Qed.

Lemma startswith_inv s pre :
  startswith s pre = true -> exists rest, s = pre +:+ rest.
Proof.
  revert s. induction pre as [|a pre IH]; intros s; simpl.
  - intros _. by exists s.
  - destruct s as [|b s]; [done|].
    destruct (decide (a = b)) as [->|]; [|done].
    intros [rest ->]%IH. by exists rest.
Qed.

Lemma startswith_iff s pre :
  startswith s pre = true <-> exists rest, s = pre +:+ rest.
Proof.
  split; [apply startswith_inv|]. intros [rest ->]. apply startswith_app.
Qed.

Lemma slice_from_app a b : slice_from (String.length a) (a +:+ b) = b.
Proof. induction a as [|c a IH]; simpl; [by destruct b | done]. Qed.

Lemma append_cons x (a b : string) : String x a +:+ b = String x (a +:+ b).
Proof. done. Qed.

Lemma app_assoc_str (a b c : string) : (a +:+ b) +:+ c = a +:+ (b +:+ c).
Proof. induction a as [|x a IH]; [done|]. rewrite !append_cons. by f_equal. Qed.

Lemma length_app_str (a b : string) :
  String.length (a +:+ b) = String.length a + String.length b.
Proof. induction a as [|x a IH]; [done|]. rewrite append_cons. simpl. by f_equal. Qed.

Lemma app_inj_str (a b c : string) : a +:+ b = a +:+ c -> b = c.
Proof.
  induction a as [|x a IH]; [done|]. rewrite !append_cons. intros [= H]. auto.
Qed.

Lemma split_last_app c l :
  let '(h, t) := split_last c l in
  ((l = h ++ t) /\ (c ∉ t) /\ (h = [] \/ last h = Some c)).
Proof.
  induction l as [|a l IH]; simpl.
  - split_and!; [done| apply not_elem_of_nil | by left].
  - destruct (split_last c l) as [h t]. destruct IH as (-> & Ht & Hh).
    destruct (decide (c ∈ h ++ t)) as [Hin|Hnin].
    + split_and!; [done..|]. right.
      destruct Hh as [->|Hh]; [done|].
      destruct h; [done|]. done.
    + destruct (decide (a = c)) as [->|Hne].
      * split_and!; [done| |by right]. set_solver.
      * split_and!; [done| |by left]. set_solver.
Qed.

(** A path with a base name does not end with a separator. *)
Lemma basename_nonempty p :
  basename p <> EmptyString -> p <> EmptyString /\ last (chars p) <> Some sep.
Proof.
  unfold basename. pose proof (split_last_app sep (chars p)) as H.
  destruct (split_last sep (chars p)) as [h t]. destruct H as (Hp & Ht & _).
  simpl. intros Hne. split.
  - intros ->. simpl in Hp. by destruct h, t.
  - rewrite Hp. destruct t as [|a t _] using rev_ind; [done|].
    rewrite app_assoc, last_snoc. intros [= ->]. set_solver.
Qed.

Lemma join_no_sep a b :
  a <> EmptyString -> last (chars a) <> Some sep -> join a b = a +:+ String sep b.
Proof.
  intros Ha Hlast. unfold join. destruct a; [done|].
  by rewrite decide_False.
Qed.

End PyFacts.

(* ===================================================================== *)
(** * Classification: precedence and the unclaimed path *)
(* ===================================================================== *)

Module PathFacts.
Import Py Crawler Path PyFacts.

Lemma createLoop_all_false r names ph parent :
  (forall name cls, (name, cls) ∈ r -> test cls ph parent = Ok false) ->
  names ⊆ keys r ->
  createLoop r names ph parent = Ok None.
Proof.
  intros Hfalse. induction names as [|name names IH]; intros Hsub; [done|].
  simpl.
  destruct (odict_get_is_Some name r) as [cls Hcls]; [set_solver|].
  rewrite Hcls, (Hfalse name cls) by (by apply odict_get_Some_elem).
  apply IH. set_solver.
Qed.

Lemma create_last r name cls ph parent :
  name ∉ keys r ->
  test cls ph parent = Ok true ->
  create (r ++ [(name, cls)]) ph parent = createdBy name cls ph parent.
Proof.
  intros Hname Htest. unfold create, createdBy.
  rewrite keys_app, reverse_app. simpl.
  rewrite odict_get_app_notin by done. simpl.
  rewrite decide_True by done. rewrite Htest.
  by destruct (construct cls ph parent).
Qed.

Lemma createLoop_skip r names rest ph parent :
  (forall name, name ∈ names ->
     exists cls, odict_get name r = Some cls /\ test cls ph parent = Ok false) ->
  createLoop r (names ++ rest) ph parent = createLoop r rest ph parent.
Proof.
  induction names as [|name names IH]; intros H; [done|]. simpl.
  destruct (H name) as (cls & -> & ->); [left|].
  apply IH. intros n Hn. apply H. by right.
Qed.

(** Precedence in general: the type registered last among those whose
    [test] accepts the path makes the node. *)
Lemma create_precedence r1 r2 name cls ph parent :
  NoDup (keys (r1 ++ (name, cls) :: r2)) ->
  test cls ph parent = Ok true ->
  (forall n c, (n, c) ∈ r2 -> test c ph parent = Ok false) ->
  create (r1 ++ (name, cls) :: r2) ph parent = createdBy name cls ph parent.
Proof.
  intros Hnd Htest Hlater. unfold create, createdBy.
  rewrite keys_app in *. simpl in *. rewrite reverse_app, reverse_cons.
  apply NoDup_app in Hnd as (Hnd1 & Hdisj & [Hname Hnd2]%NoDup_cons).
  assert (Hget : forall n, n ∈ keys r2 ->
            odict_get n (r1 ++ (name, cls) :: r2) = odict_get n r2).
  { intros n Hn. rewrite odict_get_app_notin.
    - simpl. rewrite decide_False; [done|]. by intros <-.
    - intros Hn1. apply (Hdisj n Hn1). by right. }
  rewrite <- app_assoc, createLoop_skip.
  - simpl. rewrite odict_get_app_notin.
    + simpl. rewrite decide_True by done. rewrite Htest.
      by destruct (construct cls ph parent).
    + intros Hn1. apply (Hdisj name Hn1). left.
  - intros n Hn. rewrite elem_of_reverse in Hn. rewrite Hget by done.
    destruct (odict_get_is_Some n r2 Hn) as [c Hc]. exists c. split; [done|].
    apply (Hlater n). by apply odict_get_Some_elem.
Qed.

Lemma register_Ok name cls r :
  issubclass cls PathBase = true -> register name cls r = Ok (odict_set name cls r).
Proof. intros H. unfold register. by rewrite H. Qed.

(** C1.  Precedence.  After [register] calls for the distinct new names
    [A], [B], [C], in that order, [create] on a path that the types of [B]
    and [C] both claim returns the node constructed by the class of [C],
    with [type] set to [C] (and raises [CreateCrawlerError] for [C] when
    that constructor raises).  Registering [B] again with another class
    keeps the registered names in the order A, B, C: [B] stays in its slot
    with the new class, and [C] still wins. *)
Theorem create_latest_registered_wins
    (r0 : Registry) (A B C : string) (ca cb cc cb' : PathClass)
    (ph : PathHolder) (parent : option Crawler) :
  A ∉ registeredNames r0 -> B ∉ registeredNames r0 -> C ∉ registeredNames r0 ->
  A ≠ B -> A ≠ C -> B ≠ C ->
  issubclass ca PathBase = true -> issubclass cb PathBase = true ->
  issubclass cc PathBase = true -> issubclass cb' PathBase = true ->
  test cb ph parent = Ok true ->
  test cc ph parent = Ok true ->
  exists r r',
    registerAll [(A, ca); (B, cb); (C, cc)] r0 = Ok r
    /\ registeredNames r = registeredNames r0 ++ [A; B; C]
    /\ create r ph parent = createdBy C cc ph parent
    /\ register B cb' r = Ok r'
    /\ registeredNames r' = registeredNames r0 ++ [A; B; C]
    /\ odict_get B r' = Some cb'
    /\ create r' ph parent = createdBy C cc ph parent.
Proof.
  unfold registeredNames.
  intros HA HB HC HAB HAC HBC Hca Hcb Hcc Hcb' _ Htest.
  assert (HB1 : B ∉ keys (r0 ++ [(A, ca)])).
  { rewrite keys_app. set_solver. }
  assert (HC2 : C ∉ keys ((r0 ++ [(A, ca)]) ++ [(B, cb)])).
  { rewrite !keys_app. set_solver. }
  assert (HC2' : C ∉ keys ((r0 ++ [(A, ca)]) ++ [(B, cb')])).
  { rewrite !keys_app. set_solver. }
  exists (((r0 ++ [(A, ca)]) ++ [(B, cb)]) ++ [(C, cc)]),
         (((r0 ++ [(A, ca)]) ++ [(B, cb')]) ++ [(C, cc)]).
  split_and!.
  - unfold registerAll. simpl.
    rewrite (register_Ok A), odict_set_notin by done. simpl.
    rewrite (register_Ok B), odict_set_notin by done. simpl.
    by rewrite (register_Ok C), odict_set_notin by done.
  - rewrite !keys_app. simpl. by rewrite <- !app_assoc.
  - by apply create_last.
  - rewrite register_Ok by done. f_equal.
    rewrite <- !app_assoc. simpl.
    rewrite odict_set_app_notin by done. simpl.
    rewrite decide_False by done. simpl. by rewrite decide_True.
  - rewrite !keys_app. simpl. by rewrite <- !app_assoc.
  - rewrite <- !app_assoc. simpl.
    rewrite odict_get_app_notin by done. simpl.
    rewrite decide_False by done. simpl. by rewrite decide_True.
  - by apply create_last.
Qed.

(** C7.  A path that every registered type declines is never answered
    with an empty result: [create] fails on the closing assertion. *)
Theorem create_no_match (r : Registry) (ph : PathHolder) (parent : option Crawler) :
  (forall name cls, (name, cls) ∈ r -> test cls ph parent = Ok false) ->
  create r ph parent = Raise (noCrawlerFor ph).
Proof.
  intros Hfalse. unfold create.
  rewrite (createLoop_all_false r _ ph parent Hfalse); [done|].
  intros x Hx. by rewrite elem_of_reverse in Hx.
Qed.

(** More generally, while no registered [test] returns true, [create]
    returns no node: it raises, on the first [test] that raises or else
    on the closing assertion. *)
Lemma create_raises (r : Registry) (ph : PathHolder) (parent : option Crawler) :
  (forall name cls, (name, cls) ∈ r -> test cls ph parent <> Ok true) ->
  create r ph parent = Raise (noCrawlerFor ph)
  \/ exists name err, create r ph parent = Raise (TestCrawlerError name (path ph) err).
Proof.
  intros Hno. unfold create.
  assert (H : forall names, names ⊆ keys r ->
            createLoop r names ph parent = Ok None
            \/ exists name err,
                 createLoop r names ph parent
                 = Raise (TestCrawlerError name (path ph) err)).
  { induction names as [|name names IH]; intros Hsub; [by left|]. simpl.
    destruct (odict_get_is_Some name r) as [cls Hcls]; [set_solver|].
    rewrite Hcls. pose proof (Hno name cls (odict_get_Some_elem _ _ _ Hcls)).
    destruct (test cls ph parent) as [[]|err]; [done| |by right; eauto].
    apply IH. set_solver. }
  destruct (H (reverse (keys r))) as [->|(name & err & ->)].
  - intros x Hx. by rewrite elem_of_reverse in Hx.
  - by left.
  - right. by exists name, err.
Qed.

End PathFacts.

(* ===================================================================== *)
(** * Serialization: [toJson] and [createFromJson] *)
(* ===================================================================== *)

Module JsonFacts.
Import Py Crawler Path PyFacts.

Lemma odict_get_itemsOf (m : gmap string Value) (names : list string) k :
  odict_get k (itemsOf m names) =
  if decide (k ∈ names) then Some (default VNone (m !! k)) else None.
Proof.
  induction names as [|a names IH]; simpl; [done|].
  destruct (decide (a = k)) as [->|Hne].
  - rewrite decide_True by left. done.
  - rewrite IH. destruct (decide (k ∈ names)).
    + rewrite decide_True by (by right). done.
    + rewrite decide_False; [done|]. set_solver.
Qed.

(** The loops of [toJson] do not raise: every name they visit is defined. *)
Lemma toJson_loop (m : gmap string Value) (get : string -> result Value)
    (names : list string) (acc : odict Value) :
  (forall k, k ∈ names -> get k = Ok (default VNone (m !! k))) ->
  NoDup names ->
  (forall k, k ∈ names -> k ∉ keys acc) ->
  foldM (fun vars name => let! v := get name in Ok (odict_set name v vars))
        acc names
  = Ok (acc ++ itemsOf m names).
Proof.
  revert acc. induction names as [|a names IH]; intros acc Hget Hnd Hacc; simpl.
  - by rewrite app_nil_r.
  - apply NoDup_cons in Hnd as [Ha Hnd].
    rewrite Hget by left. simpl.
    rewrite odict_set_notin by (apply Hacc; left).
    rewrite IH.
    + by rewrite <- app_assoc.
    + intros k Hk. apply Hget. by right.
    + done.
    + intros k Hk. rewrite keys_app. simpl.
      intros [H|H]%elem_of_app.
      * by apply (Hacc k); [right|].
      * apply list_elem_of_singleton in H. congruence.
Qed.

Lemma var_defined (c : Crawler) k :
  k ∈ varNames c -> var k c = Ok (default VNone (cvars c !! k)).
Proof.
  unfold varNames, var. rewrite elem_of_elements, elem_of_dom.
  by intros [v ->].
Qed.

Lemma tag_defined (c : Crawler) k :
  k ∈ tagNames c -> tag k c = Ok (default VNone (ctags c !! k)).
Proof.
  unfold tagNames, tag. rewrite elem_of_elements, elem_of_dom.
  by intros [v ->].
Qed.

Lemma snoc_names (l : list string) (acc : list Value) :
  foldl (fun names name => names ++ [VStr name]) acc l = acc ++ (VStr <$> l).
Proof.
  revert acc. induction l as [|a l IH]; intros acc; simpl.
  - by rewrite app_nil_r.
  - by rewrite IH, <- app_assoc.
Qed.

(** [toJson] never raises, and this is the document it returns. *)
Lemma toJson_eq (c : Crawler) :
  toJson c = Ok (VDict [("vars", VDict (itemsOf (cvars c) (varNames c)));
                        ("contextVarNames", VList (VStr <$> contextVarNames c));
                        ("tags", VDict (itemsOf (ctags c) (tagNames c)))]).
Proof.
  unfold toJson.
  rewrite (toJson_loop (cvars c) (fun k => var k c) (varNames c) []).
  rewrite (toJson_loop (ctags c) (fun k => tag k c) (tagNames c) []).
  all: try (intros k _ H; by apply elem_of_nil in H).
  all: try (unfold varNames, tagNames; apply NoDup_elements).
  all: try (intros k; apply tag_defined).
  all: try (intros k; apply var_defined).
  simpl. by rewrite snoc_names.
Qed.

Lemma existsb_isStr k (l : list string) :
  existsb (isStr k) (VStr <$> l) = bool_decide (k ∈ l).
Proof.
  induction l as [|a l IH]; [done|].
  rewrite fmap_cons. simpl. rewrite IH.
  destruct (decide (a = k)) as [->|Hne].
  - rewrite bool_decide_eq_true_2 by done. simpl.
    symmetry. apply bool_decide_eq_true_2. left.
  - rewrite (bool_decide_eq_false_2 (a = k)) by done. simpl.
    apply bool_decide_ext. set_solver.
Qed.

(** The loop that sets the variables, once the context names are read:
    it does not raise. *)
Lemma setVars_loop (ctx : list string) (l : list (string * Value)) (c : Crawler) :
  foldM (fun crawler '(varName, varValue) =>
           Ok (setVar varName varValue
                 (existsb (isStr varName) (VStr <$> ctx)) crawler)) c l
  = Ok (foldl (setVarItem (fun k => bool_decide (k ∈ ctx))) c l).
Proof.
  revert c. induction l as [|[k v] l IH]; intros c; simpl; [done|].
  rewrite IH. unfold setVarItem at 2. simpl. by rewrite existsb_isStr.
Qed.

Lemma itemsOf_cons (m : gmap string Value) a names :
  itemsOf m (a :: names) = (a, default VNone (m !! a)) :: itemsOf m names.
Proof. done. Qed.

Lemma setVars_vars f (m : gmap string Value) names c k :
  cvars (foldl (setVarItem f) c (itemsOf m names)) !! k =
  if decide (k ∈ names) then Some (default VNone (m !! k)) else cvars c !! k.
Proof.
  revert c. induction names as [|a names IH]; intros c; [done|].
  rewrite itemsOf_cons. simpl. rewrite IH. destruct (decide (k ∈ names)).
  - rewrite decide_True by (by right). done.
  - simpl. destruct (decide (a = k)) as [->|Hne].
    + rewrite decide_True by left. by rewrite lookup_insert_eq.
    + rewrite decide_False by set_solver. by rewrite lookup_insert_ne.
Qed.

Lemma setVars_ctx f (m : gmap string Value) names c k :
  k ∈ cctx (foldl (setVarItem f) c (itemsOf m names)) <->
  k ∈ cctx c \/ (k ∈ names /\ f k = true).
Proof.
  revert c. induction names as [|a names IH]; intros c.
  - simpl. set_solver.
  - rewrite itemsOf_cons. simpl. rewrite IH. simpl.
    destruct (f a) eqn:Ha.
    + rewrite elem_of_union, elem_of_singleton, elem_of_cons.
      intuition (subst; auto).
    + rewrite elem_of_cons. intuition (subst; auto; congruence).
Qed.

Lemma setVars_others f (l : list (string * Value)) c :
  let c' := foldl (setVarItem f) c l in
  ctags c' = ctags c /\ cparent c' = cparent c /\ cchildren c' = cchildren c
  /\ cclass c' = cclass c /\ cname c' = cname c.
Proof.
  revert c. induction l as [|kv l IH]; intros c; simpl; [done|].
  destruct (IH (setVarItem f c kv)) as (-> & -> & -> & -> & ->). done.
Qed.

Lemma setTags_tags (m : gmap string Value) names c k :
  ctags (foldl setTagItem c (itemsOf m names)) !! k =
  if decide (k ∈ names) then Some (default VNone (m !! k)) else ctags c !! k.
Proof.
  revert c. induction names as [|a names IH]; intros c; [done|].
  rewrite itemsOf_cons. simpl. rewrite IH. destruct (decide (k ∈ names)).
  - rewrite decide_True by (by right). done.
  - simpl. destruct (decide (a = k)) as [->|Hne].
    + rewrite decide_True by left. by rewrite lookup_insert_eq.
    + rewrite decide_False by set_solver. by rewrite lookup_insert_ne.
Qed.

Lemma setTags_others (l : list (string * Value)) c :
  let c' := foldl setTagItem c l in
  cvars c' = cvars c /\ cctx c' = cctx c /\ cparent c' = cparent c
  /\ cchildren c' = cchildren c /\ cclass c' = cclass c /\ cname c' = cname c.
Proof.
  revert c. induction l as [|[k v] l IH]; intros c; simpl; [done|].
  destruct (IH (setTag k v c)) as (-> & -> & -> & -> & -> & ->). done.
Qed.

Lemma applyOps_others (ops : list SetOp) c :
  let c' := foldl applyOp c ops in
  cparent c' = cparent c /\ cchildren c' = cchildren c /\ cclass c' = cclass c.
Proof.
  revert c. induction ops as [|op ops IH]; intros c; simpl; [done|].
  destruct (IH (applyOp c op)) as (-> & -> & ->). by destruct op.
Qed.

(** A constructor leaves the node where [Crawler.__init__] put it: under
    the parent it was given, without children, of the class called. *)
Lemma construct_others cls ph parent c :
  construct cls ph parent = Ok c ->
  cparent c = parent /\ cchildren c = [] /\ cclass c = mro cls.
Proof.
  unfold construct. intros (ops & _ & [= <-])%bind_Ok.
  destruct (applyOps_others ops (Path__init__ (mro cls) ph parent)) as (-> & -> & ->).
  unfold Path__init__. by case_bool_decide.
Qed.

(** C2, as the code has it.  For a node whose [type] names a registered
    type and whose [filePath] is a string, and that has every variable,
    context flag and tag the constructor of that type sets on a bare
    [PathHolder(filePath)], [createFromJson (toJson n)] returns a node
    with the same variable names, context names and tag names, the same
    value under each, the same [type], built by the class registered
    under it; it has no parent and no children. *)
Theorem createFromJson_toJson (isdir : string -> bool) (r : Registry)
    (n n0 : Crawler) (t fp : string) (cls : PathClass) :
  cvars n !! "type" = Some (VStr t) ->
  cvars n !! "filePath" = Some (VStr fp) ->
  odict_get t r = Some cls ->
  construct cls {| path := fp; isDirectory := isdir fp |} None = Ok n0 ->
  dom (cvars n0) ⊆ dom (cvars n) ->
  cctx n0 ⊆ cctx n ->
  dom (ctags n0) ⊆ dom (ctags n) ->
  cctx n ⊆ dom (cvars n) ->
  exists n',
    clone isdir r n = Ok n'
    /\ varNames n' = varNames n
    /\ contextVarNames n' = contextVarNames n
    /\ tagNames n' = tagNames n
    /\ (forall k, var k n' = var k n)
    /\ (forall k, tag k n' = tag k n)
    /\ var "type" n' = Ok (VStr t)
    /\ cclass n' = mro cls
    /\ cparent n' = None /\ cchildren n' = [].
Proof.
  intros Htype Hpath Hcls Hn0 Hvars Hctx Htags Hwf.
  assert (Hin : forall k (m : gmap string Value), k ∈ elements (dom m) <-> is_Some (m !! k)).
  { intros k m. by rewrite elem_of_elements, elem_of_dom. }
  unfold clone. rewrite toJson_eq. simpl. unfold createFromJson.
  assert (Hvarsitem : forall tl, getitem (VDict (("vars", VDict (itemsOf (cvars n) (varNames n))) :: tl)) "vars"
           = Ok (VDict (itemsOf (cvars n) (varNames n)))) by done.
  rewrite Hvarsitem. simpl.
  rewrite !odict_get_itemsOf.
  rewrite !decide_True by (unfold varNames; apply Hin; eauto).
  rewrite Htype, Hpath. simpl. rewrite Hcls. simpl.
  rewrite Hn0. simpl.
  rewrite setVars_loop. simpl.
  set (n1 := foldl (setVarItem _) n0 _).
  set (n2 := foldl setTagItem n1 _).
  assert (Ev : cvars n2 = cvars n).
  { destruct (setTags_others (itemsOf (ctags n) (tagNames n)) n1) as (E & _).
    fold n2 in E. rewrite E. apply map_eq. intros k. unfold n1.
    rewrite setVars_vars. destruct (decide (k ∈ varNames n)) as [Hk|Hk].
    - apply Hin in Hk as [v Hv]. by rewrite Hv.
    - unfold varNames in Hk. rewrite Hin in Hk.
      apply eq_None_not_Some in Hk. rewrite Hk.
      apply not_elem_of_dom. apply not_elem_of_dom in Hk. set_solver. }
  assert (Ec : cctx n2 = cctx n).
  { destruct (setTags_others (itemsOf (ctags n) (tagNames n)) n1) as (_ & E & _).
    fold n2 in E. rewrite E. apply set_eq. intros k. unfold n1.
    rewrite setVars_ctx. rewrite bool_decide_eq_true.
    unfold contextVarNames, varNames. rewrite !elem_of_elements. set_solver. }
  assert (Et : ctags n2 = ctags n).
  { apply map_eq. intros k. unfold n2. rewrite setTags_tags.
    destruct (setVars_others (fun k => bool_decide (k ∈ contextVarNames n))
                (itemsOf (cvars n) (varNames n)) n0) as (E & _).
    fold n1 in E. rewrite E.
    destruct (decide (k ∈ tagNames n)) as [Hk|Hk].
    - apply Hin in Hk as [v Hv]. by rewrite Hv.
    - unfold tagNames in Hk. rewrite Hin in Hk.
      apply eq_None_not_Some in Hk. rewrite Hk.
      apply not_elem_of_dom. apply not_elem_of_dom in Hk. set_solver. }
  exists n2. split; [done|].
  unfold varNames, contextVarNames, tagNames, var, tag.
  rewrite Ev, Ec, Et, Htype. split_and!; try done.
  - unfold n2.
    destruct (setTags_others (itemsOf (ctags n) (tagNames n)) n1) as (_ & _ & _ & _ & -> & _).
    unfold n1.
    destruct (setVars_others (fun k => bool_decide (k ∈ contextVarNames n))
                (itemsOf (cvars n) (varNames n)) n0) as (_ & _ & _ & -> & _).
    by destruct (construct_others _ _ _ _ Hn0) as (_ & _ & ->).
  - unfold n2.
    destruct (setTags_others (itemsOf (ctags n) (tagNames n)) n1) as (_ & _ & -> & _).
    unfold n1.
    destruct (setVars_others (fun k => bool_decide (k ∈ contextVarNames n))
                (itemsOf (cvars n) (varNames n)) n0) as (_ & -> & _).
    by destruct (construct_others _ _ _ _ Hn0) as (-> & _).
  - unfold n2.
    destruct (setTags_others (itemsOf (ctags n) (tagNames n)) n1) as (_ & _ & _ & -> & _).
    unfold n1.
    destruct (setVars_others (fun k => bool_decide (k ∈ contextVarNames n))
                (itemsOf (cvars n) (varNames n)) n0) as (_ & _ & -> & _).
    by destruct (construct_others _ _ _ _ Hn0) as (_ & -> & _).
Qed.

End JsonFacts.

(* ===================================================================== *)
(** * Glob: traversal order, filters and the memo *)
(* ===================================================================== *)

Module GlobFacts.
Import Py Crawler Path PyFacts.

(** [__collectCrawlers] follows the code, [preorder] the words of the
    specification; the test [isLeaf] of the code changes nothing. *)
Lemma collectCrawlers_preorder : forall c, collectCrawlers c = preorder c.
Proof.
  fix IH 1. intros [nm cl vs cx tg pa kids ph gc]. simpl. f_equal.
  destruct kids as [|k kids]; [done|].
  simpl. f_equal; [apply IH|].
  induction kids as [|k' kids IHk]; [done|].
  simpl. f_equal; [apply IH | apply IHk].
Qed.

Lemma collectCrawlers_unfold c :
  collectCrawlers c =
  c :: (if isLeaf c then [] else flat_map collectCrawlers (children c)).
Proof. destruct c as [nm cl vs cx tg pa kids ph gc]. by destruct kids. Qed.

(** *** Positions *)

Lemma imap_pair_lookup {A} (l : list A) i x :
  (i, x) ∈ imap pair l <-> l !! i = Some x.
Proof.
  rewrite elem_of_lookup_imap. split.
  - intros (j & y & [= -> ->] & H). done.
  - intros H. by exists i, x.
Qed.

Lemma omap_lookup_positions {A} (cache : list A) (l : list (nat * A)) :
  (forall ix, ix ∈ l -> cache !! ix.1 = Some ix.2) ->
  omap (fun i => cache !! i) l.*1 = l.*2.
Proof.
  induction l as [|[i x] l IH]; intros H; [done|].
  csimpl.
  pose proof (H (i, x) ltac:(left)) as Hi. simpl in Hi. rewrite Hi. csimpl.
  rewrite IH; [done|]. intros ix Hix. apply H. by right.
Qed.

Lemma filter_snd {A B} (P : B -> bool) (l : list (A * B)) :
  (filter (fun ix => P ix.2 = true) l).*2 = filter (fun x => P x = true) l.*2.
Proof.
  induction l as [|[i x] l IH]; [done|].
  rewrite fmap_cons, !filter_cons. simpl.
  destruct (decide (P x = true)); [rewrite fmap_cons|]; by rewrite IH.
Qed.

Lemma imap_pair_snd {A} (l : list A) : (imap pair l).*2 = l.
Proof.
  rewrite fmap_imap. simpl. clear. 
  assert (H : forall (f : nat -> nat), imap (fun (n : nat) (x : A) => x) l = l).
  { intros _. induction l as [|a l IH]; [done|]. simpl. f_equal.
    by rewrite <- IH at 2. }
  by apply H.
Qed.

Lemma imap_pair_fst {A} (l : list A) : (imap pair l).*1 = seq 0 (length l).
Proof.
  rewrite fmap_imap. simpl.
  assert (H : forall k, imap (fun (n : nat) (_ : A) => k + n) l = seq k (length l)).
  { induction l as [|a l IH]; intros k; [done|]. simpl. f_equal; [lia|].
    rewrite <- IH. apply imap_ext. intros; simpl. lia. }
  apply (H 0).
Qed.

Lemma instancesAt_elem subs (cache : list Crawler) i :
  i ∈ instancesAt subs cache <->
  exists x, cache !! i = Some x /\ isinstance x subs = true.
Proof.
  unfold instancesAt. rewrite list_elem_of_fmap. split.
  - intros ([j x] & -> & [H1 H2]%list_elem_of_filter). exists x.
    simpl in *. by apply imap_pair_lookup in H2.
  - intros (x & H1 & H2). exists (i, x). split; [done|].
    apply list_elem_of_filter. split; [done|]. by apply imap_pair_lookup.
Qed.

Lemma positions_NoDup (P : nat * Crawler -> Prop) `{!forall ix, Decision (P ix)}
    (cache : list Crawler) :
  NoDup (filter P (imap pair cache)).*1.
Proof.
  apply (sublist_NoDup _ (imap pair cache).*1).
  - rewrite imap_pair_fst. apply NoDup_seq.
  - apply fmap_sublist, sublist_filter.
Qed.

(** The positions [glob] has collected when its loop over the filters
    ends. *)
Lemma filter_loop r (cache : list Crawler) filterTypes bases (S0 : gset nat) :
  mapM (baseClass r) filterTypes = Ok bases ->
  exists S,
    foldM (fun (filteredCrawlers : gset nat) filterType =>
             let! subClasses := registeredSubclasses r filterType in
             Ok (filteredCrawlers ∪ list_to_set (instancesAt subClasses cache)))
          S0 filterTypes = Ok S
    /\ forall i, i ∈ S <->
         i ∈ S0 \/ exists x, cache !! i = Some x /\ selectedBy r bases x = true.
Proof.
  revert bases S0. induction filterTypes as [|ft fts IH]; intros bases S0; simpl.
  - intros [= <-]. exists S0. split; [done|]. intros i. split; [auto|].
    intros [H|(x & _ & H)]; [done|]. discriminate.
  - intros (base & Hbase & (bs & Hbs & [= <-])%bind_Ok)%bind_Ok.
    unfold registeredSubclasses at 1. rewrite Hbase. simpl.
    destruct (IH bs (S0 ∪ list_to_set (instancesAt (subclassesOf r base) cache)) Hbs)
      as (S & -> & HS).
    exists S. split; [done|]. intros i. rewrite HS.
    rewrite elem_of_union, elem_of_list_to_set, instancesAt_elem.
    unfold selectedBy. simpl. split.
    + intros [[H|(x & Hx & Hi)]|(x & Hx & Hsel)]; [by left|right..].
      * exists x. split; [done|]. by rewrite Hi.
      * exists x. split; [done|]. unfold selectedBy in Hsel. rewrite Hsel.
        apply orb_true_r.
    + intros [H|(x & Hx & [Hi|Hsel]%orb_true_iff)]; [by left; left|..].
      * left; right. by exists x.
      * right. by exists x.
Qed.

(** Transitivity of [issubclass], read off the resolution orders. *)
Lemma issubclassMro_trans a b c :
  issubclassMro a b = true -> issubclassMro b c = true -> issubclassMro a c = true.
Proof.
  unfold issubclassMro. rewrite !bool_decide_eq_true.
  intros H1 H2. by etrans.
Qed.

Lemma issubclassMro_refl a : issubclassMro a a = true.
Proof. unfold issubclassMro. by apply bool_decide_eq_true. Qed.

(** For a crawler whose class is registered, the test of [glob] says
    whether that class is, or derives from, one of the filters. *)
Lemma selectedBy_registered r bases x :
  (exists R, R ∈ values r /\ mro R = cclass x) ->
  selectedBy r bases x = derivesFrom bases x.
Proof.
  intros (R & HR & Hmro). unfold selectedBy, derivesFrom.
  induction bases as [|base bases IH]; [done|]. simpl. rewrite IH. f_equal.
  unfold isinstance. apply eq_true_iff_eq. rewrite existsb_exists. split.
  - intros (R' & HR' & Hx). apply list_elem_of_In in HR'.
    apply list_elem_of_filter in HR' as [Hsub _].
    by apply (issubclassMro_trans _ (mro R')).
  - intros Hx. exists R. split.
    + apply list_elem_of_In. apply list_elem_of_filter. split; [|done].
      unfold issubclass. by rewrite Hmro.
    + rewrite Hmro. apply issubclassMro_refl.
Qed.

Lemma glob_memo enumerate r filterTypes useCache self :
  globCache (glob enumerate r filterTypes useCache self).2
  = Some (globList useCache self).
Proof.
  unfold glob, globList.
  destruct (globCache self) as [cache|] eqn:E; [destruct useCache|];
    simpl; rewrite ?E; by destruct filterTypes.
Qed.

Lemma glob_unfiltered enumerate r useCache self :
  (glob enumerate r [] useCache self).1 = Ok (globList useCache self).
Proof.
  unfold glob, globList.
  destruct (globCache self) as [cache|] eqn:E; [destruct useCache|];
    simpl; by rewrite ?E.
Qed.

(** C5, as the code has it.  With filters that resolve (registered names
    and classes derived from [Path]), [glob] returns the crawlers of its
    memo that are instances of a registered class derived from one of the
    filters, each once, in the order the set happens to be enumerated;
    for a crawler whose own class is registered that is: its class is, or
    derives from, one of the filters.  Without filters it returns the
    memo itself, which is the subtree in pre-order whenever it is
    computed by the call. *)
Theorem glob_filtered enumerate r filterTypes bases useCache self :
  validEnumeration enumerate ->
  mapM (baseClass r) filterTypes = Ok bases ->
  (filterTypes <> [] ->
   exists l,
     (glob enumerate r filterTypes useCache self).1 = Ok l
     /\ l ≡ₚ filter (fun x => selectedBy r bases x = true) (globList useCache self))
  /\ (forall x, (exists R, R ∈ values r /\ mro R = cclass x) ->
        selectedBy r bases x = derivesFrom bases x)
  /\ (glob enumerate r [] useCache self).1 = Ok (globList useCache self)
  /\ (globCache self = None \/ useCache = false ->
      globList useCache self = preorder self).
Proof.
  intros Henum Hbases. split_and!.
  - destruct filterTypes as [|ft fts]; [done|]. intros _.
    pose proof (glob_memo enumerate r (ft :: fts) useCache self) as Hmemo.
    destruct (filter_loop r (globList useCache self) (ft :: fts) bases ∅ Hbases)
      as (S & HS & Hmem).
    unfold glob in *. cbn zeta in *.
    set (self' := if _ : bool then _ else self) in *.
    simpl in Hmemo. rewrite Hmemo. simpl default.
    cbn [fst]. rewrite HS. simpl. eexists. split; [done|].
    rewrite (Henum S).
    set (sel := fun ix : nat * Crawler => selectedBy r bases ix.2 = true).
    trans (omap (fun i => globList useCache self !! i)
             (filter sel (imap pair (globList useCache self))).*1).
    + apply omap_Permutation. apply NoDup_Permutation.
      * apply NoDup_elements.
      * apply positions_NoDup.
      * intros i. rewrite elem_of_elements, Hmem, list_elem_of_fmap. split.
        -- intros [H|(x & Hx & Hsel)]; [set_solver|].
           exists (i, x). split; [done|]. apply list_elem_of_filter.
           split; [done|]. by apply imap_pair_lookup.
        -- intros ([j x] & -> & [H1 H2]%list_elem_of_filter). right.
           exists x. split; [|done]. by apply imap_pair_lookup in H2.
    + rewrite omap_lookup_positions.
      * unfold sel. by rewrite filter_snd, imap_pair_snd.
      * intros [i x] [_ H]%list_elem_of_filter. by apply imap_pair_lookup.
  - intros x. apply selectedBy_registered.
  - apply glob_unfiltered.
  - unfold globList. rewrite <- collectCrawlers_preorder.
    intros [-> | ->]; [done|]. by destruct (globCache self).
Qed.

Lemma descending_valid : validEnumeration descending.
Proof.
  intros S. unfold descending.
  rewrite reverse_Permutation. apply merge_sort_Permutation.
Qed.

Lemma globList_cached c l : globCache c = Some l -> globList true c = l.
Proof. unfold globList. by intros ->. Qed.

Lemma globList_forced c : globList false c = collectCrawlers c.
Proof. unfold globList. by destruct (globCache c). Qed.

(** C6.  The memo.  Two calls of [glob()] in a row return the same list,
    whatever the directory has become in between; [glob(useCache=False)]
    on the changed directory traverses it again, returns its subtree,
    and leaves that list as the memo of the calls that follow. *)
Theorem glob_cache enumerate r (self : Crawler) (kids' : list Crawler) :
  let first := glob enumerate r [] true self in
  let changed := withChildren kids' first.2 in
  let second := glob enumerate r [] true changed in
  let forced := glob enumerate r [] false changed in
  second.1 = first.1
  /\ globCache second.2 = globCache first.2
  /\ children changed = kids'
  /\ forced.1 = Ok (preorder changed)
  /\ globCache forced.2 = Some (preorder changed)
  /\ (glob enumerate r [] true forced.2).1 = forced.1.
Proof.
  cbn zeta. rewrite <- collectCrawlers_preorder.
  rewrite !glob_unfiltered, !glob_memo.
  pose proof (glob_memo enumerate r [] true self) as Hfirst.
  set (first := glob enumerate r [] true self) in *.
  assert (Hchanged : globCache (withChildren kids' first.2)
                     = Some (globList true self)) by done.
  rewrite (globList_cached _ _ Hchanged), globList_forced.
  split_and!; try done.
  f_equal. apply globList_cached. by rewrite glob_memo, globList_forced.
Qed.

End GlobFacts.

(* ===================================================================== *)
(** * The theorems at work on the small installation *)
(* ===================================================================== *)

Module PathExamples.
Import Py Crawler Path Examples PyFacts.

(** The nodes of the installation are what the code makes. *)
Example typed_created : create registry plate None = Ok typed.
Proof. vm_compute. reflexivity. Qed.

Example untyped_constructed : construct File plate None = Ok untyped.
Proof. vm_compute. reflexivity. Qed.

(** The scenario of the specification: a type for files and a type for
    directories registered, the path /a/b.txt classified. *)
Example classify_b_txt :
  exists r node,
    registerAll [("genericFile", File); ("genericDir", Directory)] [] = Ok r
    /\ create r {| path := "/a/b.txt"; isDirectory := false |} None = Ok node
    /\ var "type" node = Ok (VStr "genericFile")
    /\ var "baseName" node = Ok (VStr "b.txt")
    /\ var "ext" node = Ok (VStr "txt").
Proof.
  eexists _, _. split; [vm_compute; reflexivity|].
  split; [vm_compute; reflexivity|]. split_and!; vm_compute; reflexivity.
Qed.

Lemma create_latest_registered_wins_witness :
  test File plate None = Ok true /\ test Dpx plate None = Ok true /\
  exists r r',
    registerAll [("generic", Generic); ("file", File); ("dpx", Dpx)] [] = Ok r
    /\ registeredNames r = [] ++ ["generic"; "file"; "dpx"]
    /\ create r plate None = createdBy "dpx" Dpx plate None
    /\ register "file" Never r = Ok r'
    /\ registeredNames r' = [] ++ ["generic"; "file"; "dpx"]
    /\ odict_get "file" r' = Some Never
    /\ create r' plate None = createdBy "dpx" Dpx plate None.
Proof.
  split; [reflexivity|]. split; [reflexivity|].
  apply (PathFacts.create_latest_registered_wins
           [] "generic" "file" "dpx" Generic File Dpx Never plate None);
    try reflexivity; try discriminate; apply not_elem_of_nil.
Defined.

Lemma create_no_match_witness :
  create [("never", Never)] plate None = Raise (noCrawlerFor plate).
Proof.
  apply (PathFacts.create_no_match [("never", Never)] plate None).
  intros name cls H. apply list_elem_of_singleton in H.
  injection H as -> ->. reflexivity.
Defined.

(** A node made by calling its class has no [type]: it serializes, and
    the text cannot be read back. *)
Lemma clone_untyped_fails :
  (exists doc, toJson untyped = Ok doc) /\
  clone noDirs registry untyped = Raise (KeyError (VStr "type")) /\
  ~ exists n', clone noDirs registry untyped = Ok n'.
Proof.
  assert (H : clone noDirs registry untyped = Raise (KeyError (VStr "type")))
    by (vm_compute; reflexivity).
  split; [|split; [exact H|]].
  - rewrite JsonFacts.toJson_eq. eauto.
  - intros [n' Hn']. rewrite H in Hn'. discriminate.
Qed.

Lemma createFromJson_toJson_witness :
  exists n',
    clone noDirs registry typed = Ok n'
    /\ varNames n' = varNames typed
    /\ contextVarNames n' = contextVarNames typed
    /\ tagNames n' = tagNames typed
    /\ (forall k, var k n' = var k typed)
    /\ (forall k, tag k n' = tag k typed)
    /\ var "type" n' = Ok (VStr "dpx")
    /\ cclass n' = mro Dpx
    /\ cparent n' = None /\ cchildren n' = [].
Proof.
  apply (JsonFacts.createFromJson_toJson noDirs registry typed
           (foldl applyOp (Path__init__ (mro Dpx) plate None)
              [SetVar "imageType" (VStr "single") false;
               SetTag "group" (VStr "plate")])
           "dpx" "/a/b.dpx" Dpx);
    try (vm_compute; reflexivity);
    apply (bool_decide_unpack _); vm_compute; exact I.
Defined.

(** Enumerated from the largest position down, the files of the tree
    come last first: not the order of the traversal. *)
Lemma glob_filtered_not_preorder :
  validEnumeration descending /\
  (glob descending registry [ByName "file"] true tree).1
  <> Ok (filter (fun x => derivesFrom [File] x = true) (preorder tree)).
Proof.
  split; [apply GlobFacts.descending_valid|].
  intros H.
  apply (f_equal (fun res => match res with
                             | Ok l => cname <$> l
                             | Raise _ => []
                             end)) in H.
  vm_compute in H. discriminate.
Qed.

Lemma glob_filtered_witness :
  validEnumeration descending /\
  mapM (baseClass registry) [ByName "file"] = Ok [File] /\
  exists l,
    (glob descending registry [ByName "file"] true tree).1 = Ok l
    /\ l ≡ₚ filter (fun x => selectedBy registry [File] x = true) (globList true tree).
Proof.
  split; [apply GlobFacts.descending_valid|]. split; [reflexivity|].
  apply (GlobFacts.glob_filtered descending registry [ByName "file"] [File] true tree).
  - apply GlobFacts.descending_valid.
  - reflexivity.
  - discriminate.
Defined.

End PathExamples.

(* ===================================================================== *)
(** * The publish task *)
(* ===================================================================== *)

Module VersionFacts.
Import Py Crawler CreateVersion PyFacts.

Lemma mbind_Ok {A B} (m : M A) (k : A -> M B) s b s' :
  mbind m k s = (Ok b, s') ->
  exists a s1, m s = (Ok a, s1) /\ k a s1 = (Ok b, s').
Proof.
  unfold mbind. destruct (m s) as [[a|e] s1]; [eauto | discriminate].
Qed.

(** Once the publish data is loaded, loading is a no-op. *)
Lemma load_loaded s :
  loadedPublishedData s = true -> loadPublishData s = (Ok tt, s).
Proof.
  intros H. unfold loadPublishData, mbind, get. simpl. by rewrite H.
Qed.

Local Arguments loadPublishData : simpl never.
Local Arguments int : simpl never.
Local Arguments slice_from : simpl never.
Local Arguments basename : simpl never.
Local Arguments dirname : simpl never.
Local Arguments join : simpl never.
Local Arguments var : simpl never.
Local Arguments startswith : simpl never.
Local Arguments splitext : simpl never.

Ltac run_load :=
  unfold loadPublishData, mbind, get, modify, lift, ret; simpl;
  repeat (case_match; simplify_eq/=; try done).

Lemma load_frame s : sameRecords s (loadPublishData s).2.
Proof.
  destruct s as [h pc fp f i a v st l vp dp cp ver w].
  unfold sameRecords. run_load.
Qed.

Lemma load_inv s : inv s -> inv (loadPublishData s).2.
Proof.
  destruct s as [h pc fp f i a v st l vp dp cp ver w].
  intros [Hnd Hfiles Hdata Hver Hload]. simpl in *.
  destruct l; [by rewrite load_loaded|].
  assert (vp = None) as ->.
  { destruct vp as [x|]; [|done]. by specialize (Hload x eq_refl). }
  assert (dp = None) as ->.
  { destruct dp as [x|]; [|done]. by destruct (Hdata x eq_refl) as (? & ? & _). }
  assert (ver = None) as ->.
  { destruct ver as [x|]; [|done]. by destruct (Hver x eq_refl) as (? & ? & _). }
  assert (f = []) as ->.
  { destruct f as [|[p l] f]; [done|].
    by destruct (Hfiles p l ltac:(left)) as (? & ? & ? & ? & _). }
  run_load; split; simpl; try done;
    try (intros ? ? []%elem_of_nil); try apply NoDup_nil_2;
    intros; simplify_eq; eauto.
Qed.

(** Every accessor loads, then reads. *)
Lemma getter_eq {A} name (f : State -> option A) s :
  (loadPublishData ;; getattr name f) s =
  let s0 := (loadPublishData s).2 in
  match (loadPublishData s).1, f s0 with
  | Raise e, _ => (Raise e, s0)
  | Ok _, Some a => (Ok a, s0)
  | Ok _, None => (Raise (AttributeError name), s0)
  end.
Proof.
  unfold mbind, getattr.
  destruct (loadPublishData s) as [[[]|e] s0]; simpl; [|done].
  by destruct (f s0).
Qed.

Lemma getter_Ok {A} name (f : State -> option A) s a s0 :
  (loadPublishData ;; getattr name f) s = (Ok a, s0) ->
  s0 = (loadPublishData s).2 /\ f s0 = Some a /\ loadPublishData s = (Ok tt, s0).
Proof.
  rewrite getter_eq. cbn zeta.
  destruct (loadPublishData s) as [[[]|e] s1]; simpl; [|done].
  destruct (f s1) eqn:E; [|done]. by intros [= <- <-].
Qed.

Lemma dataPath_Ok s d s0 :
  dataPath s = (Ok d, s0) ->
  s0 = (loadPublishData s).2 /\ dataPath_ s0 = Some d
  /\ loadPublishData s = (Ok tt, s0).
Proof. apply getter_Ok. Qed.

(** [addFile], call by call. *)
Lemma addFile_eq env p md s :
  let s0 := (loadPublishData s).2 in
  addFile env p md s =
  match (loadPublishData s).1, dataPath_ s0 with
  | Raise e, _ => (Raise e, s0)
  | Ok _, None => (Raise (AttributeError "__dataPath"), s0)
  | Ok _, Some d =>
      if startswith p (d +:+ String sep EmptyString) then
        match md, givenItems md (heap s0) with
        | MOther _, _ =>
            (Raise (AssertionError "metadata needs to be a dict or None"), s0)
        | _, None => (Raise (OtherError "no such object"), s0)
        | _, Some given =>
            let l := fresh (dom (heap s0)) in
            match st_size env p with
            | None => (Raise (OSError p), set_heap (<[l := given]> (heap s0)) s0)
            | Some size =>
                (Ok tt,
                 set_files (odict_set p l (files_ s0))
                   (set_heap (<[l := recorded given size p]> (heap s0)) s0))
            end
        end
      else (Raise (FileNotUnderDataDirectoryError p d), s0)
  end.
Proof.
  cbn zeta. unfold addFile, dataPath. unfold mbind at 1.
  rewrite getter_eq. cbn zeta.
  destruct (loadPublishData s) as [[[]|e] s0]; simpl; [|done].
  destruct (dataPath_ s0) as [d|] eqn:Ed; [|done].
  destruct (startswith p _); simpl; [|done].
  destruct s0 as [h pc fp f i a v st l vp dp cp ver w]. simpl in *.
  destruct md as [|l0|x]; simpl; [| |done].
  - unfold mbind, alloc, ret, raise, modify, deref. simpl.
    destruct (st_size env p) as [size|]; simpl; [|done].
    rewrite alter_insert_eq, lookup_insert_eq. unfold recorded.
    case_bool_decide; simpl; [done|].
    by rewrite alter_insert_eq.
  - unfold mbind, alloc, ret, raise, modify, deref. simpl.
    destruct (h !! l0) as [given|]; simpl; [|done].
    destruct (st_size env p) as [size|]; simpl; [|done].
    rewrite alter_insert_eq, lookup_insert_eq. unfold recorded.
    case_bool_decide; simpl; [done|].
    by rewrite alter_insert_eq.
Qed.

Lemma recorded_size given size p : recorded given size p !! "size" = Some (VInt size).
Proof.
  unfold recorded. case_bool_decide.
  - apply lookup_insert_eq.
  - rewrite lookup_insert_ne by done. apply lookup_insert_eq.
Qed.

Lemma recorded_type given size p :
  recorded given size p !! "type" =
  Some (default (VStr (slice_from 1 (splitext p).2)) (given !! "type")).
Proof.
  unfold recorded. case_bool_decide as H.
  - rewrite dom_insert, elem_of_union, elem_of_singleton, elem_of_dom in H.
    destruct H as [|[t Ht]]; [done|].
    rewrite lookup_insert_ne by done. by rewrite Ht.
  - rewrite lookup_insert_eq.
    destruct (given !! "type") eqn:E; [|done]. exfalso. apply H.
    rewrite dom_insert, elem_of_union. right. apply elem_of_dom. eauto.
Qed.

Lemma recorded_other given size p k :
  k <> "size" -> k <> "type" -> recorded given size p !! k = given !! k.
Proof.
  intros H1 H2. unfold recorded.
  case_bool_decide; by rewrite !lookup_insert_ne.
Qed.

(** *** The invariant *)

Lemma elem_of_odict_set {V} (k k' : string) (v v' : V) d :
  NoDup (keys d) ->
  (k', v') ∈ odict_set k v d ->
  (k' = k /\ v' = v) \/ (k' <> k /\ (k', v') ∈ d).
Proof.
  induction d as [|[k0 v0] d IH]; simpl.
  - intros _ [= -> ->]%list_elem_of_singleton. by left.
  - intros [Hk0 Hnd]%NoDup_cons. destruct (decide (k0 = k)) as [->|Hne].
    + intros [[= -> ->]|H]%elem_of_cons; [by left|]. right. split.
      * intros ->. apply Hk0. unfold keys. apply list_elem_of_fmap.
        by exists (k, v').
      * by right.
    + intros [[= -> ->]|H]%elem_of_cons.
      * right. split; [done|]. left.
      * destruct (IH Hnd H) as [?|[? ?]]; [by left|]. right. split; [done|].
        by right.
Qed.

Lemma keys_odict_set_NoDup {V} (k : string) (v : V) d :
  NoDup (keys d) -> NoDup (keys (odict_set k v d)).
Proof.
  intros Hnd. destruct (decide (k ∈ keys d)) as [Hin|Hnin].
  - by rewrite keys_odict_set_in.
  - rewrite odict_set_notin, keys_app by done. simpl.
    apply NoDup_app. split_and!; [done| |apply NoDup_singleton].
    intros x Hx ->%list_elem_of_singleton. done.
Qed.

Lemma inv_set_heap_fresh s m :
  inv s -> inv (set_heap (<[fresh (dom (heap s)) := m]> (heap s)) s).
Proof.
  destruct s as [h pc fp f i a v st l vp dp cp ver w].
  intros [Hnd Hfiles Hdata Hver Hload]. split; simpl in *; try done.
  intros p l0 Hin. destruct (Hfiles p l0 Hin) as (d & m0 & n & ? & ? & Hl0 & ?).
  exists d, m0, n. split_and!; try done.
  rewrite lookup_insert_ne; [done|]. intros <-.
  apply (is_fresh (dom h)). apply elem_of_dom. eauto.
Qed.

Lemma inv_addFile env p md s : inv s -> inv (addFile env p md s).2.
Proof.
  intros Hinv. apply load_inv in Hinv. rewrite addFile_eq. cbn zeta.
  destruct (loadPublishData s) as [res s0]. simpl in *. clear s.
  destruct res as [[]|e]; [|done].
  destruct (dataPath_ s0) as [d|] eqn:Ed; [|done].
  destruct (startswith p _) eqn:Epre; [|done].
  destruct md as [|l0|x]; simpl; [| |done].
  - destruct (st_size env p) as [size|]; simpl; [|by apply inv_set_heap_fresh].
    destruct s0 as [h pc fp f i a v st l vp dp cp ver w].
    destruct Hinv as [Hnd Hfiles Hdata Hver Hload]. split; simpl in *; try done.
    + by apply keys_odict_set_NoDup.
    + intros p' l' H. apply elem_of_odict_set in H; [|done].
      destruct H as [[-> ->]|[Hne Hin]].
      * exists d, (recorded ∅ size p), size.
        by rewrite lookup_insert_eq, recorded_size.
      * destruct (Hfiles p' l' Hin) as (d' & m0 & n & ? & ? & Hl0 & ?).
        exists d', m0, n. split_and!; try done.
        rewrite lookup_insert_ne; [done|]. intros <-.
        apply (is_fresh (dom h)). apply elem_of_dom. eauto.
  - destruct (heap s0 !! l0) as [given|] eqn:El0; [|done].
    destruct (st_size env p) as [size|]; simpl; [|by apply inv_set_heap_fresh].
    destruct s0 as [h pc fp f i a v st l vp dp cp ver w].
    destruct Hinv as [Hnd Hfiles Hdata Hver Hload]. split; simpl in *; try done.
    + by apply keys_odict_set_NoDup.
    + intros p' l' H. apply elem_of_odict_set in H; [|done].
      destruct H as [[-> ->]|[Hne Hin]].
      * exists d, (recorded given size p), size.
        by rewrite lookup_insert_eq, recorded_size.
      * destruct (Hfiles p' l' Hin) as (d' & m0 & n & ? & ? & Hl0 & ?).
        exists d', m0, n. split_and!; try done.
        rewrite lookup_insert_ne; [done|]. intros <-.
        apply (is_fresh (dom h)). apply elem_of_dom. eauto.
Qed.

Lemma keeps_bind {A B} (m : M A) (k : A -> M B) :
  keeps m -> (forall a, keeps (k a)) -> keeps (mbind m k).
Proof.
  intros Hm Hk s Hs. unfold mbind. specialize (Hm s Hs).
  destruct (m s) as [[a|e] s1]; [by apply Hk | done].
Qed.

Lemma keeps_pure {A} (m : M A) : (forall s, (m s).2 = s) -> keeps m.
Proof. intros H s Hs. by rewrite H. Qed.

Lemma keeps_getattr {A} name (f : State -> option A) : keeps (getattr name f).
Proof. apply keeps_pure. intros s. unfold getattr. by destruct (f s). Qed.

Lemma keeps_deref l : keeps (deref l).
Proof. apply keeps_pure. intros s. unfold deref. by destruct (heap s !! l). Qed.

Lemma keeps_modify f : (forall s, inv s -> inv (f s)) -> keeps (modify f).
Proof. intros H s Hs. by apply H. Qed.

Lemma keeps_forM {A B} (f : A -> B -> M A) a l :
  (forall a b, keeps (f a b)) -> keeps (forM f a l).
Proof.
  intros Hf. revert a. induction l as [|b l IH]; intros a; simpl.
  - by apply keeps_pure.
  - apply keeps_bind; [apply Hf | apply IH].
Qed.

Lemma inv_set_info i s : inv s -> inv (set_info i s).
Proof. destruct s. by intros []. Qed.

Lemma inv_add_written x s : inv s -> inv (add_written x s).
Proof. destruct s. by intros []. Qed.

Lemma keeps_load : keeps loadPublishData.
Proof. intros s. apply load_inv. Qed.

Lemma keeps_perform env : keeps (perform env).
Proof.
  pose proof keeps_load.
  unfold perform, writeEnv, writeInfo, writeData, copyIngestorConfig,
    versionPath, version, assetName, variant, configPath, addInfo.
  repeat first
    [ assumption
    | apply keeps_bind; [|intros ?]
    | apply keeps_forM; intros ? ?; unfold addSize, addFileData, versionPath
    | apply keeps_getattr
    | apply keeps_deref
    | apply keeps_modify; intros ? ?; first [by apply inv_set_info | by apply inv_add_written]
    | by apply keeps_pure
    | progress case_match ].
Qed.

Lemma fileMetadata_eq p s :
  fileMetadata p s =
  match odict_get p (files_ s) with
  | None => (Raise (MetadataNotFoundError p), s)
  | Some l =>
      match heap s !! l with
      | None => (Raise (OtherError "no such object"), s)
      | Some m =>
          (Ok (fresh (dom (heap s))),
           set_heap (<[fresh (dom (heap s)) := m]> (heap s)) s)
      end
  end.
Proof.
  unfold fileMetadata, mbind, get, deref, alloc, raise.
  destruct (odict_get p (files_ s)); [|done].
  by destruct (heap s !! n).
Qed.

Lemma inv_mutate l d s : inv s -> l ∉ values (files_ s) -> inv (mutate l d s).
Proof.
  destruct s as [h pc fp f i a v st ld vp dp cp ver w].
  intros [Hnd Hfiles Hdata Hver Hload] Hl. split; simpl in *; try done.
  intros p l0 Hin. destruct (Hfiles p l0 Hin) as (d0 & m0 & n & ? & ? & Hl0 & ?).
  exists d0, m0, n. split_and!; try done.
  rewrite lookup_insert_ne; [done|]. intros <-. apply Hl.
  unfold values. apply list_elem_of_fmap. by exists (p, l).
Qed.

Lemma inv_init h crawlers target time :
  inv (CreateVersion__init__ h crawlers target time).
Proof.
  split; simpl; try done.
  - apply NoDup_nil_2.
  - intros ? ? []%elem_of_nil.
Qed.

Lemma step_inv s s' : step s s' -> inv s -> inv s'.
Proof.
  intros [] Hs.
  - by apply inv_addFile.
  - rewrite fileMetadata_eq. repeat case_match; simpl; try done.
    by apply inv_set_heap_fresh.
  - by apply inv_set_info.
  - by apply load_inv.
  - by apply keeps_perform.
  - by apply inv_set_heap_fresh.
  - by apply inv_mutate.
Qed.

Lemma reachable_inv s : reachable s -> inv s.
Proof. induction 1; [apply inv_init | by eapply step_inv]. Qed.

Lemma not_self_prefix (d rest : string) : d <> d +:+ String sep rest.
Proof.
  intros H. apply (f_equal String.length) in H.
  rewrite length_app_str in H. simpl in H. lia.
Qed.

(** C3, as the code has it.  With the data directory of the version
    resolved to [d], [addFile] raises [FileNotUnderDataDirectoryError]
    exactly when the path does not begin with [d] followed by a
    separator; then it names the path and [d], and the task is as the
    load left it: no entry is recorded, no object created.  The data
    directory itself, written without a closing separator, is rejected. *)
Theorem addFile_rejects_iff env p md s d s0 :
  dataPath s = (Ok d, s0) ->
  let res := addFile env p md s in
  ((exists a b, res.1 = Raise (FileNotUnderDataDirectoryError a b))
     <-> ~ exists rest, p = d +:+ String sep rest)
  /\ (forall a b, res.1 = Raise (FileNotUnderDataDirectoryError a b) ->
        a = p /\ b = d /\ res.2 = s0
        /\ files_ res.2 = files_ s /\ heap res.2 = heap s)
  /\ (addFile env d md s).1 = Raise (FileNotUnderDataDirectoryError d d).
Proof.
  intros (-> & Hd & Hload)%dataPath_Ok. cbn zeta.
  destruct (load_frame s) as (Hheap & Hfiles & _).
  rewrite !addFile_eq. cbn zeta. rewrite Hload. simpl. rewrite Hd.
  assert (Hpre : forall q, startswith q (d +:+ String sep EmptyString) = true
                  <-> exists rest, q = d +:+ String sep rest).
  { intros q. rewrite startswith_iff. by setoid_rewrite app_assoc_str. }
  split_and!.
  - destruct (startswith p _) eqn:E.
    + split.
      * intros (a & b & H). exfalso.
        destruct md; simpl in H; repeat case_match; simplify_eq/=.
      * intros H. exfalso. apply H. by apply Hpre.
    + split; [|by eauto]. intros _ H. apply Hpre in H. congruence.
  - intros a b. destruct (startswith p _) eqn:E.
    + intros H. exfalso.
      destruct md; simpl in H; repeat case_match; simplify_eq/=.
    + simpl. by intros [= -> ->].
  - destruct (startswith d _) eqn:E; [|done].
    apply Hpre in E as [rest E]. by apply not_self_prefix in E.
Qed.

(** C8, as the code has it.  A successful [addFile] records a new dict
    object: the items of the caller's mapping, [size] always set to the
    size of the file on disk, [type] set to the extension only if the
    caller gave none.  The object is not the caller's: whatever the
    caller then does to their own dict, the entry stays. *)
Theorem addFile_records env p md s s' :
  addFile env p md s = (Ok tt, s') ->
  exists l given size,
    givenItems md (heap s) = Some given
    /\ st_size env p = Some size
    /\ odict_get p (files_ s') = Some l
    /\ heap s' !! l = Some (recorded given size p)
    /\ recorded given size p !! "size" = Some (VInt size)
    /\ recorded given size p !! "type"
       = Some (default (VStr (slice_from 1 (splitext p).2)) (given !! "type"))
    /\ (forall k, k <> "size" -> k <> "type" ->
          recorded given size p !! k = given !! k)
    /\ (forall l0 d', md = MDict l0 ->
          l <> l0 /\ heap (mutate l0 d' s') !! l = Some (recorded given size p)).
Proof.
  rewrite addFile_eq. cbn zeta.
  destruct (load_frame s) as (Hheap & Hfiles & _).
  destruct (loadPublishData s) as [res s0]. simpl in *.
  destruct res as [[]|e]; [|done].
  destruct (dataPath_ s0) as [d|]; [|done].
  destruct (startswith p _); [|done].
  rewrite <- Hheap.
  assert (Hfresh : forall l0 g, heap s0 !! l0 = Some g -> fresh (dom (heap s0)) <> l0).
  { intros l0 g Hl0 <-. apply (is_fresh (dom (heap s0))). apply elem_of_dom. eauto. }
  destruct md as [|l0|x]; simpl; [| |done].
  - destruct (st_size env p) as [size|]; [|done]. intros [= <-].
    exists (fresh (dom (heap s0))), ∅, size.
    destruct s0; simpl.
    rewrite odict_get_set_eq, lookup_insert_eq, recorded_size, recorded_type.
    split_and!; try done. by apply recorded_other.
  - destruct (heap s0 !! l0) as [given|] eqn:El0; [|done].
    destruct (st_size env p) as [size|]; [|done]. intros [= <-].
    exists (fresh (dom (heap s0))), given, size.
    pose proof (Hfresh l0 given El0) as Hne.
    destruct s0; simpl in *.
    rewrite odict_get_set_eq, lookup_insert_eq, recorded_size, recorded_type.
    split_and!; try done; [by apply recorded_other|].
    intros ? d' [= <-]. split; [done|].
    rewrite lookup_insert_ne by done. apply lookup_insert_eq.
Qed.

Lemma fileMetadata_new_object p s l0 m :
  odict_get p (files_ s) = Some l0 ->
  heap s !! l0 = Some m ->
  exists r s1,
    fileMetadata p s = (Ok r, s1)
    /\ r <> l0
    /\ heap s1 !! r = Some m
    /\ files_ s1 = files_ s
    /\ forall d',
         heap (mutate r d' s1) !! l0 = Some m
         /\ exists r' s3,
              fileMetadata p (mutate r d' s1) = (Ok r', s3)
              /\ heap s3 !! r' = Some m.
Proof.
  intros Hp Hl0. rewrite fileMetadata_eq, Hp, Hl0.
  assert (Hne : fresh (dom (heap s)) <> l0).
  { intros <-. apply (is_fresh (dom (heap s))). apply elem_of_dom. eauto. }
  eexists _, _. split; [done|]. destruct s; simpl in *.
  rewrite lookup_insert_eq. split_and!; try done.
  intros d'. rewrite fileMetadata_eq. simpl.
  rewrite Hp, insert_insert_eq, lookup_insert_ne, Hl0 by done.
  split; [done|]. eexists _, _. split; [done|]. simpl.
  apply lookup_insert_eq.
Qed.

(** C10.  [fileMetadata] on a path that was added returns a new dict
    object with the recorded items.  Whatever the caller then does to
    that object, the recorded one keeps its items, and the next
    [fileMetadata] for the path returns them again. *)
Theorem fileMetadata_copy p s :
  reachable s ->
  p ∈ keys (files_ s) ->
  exists l0 m r s1,
    odict_get p (files_ s) = Some l0
    /\ heap s !! l0 = Some m
    /\ fileMetadata p s = (Ok r, s1)
    /\ r <> l0
    /\ heap s1 !! r = Some m
    /\ files_ s1 = files_ s
    /\ forall d',
         heap (mutate r d' s1) !! l0 = Some m
         /\ exists r' s3,
              fileMetadata p (mutate r d' s1) = (Ok r', s3)
              /\ heap s3 !! r' = Some m.
Proof.
  intros Hinv%reachable_inv Hp.
  destruct (odict_get_is_Some p (files_ s) Hp) as [l0 Hl0].
  destruct (inv_files s Hinv p l0) as (_ & m & _ & _ & _ & Hm & _).
  { by apply odict_get_Some_elem. }
  destruct (fileMetadata_new_object p s l0 m Hl0 Hm) as (r & s1 & H).
  by exists l0, m, r, s1.
Qed.

(** *** Publishing *)

Lemma addSize_eq acc p l s m n :
  heap s !! l = Some m -> m !! "size" = Some (VInt n) ->
  addSize acc (p, l) s = (Ok (acc + sizeOf (heap s) l)%Z, s).
Proof.
  intros Hm Hn. unfold addSize, mbind, deref, sizeOf. simpl.
  by rewrite Hm, Hn.
Qed.

Lemma forM_addSize entries s acc :
  (forall p l, (p, l) ∈ entries ->
     exists m n, heap s !! l = Some m /\ m !! "size" = Some (VInt n)) ->
  forM addSize acc entries s
  = (Ok (acc + foldr (fun entry a => sizeOf (heap s) entry.2 + a) 0 entries)%Z, s).
Proof.
  revert acc. induction entries as [|[p l] entries IH]; intros acc H; simpl.
  - unfold ret. do 2 f_equal. lia.
  - destruct (H p l) as (m & n & Hm & Hn); [left|].
    unfold mbind. rewrite (addSize_eq _ _ _ _ m n) by done. rewrite IH.
    + do 2 f_equal. lia.
    + intros p' l' Hin. apply (H p'). by right.
Qed.

Lemma addFileData_eq vp acc p l s m :
  loadedPublishedData s = true ->
  versionPath_ s = Some vp ->
  heap s !! l = Some m ->
  addFileData acc (p, l) s = (Ok (dataStep vp (heap s) acc (p, l)), s).
Proof.
  intros Hloaded Hvp Hm. unfold addFileData, versionPath. unfold mbind at 1.
  rewrite getter_eq, load_loaded by done. simpl. rewrite Hvp.
  unfold mbind, deref, ret, dataStep. simpl. by rewrite Hm.
Qed.

Lemma forM_addFileData vp entries s acc :
  loadedPublishedData s = true ->
  versionPath_ s = Some vp ->
  (forall p l, (p, l) ∈ entries -> is_Some (heap s !! l)) ->
  forM addFileData acc entries s
  = (Ok (foldl (dataStep vp (heap s)) acc entries), s).
Proof.
  intros Hloaded Hvp. revert acc.
  induction entries as [|[p l] entries IH]; intros acc H; simpl; [done|].
  destruct (H p l) as (m & Hm); [left|].
  unfold mbind. rewrite (addFileData_eq vp _ _ _ _ m) by done.
  rewrite IH; [done|].
  intros p' l' Hin. apply (H p'). by right.
Qed.

(** What a successful [_perform] has done. *)
Lemma perform_Ok env s s' :
  inv s -> perform env s = (Ok tt, s') ->
  exists s0 vp v c,
    loadPublishData s = (Ok tt, s0)
    /\ versionPath_ s0 = Some vp /\ version_ s0 = Some v
    /\ configPath_ s0 = Some c
    /\ s' = add_written (CopyTree c (join vp "ingestorConfig"))
            (add_written (DataJson (join vp "data.json") (filesDataOf vp s0))
               (add_written (InfoJson (join vp "info.json") (infoOf env s0 v))
                  (set_info (infoOf env s0 v)
                     (add_written (EnvJson (join vp "env.json") (environ env)) s0)))).
Proof.
  intros Hinv. unfold perform.
  intros ([] & s1 & Henv & Hrest)%mbind_Ok.
  unfold writeEnv in Henv.
  apply mbind_Ok in Henv as (vp & s0 & Hvp & Hw).
  apply getter_Ok in Hvp as (-> & Hvp & Hload).
  pose proof (load_inv s Hinv) as Hinv0.
  destruct (loadPublishData s) as [res s0]. simpl in *. simplify_eq.
  exists s0, vp.
  pose proof (inv_loaded s0 Hinv0 vp Hvp) as Hloaded.
  destruct Hinv0 as [Hnd Hfiles _ _ _].
  destruct s0 as [h pc fp f i a v st l vpo dp cp ver w]. simpl in *. subst.
  unfold modify in Hw. simpl in Hw. injection Hw as <-.
  apply mbind_Ok in Hrest as ([] & s2 & Hinfo & Hrest).
  unfold writeInfo in Hinfo. unfold mbind at 1, get in Hinfo. simpl in Hinfo.
  unfold mbind at 1 in Hinfo. rewrite forM_addSize in Hinfo; simpl.
  2:{ intros p l Hin. destruct (Hfiles p l Hin) as (? & m & n & _ & _ & ? & ?).
      by exists m, n. }
  unfold version, assetName, variant, versionPath, addInfo,
    mbind, get, modify, getattr, ret in Hinfo. simpl in Hinfo.
  repeat (rewrite load_loaded in Hinfo by done; simpl in Hinfo).
  destruct ver as [v0|]; [|done]. exists v0.
  repeat (rewrite load_loaded in Hinfo by done; simpl in Hinfo).
  assert (Hs2 : s2 = add_written (InfoJson (join vp "info.json")
                       (infoOf env (mkState h pc fp f i a v st true (Some vp) dp cp (Some v0)
                                      (w ++ [EnvJson (join vp "env.json") (environ env)])) v0))
                  (set_info (infoOf env (mkState h pc fp f i a v st true (Some vp) dp cp (Some v0)
                                      (w ++ [EnvJson (join vp "env.json") (environ env)])) v0)
                     (mkState h pc fp f i a v st true (Some vp) dp cp (Some v0)
                        (w ++ [EnvJson (join vp "env.json") (environ env)])))).
  { unfold infoOf, sumOfSizes. simpl.
    destruct (truthy a); simpl in Hinfo;
      repeat (rewrite load_loaded in Hinfo by done; simpl in Hinfo);
      by injection Hinfo as <-. }
  clear Hinfo. subst s2.
  apply mbind_Ok in Hrest as ([] & s3 & Hdata & Hcopy).
  unfold writeData in Hdata. unfold mbind at 1 in Hdata.
  unfold versionPath in Hdata. rewrite getter_eq, load_loaded in Hdata by done.
  simpl in Hdata. unfold mbind, get in Hdata. simpl in Hdata.
  rewrite (forM_addFileData vp) in Hdata; try done.
  2:{ intros p l Hin. destruct (Hfiles p l Hin) as (? & m & n & _ & _ & ? & ?).
      simpl. eauto. }
  unfold modify in Hdata. simpl in Hdata. injection Hdata as <-.
  unfold copyIngestorConfig, configPath, versionPath in Hcopy.
  unfold mbind at 1 in Hcopy. rewrite getter_eq, load_loaded in Hcopy by done.
  simpl in Hcopy. destruct cp as [c|]; [|done]. exists c.
  unfold mbind at 1 in Hcopy. rewrite getter_eq, load_loaded in Hcopy by done.
  simpl in Hcopy. unfold modify in Hcopy. simpl in Hcopy.
  injection Hcopy as <-.
  split_and!; try done.
Qed.

Lemma slice_after_sep vp rel :
  slice_from (String.length vp + 1) (vp +:+ String sep rel) = rel.
Proof.
  replace (String.length vp + 1) with (String.length (vp +:+ String sep EmptyString)).
  - rewrite <- (slice_from_app (vp +:+ String sep EmptyString) rel) at 2.
    by rewrite app_assoc_str.
  - rewrite length_app_str. simpl. lia.
Qed.

Section manifest.
Context (vp : string) (h : gmap nat Dict).

Lemma foldl_dataStep_notin entries acc r :
  r ∉ slice_from (String.length vp + 1) <$> keys entries ->
  foldl (dataStep vp h) acc entries !! r = acc !! r.
Proof.
  revert acc. induction entries as [|[p l] entries IH]; intros acc Hr; [done|].
  simpl. rewrite IH.
  - unfold dataStep. simpl. rewrite lookup_insert_ne; [done|].
    intros <-. apply Hr. unfold keys. rewrite !fmap_cons. left.
  - intros Hin. apply Hr. unfold keys. rewrite !fmap_cons. by right.
Qed.

Lemma foldl_dataStep_lookup entries acc p0 l0 :
  NoDup (slice_from (String.length vp + 1) <$> keys entries) ->
  (p0, l0) ∈ entries ->
  foldl (dataStep vp h) acc entries !! slice_from (String.length vp + 1) p0 = Some (default ∅ (h !! l0)).
Proof.
  revert acc. induction entries as [|[p l] entries IH]; intros acc Hnd Hin.
  - by apply elem_of_nil in Hin.
  - unfold keys in Hnd. rewrite !fmap_cons in Hnd.
    apply NoDup_cons in Hnd as [Hp Hnd]. simpl.
    apply elem_of_cons in Hin as [[= -> ->]|Hin].
    + rewrite foldl_dataStep_notin by done.
      unfold dataStep. simpl. apply lookup_insert_eq.
    + by apply IH.
Qed.

Lemma foldl_dataStep_dom entries acc r :
  is_Some (foldl (dataStep vp h) acc entries !! r) ->
  is_Some (acc !! r) \/ exists p l, (p, l) ∈ entries /\ r = slice_from (String.length vp + 1) p.
Proof.
  revert acc. induction entries as [|[p l] entries IH]; intros acc; [by left|].
  simpl. intros [H|(p' & l' & Hin & ->)]%IH.
  - unfold dataStep in H. simpl in H.
    destruct (decide (slice_from (String.length vp + 1) p = r)) as [<-|Hne].
    + right. exists p, l. split; [left|done].
    + rewrite lookup_insert_ne in H by done. by left.
  - right. exists p', l'. split; [by right|done].
Qed.

End manifest.

(** C4.  What a publish writes.  In [info.json], [size] is the sum of
    the sizes recorded for the files added, and [version] is the integer
    read from the name of the version folder after its first character.
    In [data.json] each file added appears under its path relative to
    the version folder, which begins with data/, with the metadata
    recorded for it; nothing else appears there. *)
Theorem perform_writes env s s' :
  reachable s -> perform env s = (Ok tt, s') ->
  exists vp v c info filesData,
    versionPath_ s' = Some vp
    /\ written s' = written s ++
         [EnvJson (join vp "env.json") (environ env);
          InfoJson (join vp "info.json") info;
          DataJson (join vp "data.json") filesData;
          CopyTree c (join vp "ingestorConfig")]
    /\ files_ s' = files_ s /\ heap s' = heap s
    /\ info !! "size" = Some (VInt (sumOfSizes s))
    /\ info !! "version" = Some (VInt v)
    /\ (exists prefix rest, basename vp = String prefix rest /\ int rest = Ok v)
    /\ (forall p l, (p, l) ∈ files_ s ->
          exists rel, p = vp +:+ String sep rel
            /\ startswith rel "data/" = true
            /\ filesData !! rel = heap s !! l)
    /\ (forall rel, is_Some (filesData !! rel) ->
          exists p l, (p, l) ∈ files_ s /\ p = vp +:+ String sep rel).
Proof.
  intros Hinv%reachable_inv Hperform.
  destruct (perform_Ok env s s' Hinv Hperform)
    as (s0 & vp & v & c & Hload & Hvp & Hver & Hc & ->).
  pose proof (load_inv s Hinv) as Hinv0.
  destruct (load_frame s) as (Hheap & Hfiles & _ & Hw & _).
  rewrite Hload in Hinv0, Hheap, Hfiles, Hw. simpl in *.
  assert (Hsum : sumOfSizes s0 = sumOfSizes s).
  { unfold sumOfSizes. by rewrite Hheap, Hfiles. }
  destruct (inv_version s0 Hinv0 v Hver) as (vp' & Hvp' & Hint).
  rewrite Hvp in Hvp'. injection Hvp' as <-.
  assert (Hbase : exists prefix rest, basename vp = String prefix rest /\ int rest = Ok v).
  { destruct (basename vp) as [|prefix rest]; [done|]. by exists prefix, rest. }
  assert (Hjoin : join vp "data" = vp +:+ String sep "data").
  { destruct Hbase as (prefix & rest & Hb & _).
    destruct (basename_nonempty vp) as [? ?]; [by rewrite Hb|].
    by apply join_no_sep. }
  assert (Hrel : forall p l, (p, l) ∈ files_ s0 ->
            exists rest m, p = vp +:+ String sep ("data/" +:+ rest)
                           /\ heap s0 !! l = Some m).
  { intros p l Hin.
    destruct (inv_files s0 Hinv0 p l Hin) as (d & m & n & Hd & Hpre & Hm & _).
    destruct (inv_data s0 Hinv0 d Hd) as (vp' & Hvp' & ->).
    rewrite Hvp in Hvp'. injection Hvp' as <-. rewrite Hjoin in Hpre.
    apply startswith_inv in Hpre as [rest ->]. exists rest, m. split; [|done].
    by rewrite !app_assoc_str. }
  assert (Hnd : NoDup (slice_from (String.length vp + 1) <$> keys (files_ s0))).
  { apply NoDup_fmap_2_strong; [|apply (inv_nodup s0 Hinv0)].
    intros p p' Hp Hp' Heq.
    unfold keys in Hp, Hp'. apply list_elem_of_fmap in Hp as ([q l] & Eq & Hp).
    apply list_elem_of_fmap in Hp' as ([q' l'] & Eq' & Hp'). simpl in *.
    subst p p'.
    destruct (Hrel _ _ Hp) as (rest & ? & E & _).
    destruct (Hrel _ _ Hp') as (rest' & ? & E' & _).
    rewrite E, E', !slice_after_sep in Heq. by rewrite E, E', Heq. }
  exists vp, v, c, (infoOf env s0 v), (filesDataOf vp s0).
  destruct s0 as [h pc fp f i a v0 st l vpo dp cp ver w]. simpl in *. subst.
  split_and!; try done.
  - by rewrite <- !app_assoc.
  - rewrite <- Hsum. unfold infoOf. simpl.
    destruct (truthy a); rewrite !lookup_insert_ne by done; apply lookup_insert_eq.
  - unfold infoOf. simpl.
    destruct (truthy a); rewrite !lookup_insert_ne by done; apply lookup_insert_eq.
  - intros p k Hin. destruct (Hrel p k Hin) as (rest & m & -> & Hm).
    exists ("data/" +:+ rest). split_and!; [done|apply startswith_app|].
    unfold filesDataOf. simpl.
    rewrite <- (slice_after_sep vp ("data/" +:+ rest)) at 1.
    rewrite (foldl_dataStep_lookup vp _ _ ∅ _ k) by done. by rewrite Hm.
  - intros rel [H|(p & k & Hin & ->)]%foldl_dataStep_dom.
    + rewrite lookup_empty in H. by destruct H.
    + exists p, k. split; [done|].
      destruct (Hrel p k Hin) as (rest & m & -> & Hm).
      by rewrite slice_after_sep.
Qed.

End VersionFacts.

(* ===================================================================== *)
(** * The publish task at work on version v007 *)
(* ===================================================================== *)

Module VersionExamples_facts.
Import Py Crawler CreateVersion VersionExamples VersionFacts PyFacts.

(** After the first accessor of a task bound to a node, the publish data
    is read no more. *)
Lemma load_once s :
  pathCrawlers s <> [] ->
  loadedPublishedData (loadPublishData s).2 = true
  /\ loadPublishData (loadPublishData s).2 = (Ok tt, (loadPublishData s).2).
Proof.
  intros Hpc.
  assert (H : loadedPublishedData (loadPublishData s).2 = true).
  { destruct s as [h pc fp f i a v st l vp dp cp ver w]. simpl in *.
    destruct l; [by rewrite load_loaded|]. destruct pc as [|c pc]; [done|].
    VersionFacts.run_load. }
  split; [done|]. by apply load_loaded.
Qed.

(** Only the first bound node is read: the nodes after it change
    nothing of what is loaded. *)
Lemma load_first_only h c rest rest' target time :
  let s := (loadPublishData (CreateVersion__init__ h (c :: rest) target time)) in
  let s' := (loadPublishData (CreateVersion__init__ h (c :: rest') target time)) in
  s.1 = s'.1
  /\ assetName_ s.2 = assetName_ s'.2 /\ variant_ s.2 = variant_ s'.2
  /\ versionPath_ s.2 = versionPath_ s'.2 /\ dataPath_ s.2 = dataPath_ s'.2
  /\ configPath_ s.2 = configPath_ s'.2 /\ version_ s.2 = version_ s'.2.
Proof. cbn zeta. VersionFacts.run_load. Qed.

(** [variant()] is [assetName()], word for word. *)
Lemma variant_is_assetName s : variant s = assetName s.
Proof. reflexivity. Qed.

(** C9.  The task is bound to a node of asset hero, variant red (and to a
    second node of another asset, which is not consulted).  [assetName()]
    returns hero; [variant()] returns hero as well, although the variant
    red was read from the node and stored. *)
Theorem variant_returns_assetName :
  var "assetName" node = Ok (VStr "hero")
  /\ var "variant" node = Ok (VStr "red")
  /\ (assetName task).1 = Ok (VStr "hero")
  /\ (variant task).1 = Ok (VStr "hero")
  /\ variant_ (variant task).2 = VStr "red".
Proof. by vm_compute. Qed.

Lemma addFile_rejects_iff_witness :
  dataPath task = (Ok dataDir, (dataPath task).2)
  /\ (addFile disk dataDir MNone task).1
     = Raise (FileNotUnderDataDirectoryError dataDir dataDir).
Proof.
  assert (H : dataPath task = (Ok dataDir, (dataPath task).2))
    by (vm_compute; reflexivity).
  split; [exact H|].
  destruct (addFile_rejects_iff disk img MNone task dataDir (dataPath task).2 H)
    as (_ & _ & H3).
  exact H3.
Defined.

(** The data directory written with a closing separator is not strictly
    under itself, and [addFile] takes it: no error, and an entry. *)
Lemma addFile_accepts_data_directory :
  (dataPath task).1 = Ok dataDir
  /\ ~ strictlyUnder dataDir "/job/v007/data/"
  /\ (addFile disk "/job/v007/data/" MNone task).1 = Ok tt
  /\ keys (files_ (addFile disk "/job/v007/data/" MNone task).2)
     = ["/job/v007/data/"].
Proof.
  split_and!; try (vm_compute; reflexivity).
  intros (rest & Hne & H).
  change "/job/v007/data/" with (dataDir +:+ String sep EmptyString) in H.
  apply app_inj_str in H. injection H as <-. done.
Qed.

Lemma addFile_records_witness :
  exists l given size,
    givenItems (MDict 0) (heap task) = Some given
    /\ st_size disk img = Some size
    /\ odict_get img (files_ (addFile disk img (MDict 0) task).2) = Some l
    /\ heap (addFile disk img (MDict 0) task).2 !! l = Some (recorded given size img)
    /\ recorded given size img !! "size" = Some (VInt size)
    /\ recorded given size img !! "type"
       = Some (default (VStr (slice_from 1 (splitext img).2)) (given !! "type"))
    /\ (forall k, k <> "size" -> k <> "type" ->
          recorded given size img !! k = given !! k)
    /\ (forall l0 d', MDict 0 = MDict l0 ->
          l <> l0
          /\ heap (mutate l0 d' (addFile disk img (MDict 0) task).2) !! l
             = Some (recorded given size img)).
Proof.
  apply (addFile_records disk img (MDict 0) task).
  vm_compute. reflexivity.
Defined.

(** The caller says 5 bytes, the disk says 1024: 1024 is recorded. *)
Lemma addFile_overwrites_size :
  (heap task !! 0) ≫= (fun m => m !! "size") = Some (VInt 5)
  /\ (addFile disk img (MDict 0) task).1 = Ok tt
  /\ (let s := (addFile disk img (MDict 0) task).2 in
      l ← odict_get img (files_ s); m ← heap s !! l; m !! "size")
     = Some (VInt 1024).
Proof. split_and!; vm_compute; reflexivity. Qed.

Lemma fileMetadata_copy_witness :
  let s := (addFile disk img (MDict 0) task).2 in
  exists l0 m r s1,
    odict_get img (files_ s) = Some l0
    /\ heap s !! l0 = Some m
    /\ fileMetadata img s = (Ok r, s1)
    /\ r <> l0
    /\ heap s1 !! r = Some m
    /\ files_ s1 = files_ s
    /\ forall d',
         heap (mutate r d' s1) !! l0 = Some m
         /\ exists r' s3,
              fileMetadata img (mutate r d' s1) = (Ok r', s3)
              /\ heap s3 !! r' = Some m.
Proof.
  cbn zeta.
  apply (fileMetadata_copy img (addFile disk img (MDict 0) task).2).
  - apply (reach_step task); [apply reach_init | apply step_addFile].
  - vm_compute. left.
Defined.

Lemma perform_writes_witness :
  let s := (addFile disk img MNone task).2 in
  exists vp v c info filesData,
    versionPath_ (perform disk s).2 = Some vp
    /\ written (perform disk s).2 = written s ++
         [EnvJson (join vp "env.json") (environ disk);
          InfoJson (join vp "info.json") info;
          DataJson (join vp "data.json") filesData;
          CopyTree c (join vp "ingestorConfig")]
    /\ files_ (perform disk s).2 = files_ s /\ heap (perform disk s).2 = heap s
    /\ info !! "size" = Some (VInt (sumOfSizes s))
    /\ info !! "version" = Some (VInt v)
    /\ (exists prefix rest, basename vp = String prefix rest /\ int rest = Ok v)
    /\ (forall p l, (p, l) ∈ files_ s ->
          exists rel, p = vp +:+ String sep rel
            /\ startswith rel "data/" = true
            /\ filesData !! rel = heap s !! l)
    /\ (forall rel, is_Some (filesData !! rel) ->
          exists p l, (p, l) ∈ files_ s /\ p = vp +:+ String sep rel).
Proof.
  cbn zeta.
  apply (perform_writes disk (addFile disk img MNone task).2).
  - apply (reach_step task); [apply reach_init | apply step_addFile].
  - vm_compute. reflexivity.
Defined.

(** The scenario of the specification: version folder v007, one file
    data/img.dpx of 1024 bytes. *)
Example publish_v007 :
  let s := (addFile disk img MNone task).2 in
  exists env info filesData copy,
    written (perform disk s).2
    = [env; InfoJson "/job/v007/info.json" info;
       DataJson "/job/v007/data.json" filesData; copy]
    /\ info !! "version" = Some (VInt 7)
    /\ info !! "size" = Some (VInt 1024)
    /\ (filesData !! "data/img.dpx") ≫= (fun m => m !! "size") = Some (VInt 1024)
    /\ dom filesData = {["data/img.dpx"]}.
Proof.
  cbn zeta. eexists _, _, _, _. split; [vm_compute; reflexivity|].
  split_and!; vm_compute; reflexivity.
Qed.

End VersionExamples_facts.

(* ===================================================================== *)
(** * More about the registry, [create] and [createFromPath] *)
(* ===================================================================== *)

Module RegistryFacts.
Import Py Crawler Path PyFacts.

Lemma odict_get_set_ne {V} (k k' : string) (v : V) (d : odict V) :
  k <> k' -> odict_get k' (odict_set k v d) = odict_get k' d.
Proof.
  intros Hne. induction d as [|[k0 v0] d IH]; simpl.
  - by rewrite decide_False.
  - destruct (decide (k0 = k)) as [->|Hk]; simpl.
    + by rewrite !decide_False.
    + by rewrite IH.
Qed.

Lemma odict_set_twice {V} (k : string) (v v' : V) (d : odict V) :
  odict_set k v' (odict_set k v d) = odict_set k v' d.
Proof.
  induction d as [|[k0 v0] d IH]; simpl.
  - by rewrite decide_True.
  - destruct (decide (k0 = k)) as [->|Hk]; simpl.
    + by rewrite decide_True.
    + rewrite decide_False by done. by rewrite IH.
Qed.

Lemma keys_odict_set {V} (k : string) (v : V) (d : odict V) :
  keys (odict_set k v d) = if decide (k ∈ keys d) then keys d else keys d ++ [k].
Proof.
  destruct (decide (k ∈ keys d)).
  - by apply keys_odict_set_in.
  - by rewrite odict_set_notin, keys_app.
Qed.

Lemma odict_get_app_in {V} (k : string) (d1 d2 : odict V) :
  k ∈ keys d1 -> odict_get k (d1 ++ d2) = odict_get k d1.
Proof.
  induction d1 as [|[k' v'] d1 IH]; simpl.
  - intros H. by apply elem_of_nil in H.
  - intros H. destruct (decide (k' = k)); [done|].
    apply elem_of_cons in H as [H|H]; [congruence | auto].
Qed.

(** X1.  [register] either fails its assertion, for a class that does
    not derive from [Path], or stores the class under the name: the name
    then resolves to that class, every other name resolves as before, a
    new name goes last and a known name keeps its place, and registering
    the same pair again changes nothing. *)
Theorem register_outcome (name : string) (cls : PathClass) (r : Registry) :
  match register name cls r with
  | Ok r' =>
      issubclass cls PathBase = true
      /\ registeredType r' (VStr name) = Ok cls
      /\ (forall other, other <> name -> odict_get other r' = odict_get other r)
      /\ registeredNames r' =
           (if decide (name ∈ registeredNames r) then registeredNames r
            else registeredNames r ++ [name])
      /\ register name cls r' = Ok r'
  | Raise e =>
      issubclass cls PathBase = false
      /\ e = AssertionError "Invalid crawler class!"
  end.
Proof.
  unfold register. destruct (issubclass cls PathBase) eqn:Hsub; [|done].
  split_and!; [done| | | |].
  - simpl. by rewrite odict_get_set_eq.
  - intros other Hne. by apply odict_get_set_ne.
  - apply keys_odict_set.
  - by rewrite odict_set_twice.
Qed.

Lemma createLoop_app r extra names ph parent :
  names ⊆ keys r ->
  createLoop (r ++ extra) names ph parent = createLoop r names ph parent.
Proof.
  induction names as [|name names IH]; intros Hsub; [done|]. simpl.
  rewrite odict_get_app_in by set_solver.
  rewrite IH by set_solver. done.
Qed.

Lemma create_snoc r name cls ph parent :
  name ∉ keys r ->
  create (r ++ [(name, cls)]) ph parent =
  match test cls ph parent with
  | Raise err => Raise (TestCrawlerError name (path ph) err)
  | Ok true => createdBy name cls ph parent
  | Ok false => create r ph parent
  end.
Proof.
  intros Hname. unfold create, createdBy.
  rewrite keys_app, reverse_app. simpl.
  rewrite odict_get_app_notin by done. simpl.
  rewrite decide_True by done.
  destruct (test cls ph parent) as [[]|err]; [|  |done].
  - by destruct (construct cls ph parent).
  - rewrite createLoop_app; [done|].
    intros x Hx. by rewrite elem_of_reverse in Hx.
Qed.

(** X2.  The type registered last is asked first.  After a new name is
    registered, [create] asks the [test] of its class before any other:
    if that raises, [TestCrawlerError] names the new type; if it accepts,
    the new class makes the node; only if it declines does [create]
    answer as it did before the registration. *)
Theorem create_after_register r r' name cls ph parent :
  name ∉ registeredNames r ->
  register name cls r = Ok r' ->
  create r' ph parent =
  match test cls ph parent with
  | Raise err => Raise (TestCrawlerError name (path ph) err)
  | Ok true => createdBy name cls ph parent
  | Ok false => create r ph parent
  end.
Proof.
  intros Hname. unfold register.
  destruct (issubclass cls PathBase); [|done]. intros [= <-].
  rewrite odict_set_notin by done. by apply create_snoc.
Qed.

Lemma applyOps_pathHolder (ops : list SetOp) c :
  pathHolder (foldl applyOp c ops) = pathHolder c.
Proof.
  revert c. induction ops as [|op ops IH]; intros c; simpl; [done|].
  rewrite IH. by destruct op.
Qed.

Lemma construct_node cls ph parent c :
  construct cls ph parent = Ok c ->
  cparent c = parent /\ cchildren c = [] /\ cclass c = mro cls
  /\ pathHolder c = Some ph.
Proof.
  unfold construct. intros (ops & _ & [= <-])%bind_Ok.
  rewrite applyOps_pathHolder.
  assert (H : forall ops c,
            cparent (foldl applyOp c ops) = cparent c
            /\ cchildren (foldl applyOp c ops) = cchildren c
            /\ cclass (foldl applyOp c ops) = cclass c).
  { clear. induction ops as [|op ops IH]; intros c; simpl; [done|].
    destruct (IH (applyOp c op)) as (-> & -> & ->). by destruct op. }
  destruct (H ops (Path__init__ (mro cls) ph parent)) as (-> & -> & ->).
  unfold Path__init__. by case_bool_decide.
Qed.

(** X3.  What [create] returns.  For a registry with distinct names, a
    node returned by [create] was made by a registered class whose
    [test] accepted the path while every type registered after it
    declined; its [type] variable is the registered name, its class the
    registered class, it sits under the parent given, has no children
    and holds the path it was created for. *)
Theorem create_returns r ph parent n :
  NoDup (registeredNames r) ->
  create r ph parent = Ok n ->
  exists r1 name cls r2 n0,
    r = r1 ++ (name, cls) :: r2
    /\ test cls ph parent = Ok true
    /\ (forall later c, (later, c) ∈ r2 -> test c ph parent = Ok false)
    /\ construct cls ph parent = Ok n0
    /\ n = setVar "type" (VStr name) false n0
    /\ var "type" n = Ok (VStr name)
    /\ cclass n = mro cls /\ cparent n = parent /\ cchildren n = []
    /\ pathHolder n = Some ph.
Proof.
  unfold registeredNames.
  induction r as [|[k c] r IH] using rev_ind; intros Hnd Hn.
  - done.
  - rewrite keys_app in Hnd. apply NoDup_app in Hnd as (Hnd & Hk & _).
    assert (Hnew : k ∉ keys r).
    { intros Hin. apply (Hk k Hin). simpl. left. }
    rewrite create_snoc in Hn by done.
    destruct (test c ph parent) as [[]|err] eqn:Htest; [| |done].
    + unfold createdBy in Hn.
      destruct (construct c ph parent) as [n0|] eqn:Hn0; [|done].
      injection Hn as <-.
      destruct (construct_node _ _ _ _ Hn0) as (Hp & Hc & Hcl & Hph).
      exists r, k, c, [], n0. split_and!; simpl; try done.
      * intros later c' H. by apply elem_of_nil in H.
      * unfold var. simpl. by rewrite lookup_insert_eq.
    + destruct (IH Hnd Hn) as (r1 & name & cls & r2 & n0 & -> & H1 & H2 & H3 & H4).
      destruct H4 as (E1 & E2 & E3 & E4 & E5 & E6).
      exists r1, name, cls, (r2 ++ [(k, c)]), n0. split_and!; try done.
      * by rewrite <- app_assoc.
      * intros later c' [H|H]%elem_of_app; [by eapply H2|].
        apply list_elem_of_singleton in H. by injection H as -> ->.
Qed.

Lemma createLoop_Some r names ph parent n :
  createLoop r names ph parent = Ok (Some n) ->
  exists name cls n0,
    odict_get name r = Some cls
    /\ construct cls ph parent = Ok n0
    /\ n = setVar "type" (VStr name) false n0.
Proof.
  induction names as [|name names IH]; simpl; [done|].
  destruct (odict_get name r) as [cls|] eqn:Hcls; [|done].
  destruct (test cls ph parent) as [[]|err]; [|auto|done].
  destruct (construct cls ph parent) as [n0|] eqn:Hn0; [|done].
  intros [= <-]. by exists name, cls, n0.
Qed.


End RegistryFacts.

(* ===================================================================== *)
(** * More about [toJson], [createFromJson] and [clone] *)
(* ===================================================================== *)

Module CloneFacts.
Import Py Crawler Path PyFacts JsonFacts RegistryFacts.

(** [clone] call by call: the document of [toJson] always exists, so what
    is left is what [createFromJson] does with it. *)
Lemma clone_eq isdir r n :
  clone isdir r n =
  match cvars n !! "type" with
  | None => Raise (KeyError (VStr "type"))
  | Some ty =>
      match cvars n !! "filePath" with
      | None => Raise (KeyError (VStr "filePath"))
      | Some fp =>
          let! cls := registeredType r ty in
          let! ph := newPathHolder isdir fp in
          let! c := construct cls ph None in
          Ok (foldl setTagItem
                (foldl (setVarItem (fun k => bool_decide (k ∈ contextVarNames n))) c
                   (itemsOf (cvars n) (varNames n)))
                (itemsOf (ctags n) (tagNames n)))
      end
  end.
Proof.
  assert (Hin : forall k (m : gmap string Value),
            k ∈ elements (dom m) <-> is_Some (m !! k)).
  { intros k m. by rewrite elem_of_elements, elem_of_dom. }
  unfold clone. rewrite toJson_eq. simpl. unfold createFromJson.
  assert (Hvarsitem : forall tl,
            getitem (VDict (("vars", VDict (itemsOf (cvars n) (varNames n))) :: tl)) "vars"
            = Ok (VDict (itemsOf (cvars n) (varNames n)))) by done.
  rewrite Hvarsitem. simpl.
  rewrite !odict_get_itemsOf.
  destruct (cvars n !! "type") as [ty|] eqn:Hty.
  - rewrite decide_True by (unfold varNames; apply Hin; eauto). simpl.
    destruct (cvars n !! "filePath") as [fp|] eqn:Hfp.
    + rewrite decide_True by (unfold varNames; apply Hin; eauto). simpl.
      destruct (registeredType r ty) as [cls|]; [|done]. simpl.
      destruct (newPathHolder isdir fp) as [ph|]; [|done]. simpl.
      destruct (construct cls ph None) as [c|]; [|done]. simpl.
      by rewrite setVars_loop.
    + rewrite (decide_False (P := "filePath" ∈ varNames n)); [done|].
      unfold varNames. rewrite Hin, Hfp. by intros [? ?].
  - rewrite decide_False; [done|].
    unfold varNames. rewrite Hin, Hty. by intros [? ?].
Qed.

(** X5.  When [clone] works.  [clone] returns a node exactly when the
    node has a [type] variable naming a registered type and a string
    [filePath], and the constructor of that type accepts that path.  A
    node without [type] gives [KeyError('type')], an unregistered type
    gives [KeyError] of that type. *)
Theorem clone_succeeds_iff isdir r n :
  ((exists n', clone isdir r n = Ok n') <->
   (exists t p cls c,
      cvars n !! "type" = Some (VStr t)
      /\ cvars n !! "filePath" = Some (VStr p)
      /\ odict_get t r = Some cls
      /\ construct cls {| path := p; isDirectory := isdir p |} None = Ok c))
  /\ (cvars n !! "type" = None ->
      clone isdir r n = Raise (KeyError (VStr "type")))
  /\ (forall t, cvars n !! "type" = Some (VStr t) ->
        is_Some (cvars n !! "filePath") -> odict_get t r = None ->
        clone isdir r n = Raise (KeyError (VStr t))).
Proof.
  rewrite clone_eq. split_and!.
  - split.
    + intros [n' Hn'].
      destruct (cvars n !! "type") as [ty|]; [|done].
      destruct (cvars n !! "filePath") as [fp|]; [|done].
      apply bind_Ok in Hn' as (cls & Hcls & Hn').
      apply bind_Ok in Hn' as (ph & Hph & Hn').
      apply bind_Ok in Hn' as (c & Hc & _).
      destruct fp as [| | |p| |]; try done. injection Hph as <-.
      destruct ty as [| | |t| |]; try done. simpl in Hcls.
      destruct (odict_get t r) as [cls'|] eqn:Ht; [|done]. injection Hcls as ->.
      by exists t, p, cls, c.
    + intros (t & p & cls & c & -> & -> & Ht & Hc). simpl.
      rewrite Ht. simpl. rewrite Hc. simpl. eauto.
  - by intros ->.
  - intros t -> [fp ->] Ht. simpl. by rewrite Ht.
Qed.

Lemma setVars_pathHolder f (l : list (string * Value)) c :
  pathHolder (foldl (setVarItem f) c l) = pathHolder c
  /\ globCache (foldl (setVarItem f) c l) = globCache c.
Proof.
  revert c. induction l as [|kv l IH]; intros c; simpl; [done|].
  by destruct (IH (setVarItem f c kv)) as [-> ->].
Qed.

Lemma setTags_pathHolder (l : list (string * Value)) c :
  pathHolder (foldl setTagItem c l) = pathHolder c
  /\ globCache (foldl setTagItem c l) = globCache c
  /\ cctx (foldl setTagItem c l) = cctx c.
Proof.
  revert c. induction l as [|[k v] l IH]; intros c; simpl; [done|].
  by destruct (IH (setTag k v c)) as (-> & -> & ->).
Qed.

(** X6.  What a clone carries.  A node returned by [clone] has every
    variable and every tag of the original with the same value, and
    every context name of the original that is a variable; it has no
    parent and no children, whatever the original had, and it holds the
    path that the [filePath] variable names. *)
Theorem clone_carries isdir r n n' :
  clone isdir r n = Ok n' ->
  (forall k v, cvars n !! k = Some v -> var k n' = Ok v)
  /\ (forall k v, ctags n !! k = Some v -> tag k n' = Ok v)
  /\ (forall k, k ∈ cctx n -> k ∈ dom (cvars n) -> k ∈ cctx n')
  /\ cparent n' = None /\ cchildren n' = []
  /\ exists p, var "filePath" n = Ok (VStr p)
       /\ pathHolder n' = Some {| path := p; isDirectory := isdir p |}.
Proof.
  rewrite clone_eq. intros Hn'.
  assert (Hin : forall k (m : gmap string Value),
            k ∈ elements (dom m) <-> is_Some (m !! k)).
  { intros k m. by rewrite elem_of_elements, elem_of_dom. }
  destruct (cvars n !! "type") as [ty|]; [|done].
  destruct (cvars n !! "filePath") as [fp|] eqn:Hfp; [|done].
  apply bind_Ok in Hn' as (cls & Hcls & Hn').
  apply bind_Ok in Hn' as (ph & Hph & Hn').
  apply bind_Ok in Hn' as (c & Hc & [= <-]).
  set (n1 := foldl (setVarItem _) c _).
  destruct (setTags_others (itemsOf (ctags n) (tagNames n)) n1)
    as (Ev & Ex & Ep & Ek & _).
  destruct (setVars_others (fun k => bool_decide (k ∈ contextVarNames n))
              (itemsOf (cvars n) (varNames n)) c) as (_ & Ep1 & Ek1 & _).
  fold n1 in Ep1, Ek1.
  destruct (construct_node _ _ _ _ Hc) as (Hp & Hk & _ & Hholder).
  split_and!.
  - intros k v Hv. unfold var. rewrite Ev. unfold n1. rewrite setVars_vars.
    rewrite decide_True by (unfold varNames; apply Hin; eauto).
    by rewrite Hv.
  - intros k v Hv. unfold tag. rewrite setTags_tags.
    rewrite decide_True by (unfold tagNames; apply Hin; eauto).
    by rewrite Hv.
  - intros k Hk1 Hk2. rewrite Ex. unfold n1. apply setVars_ctx. right. split.
    + unfold varNames. by apply elem_of_elements.
    + apply bool_decide_eq_true. unfold contextVarNames. by apply elem_of_elements.
  - by rewrite Ep, Ep1.
  - by rewrite Ek, Ek1.
  - destruct fp as [| | |p| |]; try done. injection Hph as <-.
    exists p. split.
    + unfold var. by rewrite Hfp.
    + destruct (setTags_pathHolder (itemsOf (ctags n) (tagNames n)) n1) as (-> & _).
      unfold n1.
      destruct (setVars_pathHolder (fun k => bool_decide (k ∈ contextVarNames n))
                  (itemsOf (cvars n) (varNames n)) c) as (-> & _).
      done.
Qed.

Lemma NoDup_keys_itemsOf (m : gmap string Value) names :
  keys (itemsOf m names) = names.
Proof.
  unfold keys, itemsOf. rewrite <- list_fmap_compose.
  induction names as [|a names IH]; [done|]. csimpl. by f_equal.
Qed.

(** X7.  [toJson] is total and faithful.  It never raises; the document
    has the three members [vars], [contextVarNames] and [tags]; a name
    is a key of [vars] (of [tags]) exactly when it is a variable (a tag)
    of the node, with the value the node holds; the keys are distinct;
    and [contextVarNames] lists exactly the context names. *)
Theorem toJson_document (c : Crawler) :
  exists vars ctx tags,
    toJson c = Ok (VDict [("vars", VDict vars);
                          ("contextVarNames", VList ctx);
                          ("tags", VDict tags)])
    /\ (forall k, odict_get k vars = cvars c !! k)
    /\ (forall k, odict_get k tags = ctags c !! k)
    /\ (forall k, pyIn k (VList ctx) = Ok (bool_decide (k ∈ cctx c)))
    /\ NoDup (keys vars) /\ NoDup (keys tags) /\ NoDup ctx.
Proof.
  assert (Hin : forall k (m : gmap string Value),
            k ∈ elements (dom m) <-> is_Some (m !! k)).
  { intros k m. by rewrite elem_of_elements, elem_of_dom. }
  assert (Hget : forall (m : gmap string Value) k,
            odict_get k (itemsOf m (elements (dom m))) = m !! k).
  { intros m k. rewrite odict_get_itemsOf.
    destruct (decide (k ∈ elements (dom m))) as [H|H].
    - apply Hin in H as [v ->]. done.
    - rewrite Hin in H. by apply eq_None_not_Some in H. }
  eexists _, _, _. split; [apply toJson_eq|]. split_and!.
  - intros k. apply Hget.
  - intros k. apply Hget.
  - intros k. simpl. rewrite existsb_isStr. f_equal.
    apply bool_decide_ext. unfold contextVarNames. by rewrite elem_of_elements.
  - rewrite NoDup_keys_itemsOf. unfold varNames. apply NoDup_elements.
  - rewrite NoDup_keys_itemsOf. unfold tagNames. apply NoDup_elements.
  - apply NoDup_fmap_2; [by intros ? ? [=]|].
    unfold contextVarNames. apply NoDup_elements.
Qed.

Lemma crawler_eq (a b : Crawler) :
  cname a = cname b -> cclass a = cclass b -> cvars a = cvars b ->
  cctx a = cctx b -> ctags a = ctags b -> cparent a = cparent b ->
  cchildren a = cchildren b -> pathHolder a = pathHolder b ->
  globCache a = globCache b -> a = b.
Proof. destruct a, b. simpl. by intros -> -> -> -> -> -> -> -> ->. Qed.

Lemma applyOps_ctx (ops : list SetOp) c :
  cctx c ⊆ dom (cvars c) ->
  cctx (foldl applyOp c ops) ⊆ dom (cvars (foldl applyOp c ops)).
Proof.
  revert c. induction ops as [|op ops IH]; intros c Hc; simpl; [done|].
  apply IH. destruct op as [n v []|n v]; simpl; rewrite ?dom_insert; set_solver.
Qed.

Lemma applyOps_cache (ops : list SetOp) c :
  globCache (foldl applyOp c ops) = globCache c
  /\ cname (foldl applyOp c ops) = cname c.
Proof.
  revert c. induction ops as [|op ops IH]; intros c; simpl; [done|].
  destruct (IH (applyOp c op)) as [-> ->]. by destruct op.
Qed.

(** X10.  [create], then [clone].  A node that [create] has just made
    without a parent, for a path holder that tells the truth about the
    directory flag, and whose [filePath] variable is still that path
    (the constructor has not overwritten it), is cloned to a node equal
    to it in every field. *)
Theorem create_then_clone isdir r ph n :
  create r ph None = Ok n ->
  isDirectory ph = isdir (path ph) ->
  var "filePath" n = Ok (VStr (path ph)) ->
  clone isdir r n = Ok n.
Proof.
  intros Hn Hdir Hpath. unfold create in Hn.
  apply bind_Ok in Hn as ([n'|] & Hloop & Hres); [|done].
  injection Hres as ->.
  apply createLoop_Some in Hloop as (name & cls & n0 & Hcls & Hn0 & ->).
  assert (Hin : forall k (m : gmap string Value),
            k ∈ elements (dom m) <-> is_Some (m !! k)).
  { intros k m. by rewrite elem_of_elements, elem_of_dom. }
  assert (Hvars : cvars (setVar "type" (VStr name) false n0)
                  = <["type" := VStr name]> (cvars n0)) by done.
  assert (Hrest : cctx (setVar "type" (VStr name) false n0) = cctx n0
                  /\ ctags (setVar "type" (VStr name) false n0) = ctags n0
                  /\ cname (setVar "type" (VStr name) false n0) = cname n0
                  /\ cclass (setVar "type" (VStr name) false n0) = cclass n0
                  /\ cparent (setVar "type" (VStr name) false n0) = cparent n0
                  /\ cchildren (setVar "type" (VStr name) false n0) = cchildren n0
                  /\ pathHolder (setVar "type" (VStr name) false n0) = pathHolder n0
                  /\ globCache (setVar "type" (VStr name) false n0) = globCache n0)
    by done.
  destruct Hrest as (Hx & Ht & Hnm & Hcl & Hpa & Hch & Hho & Hgc).
  remember (setVar "type" (VStr name) false n0) as n eqn:Hndef.
  assert (Hfp : cvars n !! "filePath" = Some (VStr (path ph))).
  { unfold var in Hpath. by destruct (cvars n !! "filePath") as [v|]; simplify_eq. }
  assert (Hty : cvars n !! "type" = Some (VStr name))
    by (rewrite Hvars; apply lookup_insert_eq).
  rewrite clone_eq, Hty, Hfp. simpl. rewrite Hcls. simpl.
  assert (Hph : {| path := path ph; isDirectory := isdir (path ph) |} = ph).
  { destruct ph as [p d]. simpl in *. by subst. }
  rewrite Hph, Hn0. simpl. f_equal.
  set (n1 := foldl (setVarItem _) n0 _).
  destruct (setTags_others (itemsOf (ctags n) (tagNames n)) n1)
    as (Ev & Ex & Ep & Ek & Ec & En).
  destruct (setVars_others (fun k => bool_decide (k ∈ contextVarNames n))
              (itemsOf (cvars n) (varNames n)) n0) as (Et1 & Ep1 & Ek1 & Ec1 & En1).
  fold n1 in Et1, Ep1, Ek1, Ec1, En1.
  destruct (setTags_pathHolder (itemsOf (ctags n) (tagNames n)) n1) as (Eh & Eg & _).
  destruct (setVars_pathHolder (fun k => bool_decide (k ∈ contextVarNames n))
              (itemsOf (cvars n) (varNames n)) n0) as (Eh1 & Eg1).
  fold n1 in Eh1, Eg1.
  apply crawler_eq.
  - by rewrite En, En1.
  - by rewrite Ec, Ec1.
  - rewrite Ev. apply map_eq. intros k. unfold n1. rewrite setVars_vars.
    destruct (decide (k ∈ varNames n)) as [Hk|Hk].
    + apply Hin in Hk as [v Hv]. by rewrite Hv.
    + unfold varNames in Hk. rewrite Hin in Hk.
      apply eq_None_not_Some in Hk. rewrite Hk.
      rewrite Hvars in Hk.
      destruct (decide (k = "type")) as [->|Hne].
      * by rewrite lookup_insert_eq in Hk.
      * by rewrite lookup_insert_ne in Hk.
  - rewrite Ex. apply set_eq. intros k. unfold n1. rewrite setVars_ctx.
    rewrite bool_decide_eq_true. unfold contextVarNames, varNames.
    rewrite !elem_of_elements.
    assert (Hctx : cctx n0 ⊆ dom (cvars n0)).
    { unfold construct in Hn0. apply bind_Ok in Hn0 as (ops & _ & [= <-]).
      apply applyOps_ctx.
      assert (Hinit : cctx (Path__init__ (mro cls) ph None) = ∅)
        by (unfold Path__init__; by case_bool_decide).
      rewrite Hinit. apply empty_subseteq. }
    rewrite Hvars, Hx, dom_insert. set_solver.
  - apply map_eq. intros k. rewrite setTags_tags. rewrite Et1.
    destruct (decide (k ∈ tagNames n)) as [Hk|Hk].
    + apply Hin in Hk as [v Hv]. by rewrite Hv.
    + unfold tagNames in Hk. rewrite Hin in Hk.
      apply eq_None_not_Some in Hk. by rewrite Hk, <- Ht.
  - by rewrite Ep, Ep1.
  - by rewrite Ek, Ek1.
  - by rewrite Eh, Eh1.
  - by rewrite Eg, Eg1.
Qed.

End CloneFacts.

(* ===================================================================== *)
(** * More about [glob] and the registered subtypes *)
(* ===================================================================== *)

Module FilterFacts.
Import Py Crawler Path PyFacts GlobFacts.

Lemma baseClass_error r ft e :
  baseClass r ft = Raise e -> e = AssertionError EmptyString.
Proof.
  destruct ft as [name|cls]; simpl.
  - destruct (odict_get name r); [done|]. by intros [= <-].
  - destruct (issubclass cls PathBase); [done|]. by intros [= <-].
Qed.

Lemma filters_unresolved r filterTypes name :
  name ∉ registeredNames r -> ByName name ∈ filterTypes ->
  mapM (baseClass r) filterTypes = Raise (AssertionError EmptyString).
Proof.
  intros Hname. induction filterTypes as [|ft fts IH]; intros Hin.
  - by apply elem_of_nil in Hin.
  - simpl. destruct (baseClass r ft) as [base|e] eqn:Hft.
    + simpl. apply elem_of_cons in Hin as [<-|Hin].
      * simpl in Hft. destruct (odict_get name r) as [c|] eqn:Hc; [|done].
        apply odict_get_Some_elem in Hc. exfalso. apply Hname.
        unfold registeredNames, keys. apply list_elem_of_fmap. by exists (name, c).
      * by rewrite IH.
    + simpl. f_equal. by apply baseClass_error in Hft.
Qed.

Lemma glob_loop_raise r (cache : list Crawler) filterTypes (S0 : gset nat) e :
  mapM (baseClass r) filterTypes = Raise e ->
  foldM (fun (filteredCrawlers : gset nat) filterType =>
           let! subClasses := registeredSubclasses r filterType in
           Ok (filteredCrawlers ∪ list_to_set (instancesAt subClasses cache)))
        S0 filterTypes
  = Raise e.
Proof.
  revert S0. induction filterTypes as [|ft fts IH]; intros S0; simpl; [done|].
  unfold registeredSubclasses at 1.
  destruct (baseClass r ft) as [base|e'] eqn:Hft; simpl.
  - destruct (mapM (baseClass r) fts) as [bases|e''] eqn:Hfts; simpl; [done|].
    intros [= ->]. by apply IH.
  - by intros [= ->].
Qed.

(** X8.  A filter that names no registered type.  [glob] with such a
    name among its filters fails the assertion of [__baseClass]; the
    traversal has been made and stored by then, so the memo is the list
    a successful call would have left, and the next unfiltered call
    returns it. *)
Theorem glob_unregistered_filter enumerate r filterTypes useCache self name :
  name ∉ registeredNames r ->
  ByName name ∈ filterTypes ->
  (glob enumerate r filterTypes useCache self).1 = Raise (AssertionError EmptyString)
  /\ globCache (glob enumerate r filterTypes useCache self).2
     = Some (globList useCache self)
  /\ (glob enumerate r [] true (glob enumerate r filterTypes useCache self).2).1
     = Ok (globList useCache self).
Proof.
  intros Hname Hin.
  pose proof (filters_unresolved r filterTypes name Hname Hin) as Hraise.
  pose proof (glob_memo enumerate r filterTypes useCache self) as Hmemo.
  split_and!; [|done|].
  - destruct filterTypes as [|ft fts]; [by apply elem_of_nil in Hin|].
    unfold glob. cbn zeta. cbn [fst].
    by rewrite (glob_loop_raise r _ (ft :: fts) ∅ _ Hraise).
  - rewrite glob_unfiltered. f_equal. by apply globList_cached.
Qed.

Lemma subTypes_loop (base : PathClass) (r : Registry) (S0 : gset string) name :
  name ∈ foldl (fun (result : gset string) '(name, registeredType) =>
                  if issubclass registeredType base then result ∪ {[name]} else result)
               S0 r
  <-> name ∈ S0 \/ exists cls, (name, cls) ∈ r /\ issubclass cls base = true.
Proof.
  revert S0. induction r as [|[k c] r IH]; intros S0; simpl.
  - split; [by left|]. intros [H|(cls & H & _)]; [done|]. by apply elem_of_nil in H.
  - rewrite IH. destruct (issubclass c base) eqn:Hc.
    + rewrite elem_of_union, elem_of_singleton. split.
      * intros [[H| ->]|(cls & H & Hs)]; [by left| |].
        -- right. exists c. split; [left|done].
        -- right. exists cls. split; [by right|done].
      * intros [H|(cls & [H|H]%elem_of_cons & Hs)]; [by left; left| |].
        -- injection H as -> ->. left. by right.
        -- right. by exists cls.
    + split.
      * intros [H|(cls & H & Hs)]; [by left|].
        right. exists cls. split; [by right|done].
      * intros [H|(cls & [H|H]%elem_of_cons & Hs)]; [by left| |].
        -- injection H as -> ->. congruence.
        -- right. by exists cls.
Qed.

(** X9.  [registeredSubTypes].  For a filter that resolves to the class
    [base], the list holds a name exactly when the registry has it with
    a class derived from [base], each name once, in whatever order the
    set is enumerated; asked by name, the answer always contains that
    name.  A filter that does not resolve fails the assertion. *)
Theorem registeredSubTypes_names enumerate r ft :
  validNameEnumeration enumerate ->
  match registeredSubTypes enumerate r ft with
  | Ok names =>
      exists base,
        baseClass r ft = Ok base
        /\ NoDup names
        /\ (forall name, name ∈ names <->
              exists cls, (name, cls) ∈ r /\ issubclass cls base = true)
        /\ (forall t, ft = ByName t -> t ∈ names)
  | Raise e =>
      e = AssertionError EmptyString
      /\ match ft with
         | ByName t => t ∉ registeredNames r
         | ByClass cls => issubclass cls PathBase = false
         end
  end.
Proof.
  intros Henum. unfold registeredSubTypes.
  destruct (baseClass r ft) as [base|e] eqn:Hbase; simpl.
  - exists base. split; [done|].
    assert (Hmem : forall name,
              name ∈ enumerate
                (foldl (fun (result : gset string) '(name, registeredType) =>
                          if issubclass registeredType base
                          then result ∪ {[name]} else result) ∅ r)
              <-> exists cls, (name, cls) ∈ r /\ issubclass cls base = true).
    { intros name. rewrite (Henum _), elem_of_elements, subTypes_loop.
      split; [intros [H|H]; [done|exact H] | by right]. }
    split_and!.
    + rewrite (Henum _). apply NoDup_elements.
    + exact Hmem.
    + intros t ->. apply Hmem. simpl in Hbase.
      destruct (odict_get t r) as [c|] eqn:Hc; [|done]. injection Hbase as ->.
      exists base. split; [by apply odict_get_Some_elem|].
      apply issubclassMro_refl.
  - split; [by apply baseClass_error in Hbase|].
    destruct ft as [t|cls]; simpl in Hbase.
    + destruct (odict_get t r) as [c|] eqn:Hc; [done|].
      intros Ht. apply odict_get_is_Some in Ht as [c Hc']. congruence.
    + by destruct (issubclass cls PathBase).
Qed.

End FilterFacts.

(* ===================================================================== *)
(** * More about [CreateVersion]: files, errors and the publish data *)
(* ===================================================================== *)

Module TaskFacts.
Import Py Crawler CreateVersion PyFacts VersionFacts RegistryFacts.

Local Arguments loadPublishData : simpl never.
Local Arguments int : simpl never.
Local Arguments slice_from : simpl never.
Local Arguments basename : simpl never.
Local Arguments dirname : simpl never.
Local Arguments join : simpl never.
Local Arguments var : simpl never.
Local Arguments startswith : simpl never.
Local Arguments splitext : simpl never.

Lemma fresh_lookup_ne (h : gmap nat Dict) l (d : Dict) :
  is_Some (h !! l) -> <[fresh (dom h) := d]> h !! l = h !! l.
Proof.
  intros Hl. apply lookup_insert_ne. intros <-.
  apply (is_fresh (dom h)). by apply elem_of_dom.
Qed.

(** X11.  What [addFile] leaves alone.  Whether it returns or raises,
    [addFile] changes no dict object that existed before the call (the
    caller's metadata and the metadata recorded for other files stay as
    they were) and no other file's entry.  When it raises, the files are
    those of before; when it returns, a new path is last in [files()]
    and a known path keeps its place. *)
Theorem addFile_frame env p md s :
  let res := addFile env p md s in
  (forall l, is_Some (heap s !! l) -> heap res.2 !! l = heap s !! l)
  /\ (forall q, q <> p -> odict_get q (files_ res.2) = odict_get q (files_ s))
  /\ match res.1 with
     | Ok _ =>
         (files res.2).1 =
           Ok (if decide (p ∈ keys (files_ s)) then keys (files_ s)
               else keys (files_ s) ++ [p])
     | Raise _ => files_ res.2 = files_ s
     end.
Proof.
  cbn zeta. rewrite addFile_eq. cbn zeta.
  destruct (load_frame s) as (Hh & Hf & _).
  destruct (loadPublishData s) as [[[]|e] s0]; simpl in *; [|by rewrite Hh, Hf].
  destruct (dataPath_ s0) as [d|]; [|simpl; by rewrite Hh, Hf].
  destruct (startswith p _); [|simpl; by rewrite Hh, Hf].
  assert (Hcase : forall given,
    let out :=
      match st_size env p with
      | Some size =>
          (Ok tt, set_files (odict_set p (fresh (dom (heap s0))) (files_ s0))
                    (set_heap (<[fresh (dom (heap s0)) := recorded given size p]>
                                 (heap s0)) s0))
      | None => (Raise (OSError p),
                 set_heap (<[fresh (dom (heap s0)) := given]> (heap s0)) s0)
      end in
    (forall l, is_Some (heap s !! l) -> heap out.2 !! l = heap s !! l)
    /\ (forall q, q <> p -> odict_get q (files_ out.2) = odict_get q (files_ s))
    /\ match out.1 with
       | Ok _ =>
           (files out.2).1 =
             Ok (if decide (p ∈ keys (files_ s)) then keys (files_ s)
                 else keys (files_ s) ++ [p])
       | Raise _ => files_ out.2 = files_ s
       end).
  { intros given. cbn zeta. rewrite <- Hh, <- Hf.
    destruct s0 as [h pc fp f i a v st l vp dp cp ver w]. simpl in *.
    destruct (st_size env p) as [size|]; simpl; split_and!; try done.
    - intros l0 Hl0. by apply fresh_lookup_ne.
    - intros q Hq. by apply odict_get_set_ne.
    - unfold files, get. simpl. by rewrite keys_odict_set.
    - intros l0 Hl0. by apply fresh_lookup_ne. }
  destruct md as [|l0|x]; simpl.
  - apply Hcase.
  - destruct (heap s0 !! l0) as [given|]; [apply Hcase | simpl; by rewrite Hh, Hf].
  - simpl. by rewrite Hh, Hf.
Qed.

(** X12.  When [addFile] works, and which error comes first.  With the
    data directory resolved, [addFile] returns exactly when the path
    begins with the data directory and a separator, the metadata is
    [None] or a dict, and the file can be read on disk.  Metadata of
    another type fails the assertion before the disk is asked; a file
    that is missing on disk raises [OSError] and records nothing. *)
Theorem addFile_succeeds_iff env p md s d s0 :
  dataPath s = (Ok d, s0) ->
  ((addFile env p md s).1 = Ok tt <->
     startswith p (d +:+ String sep EmptyString) = true
     /\ is_Some (givenItems md (heap s)) /\ is_Some (st_size env p))
  /\ (forall v, startswith p (d +:+ String sep EmptyString) = true ->
        (addFile env p (MOther v) s).1
        = Raise (AssertionError "metadata needs to be a dict or None"))
  /\ (startswith p (d +:+ String sep EmptyString) = true ->
      is_Some (givenItems md (heap s)) -> st_size env p = None ->
      (addFile env p md s).1 = Raise (OSError p)
      /\ files_ (addFile env p md s).2 = files_ s).
Proof.
  intros (Hs0 & Hd & Hload)%dataPath_Ok.
  destruct (load_frame s) as (Hh & Hf & _). rewrite <- Hs0 in Hh, Hf.
  assert (Heq : forall md',
    addFile env p md' s =
    if startswith p (d +:+ String sep EmptyString) then
      match md', givenItems md' (heap s0) with
      | MOther _, _ =>
          (Raise (AssertionError "metadata needs to be a dict or None"), s0)
      | _, None => (Raise (OtherError "no such object"), s0)
      | _, Some given =>
          match st_size env p with
          | None => (Raise (OSError p),
                     set_heap (<[fresh (dom (heap s0)) := given]> (heap s0)) s0)
          | Some size =>
              (Ok tt,
               set_files (odict_set p (fresh (dom (heap s0))) (files_ s0))
                 (set_heap (<[fresh (dom (heap s0)) := recorded given size p]>
                              (heap s0)) s0))
          end
      end
    else (Raise (FileNotUnderDataDirectoryError p d), s0)).
  { intros md'. rewrite addFile_eq. cbn zeta. rewrite Hload. simpl. by rewrite Hd. }
  rewrite <- Hh, <- Hf. split_and!.
  - rewrite Heq. destruct (startswith p _).
    + destruct md as [|l0|x]; simpl.
      * destruct (st_size env p); simpl; split; try done;
          try (by intros (_ & _ & [? ?])); eauto.
      * destruct (heap s0 !! l0); simpl.
        -- destruct (st_size env p); simpl; split; try done;
             try (by intros (_ & _ & [? ?])); eauto.
        -- split; [done|]. by intros (_ & [? ?] & _).
      * split; [done|]. by intros (_ & [? ?] & _).
    + split; [done|]. by intros [? _].
  - intros v Hpre. by rewrite Heq, Hpre.
  - intros Hpre [given Hgiven] Hsize. rewrite Heq, Hpre, Hsize.
    destruct md as [|l0|x]; simpl in *; [| |done].
    + by destruct s0.
    + rewrite Hgiven. by destruct s0.
Qed.

(** X13.  [fileMetadata] and [files()].  In every state a task can
    reach, [fileMetadata] returns for exactly the paths [files()] lists;
    for any other path it raises [MetadataNotFoundError] and changes
    nothing. *)
Theorem fileMetadata_iff p s :
  reachable s ->
  ((exists r s1, fileMetadata p s = (Ok r, s1)) <-> p ∈ keys (files_ s))
  /\ (p ∉ keys (files_ s) ->
      fileMetadata p s = (Raise (MetadataNotFoundError p), s))
  /\ (files s).1 = Ok (keys (files_ s)) /\ (files s).2 = s.
Proof.
  intros Hs%reachable_inv. rewrite fileMetadata_eq.
  assert (Hnone : p ∉ keys (files_ s) -> odict_get p (files_ s) = None).
  { intros Hp. destruct (odict_get p (files_ s)) as [l|] eqn:Hl; [|done].
    exfalso. apply Hp. apply odict_get_Some_elem in Hl.
    unfold keys. apply list_elem_of_fmap. by exists (p, l). }
  split_and!; [|by intros ->%Hnone|done|done].
  split.
  - intros (r & s1 & H). destruct (decide (p ∈ keys (files_ s))); [done|].
    by rewrite Hnone in H.
  - intros Hp. destruct (odict_get_is_Some _ _ Hp) as [l Hl]. rewrite Hl.
    destruct (inv_files s Hs p l (odict_get_Some_elem _ _ _ Hl))
      as (d & m & n & _ & _ & -> & _).
    eauto.
Qed.

(** X14.  [addFile] then [fileMetadata].  After [addFile] has returned,
    the path is listed by [files()] and [fileMetadata] returns for it a
    dict with the size found on disk, the caller's [type] or else the
    extension of the path, and the caller's other items. *)
Theorem addFile_then_fileMetadata env p md s s' :
  addFile env p md s = (Ok tt, s') ->
  p ∈ keys (files_ s')
  /\ exists given size r s'' m,
       givenItems md (heap s) = Some given
       /\ st_size env p = Some size
       /\ fileMetadata p s' = (Ok r, s'')
       /\ heap s'' !! r = Some m
       /\ m !! "size" = Some (VInt size)
       /\ m !! "type"
          = Some (default (VStr (slice_from 1 (splitext p).2)) (given !! "type"))
       /\ (forall k, k <> "size" -> k <> "type" -> m !! k = given !! k).
Proof.
  rewrite addFile_eq. cbn zeta.
  destruct (load_frame s) as (Hh & _).
  destruct (loadPublishData s) as [[[]|e] s0]; simpl in *; [|done].
  destruct (dataPath_ s0) as [d|]; [|done].
  destruct (startswith p _); [|done].
  rewrite <- Hh.
  assert (Hcase : forall given,
    match st_size env p with
    | Some size =>
        (Ok tt, set_files (odict_set p (fresh (dom (heap s0))) (files_ s0))
                  (set_heap (<[fresh (dom (heap s0)) := recorded given size p]>
                               (heap s0)) s0))
    | None => (Raise (OSError p),
               set_heap (<[fresh (dom (heap s0)) := given]> (heap s0)) s0)
    end = (Ok tt, s') ->
    p ∈ keys (files_ s')
    /\ exists size r s'' m,
         st_size env p = Some size
         /\ fileMetadata p s' = (Ok r, s'')
         /\ heap s'' !! r = Some m
         /\ m !! "size" = Some (VInt size)
         /\ m !! "type"
            = Some (default (VStr (slice_from 1 (splitext p).2)) (given !! "type"))
         /\ (forall k, k <> "size" -> k <> "type" -> m !! k = given !! k)).
  { intros given. destruct (st_size env p) as [size|]; [|done].
    intros [= <-]. rewrite fileMetadata_eq.
    destruct s0 as [h pc fp f i a v st l vp dp cp ver w]. simpl.
    rewrite odict_get_set_eq, lookup_insert_eq. split.
    - unfold keys. apply list_elem_of_fmap. exists (p, fresh (dom h)).
      split; [done|]. apply odict_get_Some_elem. apply odict_get_set_eq.
    - eexists size, _, _, _. split; [done|]. split; [reflexivity|].
      split; [simpl; apply lookup_insert_eq|].
      split_and!; [apply recorded_size | apply recorded_type |].
      intros k. apply recorded_other. }
  destruct md as [|l0|x]; simpl; [| |done].
  - intros H. destruct (Hcase ∅ H) as (H1 & size & r & s'' & m & H2).
    split; [done|]. by exists ∅, size, r, s'', m.
  - destruct (heap s0 !! l0) as [given|]; [|done].
    intros H. destruct (Hcase given H) as (H1 & size & r & s'' & m & H2).
    split; [done|]. by exists given, size, r, s'', m.
Qed.

End TaskFacts.

Module LoadFacts.
Import Py Crawler CreateVersion PyFacts VersionFacts.

Local Arguments loadPublishData : simpl never.
Local Arguments int : simpl never.
Local Arguments slice_from : simpl never.
Local Arguments basename : simpl never.
Local Arguments dirname : simpl never.
Local Arguments join : simpl never.
Local Arguments var : simpl never.
Local Arguments startswith : simpl never.
Local Arguments splitext : simpl never.

(** *** The bound nodes never change *)

Lemma crawlers_bind {A B} (m : M A) (k : A -> M B) :
  (forall s, pathCrawlers (m s).2 = pathCrawlers s) ->
  (forall a s, pathCrawlers (k a s).2 = pathCrawlers s) ->
  forall s, pathCrawlers (mbind m k s).2 = pathCrawlers s.
Proof.
  intros Hm Hk s. unfold mbind. specialize (Hm s).
  destruct (m s) as [[a|e] s1]; simpl in *; [by rewrite Hk | done].
Qed.

Lemma crawlers_forM {A B} (f : A -> B -> M A) a l :
  (forall a b s, pathCrawlers (f a b s).2 = pathCrawlers s) ->
  forall s, pathCrawlers (forM f a l s).2 = pathCrawlers s.
Proof.
  intros Hf. revert a. induction l as [|b l IH]; intros a; simpl; [done|].
  apply crawlers_bind; [apply Hf | intros; apply IH].
Qed.

Lemma crawlers_load s : pathCrawlers (loadPublishData s).2 = pathCrawlers s.
Proof. by destruct (load_frame s) as (_ & _ & _ & _ & H & _). Qed.

Lemma crawlers_getattr {A} name (f : State -> option A) s :
  pathCrawlers (getattr name f s).2 = pathCrawlers s.
Proof. unfold getattr. by destruct (f s). Qed.

Lemma crawlers_deref l s : pathCrawlers (deref l s).2 = pathCrawlers s.
Proof. unfold deref. by destruct (heap s !! l). Qed.

Lemma crawlers_perform env s : pathCrawlers (perform env s).2 = pathCrawlers s.
Proof.
  revert s.
  unfold perform, writeEnv, writeInfo, writeData, copyIngestorConfig,
    versionPath, version, assetName, variant, configPath, addInfo.
  repeat first
    [ apply crawlers_load
    | apply crawlers_getattr
    | apply crawlers_deref
    | apply crawlers_bind; [|intros ?]
    | apply crawlers_forM; intros ? ?; unfold addSize, addFileData, versionPath
    | by (let x := fresh in intros x; destruct x)
    | progress case_match ].
Qed.

Lemma step_crawlers s s' : step s s' -> pathCrawlers s' = pathCrawlers s.
Proof.
  intros Hstep. destruct Hstep as [env p md t|p t|k v t|t|env t|d t|l d t Hl].
  - rewrite addFile_eq. cbn zeta. pose proof (crawlers_load t) as H.
    destruct (loadPublishData t) as [r t0]. simpl in *.
    repeat case_match; simpl; try done; by destruct t0.
  - rewrite fileMetadata_eq. repeat case_match; simpl; try done; by destruct t.
  - by destruct t.
  - apply crawlers_load.
  - apply crawlers_perform.
  - by destruct t.
  - by destruct t.
Qed.

(** Without a bound node there is nothing to load. *)
Lemma load_unbound s : pathCrawlers s = [] -> loadPublishData s = (Ok tt, s).
Proof.
  intros H. unfold loadPublishData, mbind, get, ret. simpl. rewrite H.
  by destruct (loadedPublishedData s).
Qed.

Lemma perform_unbound env s :
  pathCrawlers s = [] -> versionPath_ s = None ->
  perform env s = (Raise (AttributeError "__versionPath"), s).
Proof.
  intros Hpc Hvp. unfold perform, writeEnv. unfold mbind at 1 2 3 4.
  unfold versionPath. rewrite getter_eq, load_unbound by done. simpl.
  by rewrite Hvp.
Qed.

Lemma step_unbound s s' :
  step s s' ->
  pathCrawlers s = [] -> versionPath_ s = None -> dataPath_ s = None ->
  files_ s = [] ->
  s' = s \/ (exists i, s' = set_info i s) \/ (exists h, s' = set_heap h s).
Proof.
  intros Hstep. destruct Hstep as [env p md t|p t|k v t|t|env t|d t|l d t Hl];
    intros Hpc Hvp Hdp Hf.
  - left. rewrite addFile_eq. cbn zeta. rewrite load_unbound by done. simpl.
    by rewrite Hdp.
  - left. rewrite fileMetadata_eq. by rewrite Hf.
  - right. left. by eexists.
  - left. by rewrite load_unbound.
  - left. by rewrite perform_unbound.
  - right. right. by eexists.
  - right. right. by eexists.
Qed.

Lemma unbound_reachable s :
  reachable s -> pathCrawlers s = [] ->
  versionPath_ s = None /\ dataPath_ s = None /\ configPath_ s = None
  /\ version_ s = None /\ assetName_ s = VNone /\ files_ s = []
  /\ written s = [].
Proof.
  induction 1 as [|s s' Hs IH Hstep]; [done|].
  intros Hpc'. pose proof (step_crawlers _ _ Hstep) as Hpc.
  rewrite Hpc' in Hpc. symmetry in Hpc.
  destruct (IH Hpc) as (Hvp & Hdp & Hcp & Hver & Ha & Hf & Hw).
  destruct (step_unbound _ _ Hstep Hpc Hvp Hdp Hf) as [->|[[i ->]|[h ->]]];
    [done|by destruct s..].
Qed.

(** X15.  A task without nodes.  While no node is bound, no publish
    data is ever loaded: the accessors of the version raise
    [AttributeError] for the attribute that was never assigned,
    [assetName()] and [variant()] return [None], [addFile] raises before
    recording anything, and [_perform] raises before writing anything.
    None of these calls changes the task. *)
Theorem unbound_task env p md s :
  reachable s -> pathCrawlers s = [] ->
  version s = (Raise (AttributeError "__version"), s)
  /\ versionPath s = (Raise (AttributeError "__versionPath"), s)
  /\ dataPath s = (Raise (AttributeError "__dataPath"), s)
  /\ configPath s = (Raise (AttributeError "__configPath"), s)
  /\ assetName s = (Ok VNone, s)
  /\ variant s = (Ok VNone, s)
  /\ addFile env p md s = (Raise (AttributeError "__dataPath"), s)
  /\ files s = (Ok [], s)
  /\ perform env s = (Raise (AttributeError "__versionPath"), s)
  /\ written s = [].
Proof.
  intros Hs Hpc.
  destruct (unbound_reachable s Hs Hpc) as (Hvp & Hdp & Hcp & Hver & Ha & Hf & Hw).
  unfold version, versionPath, dataPath, configPath.
  rewrite !getter_eq, addFile_eq. cbn zeta.
  unfold assetName, variant, mbind, get, files.
  rewrite !load_unbound by done. simpl.
  rewrite Hvp, Hdp, Hcp, Hver, Ha.
  split_and!; try done.
  - unfold get. by rewrite Hf.
  - by apply perform_unbound.
Qed.

(** X16.  A failed load is not tried again.  [__loadPublishData] sets
    its flag before it reads anything.  Once [version()] has raised, be
    it while loading (a variable the node lacks, a target path that does
    not resolve, a version folder whose name is no number) or because
    nothing was loaded, later calls load nothing: [version()] raises
    [AttributeError] for the attribute that was never assigned, not the
    original error. *)
Theorem failed_load_not_retried s e s1 :
  reachable s ->
  version s = (Raise e, s1) ->
  loadPublishData s1 = (Ok tt, s1)
  /\ version s1 = (Raise (AttributeError "__version"), s1)
  /\ (e <> AttributeError "__version" ->
      loadPublishData s = (Raise e, s1)
      /\ loadedPublishedData s = false /\ loadedPublishedData s1 = true).
Proof.
  intros Hinv%reachable_inv Hv.
  assert (Hnone : loadedPublishedData s = false -> version_ s = None).
  { intros Hl. destruct (version_ s) as [v|] eqn:Ev; [|done].
    destruct (inv_version s Hinv v Ev) as (vp & Hvp & _).
    apply (inv_loaded s Hinv) in Hvp. congruence. }
  assert (Hcase :
    (loadPublishData s = (Raise e, s1) /\ loadedPublishedData s = false
     /\ loadedPublishedData s1 = true /\ version_ s1 = None)
    \/ (version_ s1 = None /\ e = AttributeError "__version"
        /\ loadPublishData s1 = (Ok tt, s1))).
  { unfold version in Hv. rewrite getter_eq in Hv. cbn zeta in Hv.
    destruct (loadPublishData s) as [[[]|e'] s0] eqn:E; simpl in Hv.
    - right. destruct (version_ s0) eqn:Ev; [done|]. injection Hv as <- <-.
      split_and!; try done.
      destruct (pathCrawlers s) as [|c pc] eqn:Hpc.
      + rewrite load_unbound in E by done. injection E as <-.
        by apply load_unbound.
      + apply load_loaded.
        destruct (VersionExamples_facts.load_once s) as [H _].
        * by rewrite Hpc.
        * by rewrite E in H.
    - left. injection Hv as <- <-. split; [done|].
      destruct s as [h pc fp f i a v st l vp dp cp ver w]. simpl in *.
      destruct l; [rewrite load_loaded in E by done; discriminate|].
      specialize (Hnone eq_refl). subst ver.
      revert E. run_load; by intros [= <- <-]. }
  assert (Hagain : loadPublishData s1 = (Ok tt, s1) /\ version_ s1 = None).
  { destruct Hcase as [(_ & _ & Hflag & Hver)|(Hver & _ & Hl)]; [|done].
    split; [by apply load_loaded | done]. }
  destruct Hagain as [Hl Hver]. split_and!; [done| |].
  - unfold version. rewrite getter_eq. cbn zeta. rewrite Hl. simpl.
    by rewrite Hver.
  - intros He. destruct Hcase as [(? & ? & ? & _)|(_ & ? & _)]; done.
Qed.

(** X17.  The publish data is memoized.  After one accessor call,
    whatever it answered, no accessor changes the task any more; and a
    version that was returned is returned again. *)
Theorem accessors_memoized s :
  let s1 := (version s).2 in
  (version s1).2 = s1 /\ (versionPath s1).2 = s1 /\ (dataPath s1).2 = s1
  /\ (configPath s1).2 = s1 /\ (assetName s1).2 = s1 /\ (variant s1).2 = s1
  /\ (forall v, (version s).1 = Ok v -> version s1 = (Ok v, s1)).
Proof.
  cbn zeta.
  assert (Hs1 : (version s).2 = (loadPublishData s).2).
  { unfold version. rewrite getter_eq. cbn zeta.
    destruct (loadPublishData s) as [[[]|e] s0]; simpl; [|done].
    by destruct (version_ s0). }
  assert (Hl : loadPublishData (loadPublishData s).2 = (Ok tt, (loadPublishData s).2)).
  { destruct (pathCrawlers s) as [|c pc] eqn:Hpc.
    - rewrite (load_unbound s Hpc). simpl. by apply load_unbound.
    - apply VersionExamples_facts.load_once. by rewrite Hpc. }
  rewrite Hs1. unfold version, versionPath, dataPath, configPath.
  rewrite !getter_eq. cbn zeta. unfold assetName, variant, mbind, get.
  rewrite !Hl. simpl.
  split_and!; try done; try (by case_match).
  intros v. destruct (loadPublishData s) as [[[]|e] s0]; simpl; [|done].
  by destruct (version_ s0); intros [= ->].
Qed.

(** X18.  What [info.json] holds.  When [_perform] returns, the record
    written to [info.json] is the task's info dict: the caller's
    [addInfo] items, except that [size], [version], [user] and
    [totalTime] are set by the task, the user being the environment's
    [USERNAME] or the empty string and the time the whole seconds since
    the task was made; [assetName] and [variant] are set only when the
    asset name is truthy, both to the asset name. *)
Theorem perform_info env s s' :
  reachable s -> perform env s = (Ok tt, s') ->
  exists vp info,
    InfoJson (join vp "info.json") info ∈ written s'
    /\ info_ s' = info
    /\ info !! "user"
       = Some (VStr (default EmptyString (environ env !! "USERNAME")))
    /\ info !! "totalTime" = Some (VInt (now env - startTime s))
    /\ (forall k, k ∉ ["size"; "version"; "user"; "totalTime"; "assetName"; "variant"] ->
          info !! k = info_ s !! k)
    /\ (if truthy (assetName_ s')
        then info !! "assetName" = Some (assetName_ s')
             /\ info !! "variant" = Some (assetName_ s')
        else info !! "assetName" = info_ s !! "assetName"
             /\ info !! "variant" = info_ s !! "variant").
Proof.
  intros Hinv%reachable_inv Hp.
  destruct (perform_Ok env s s' Hinv Hp) as (s0 & vp & v & c & Hl & Hvp & Hv & Hc & ->).
  pose proof (load_frame s) as (_ & _ & Hi & _ & _ & _ & Hst).
  rewrite Hl in Hi, Hst. simpl in Hi, Hst.
  exists vp, (infoOf env s0 v).
  assert (Ha : assetName_
           (add_written (CopyTree c (join vp "ingestorConfig"))
              (add_written (DataJson (join vp "data.json") (filesDataOf vp s0))
                 (add_written (InfoJson (join vp "info.json") (infoOf env s0 v))
                    (set_info (infoOf env s0 v)
                       (add_written (EnvJson (join vp "env.json") (environ env)) s0)))))
           = assetName_ s0) by (by destruct s0).
  rewrite Ha. rewrite <- Hi, <- Hst.
  split_and!.
  - destruct s0. simpl. set_solver.
  - by destruct s0.
  - unfold infoOf. destruct (truthy (assetName_ s0));
      by rewrite ?lookup_insert_ne, ?lookup_insert_eq by done.
  - unfold infoOf. destruct (truthy (assetName_ s0));
      by rewrite ?lookup_insert_ne, ?lookup_insert_eq by done.
  - intros k Hk. unfold infoOf.
    destruct (truthy (assetName_ s0)); rewrite !lookup_insert_ne; try done;
      intros <-; apply Hk; set_solver.
  - unfold infoOf. destruct (truthy (assetName_ s0)).
    + split; [|apply lookup_insert_eq].
      rewrite lookup_insert_ne by done. apply lookup_insert_eq.
    + by rewrite !lookup_insert_ne.
Qed.

(** X19.  A publish that stops half way.  When the version folder was
    found but its number was not (the load raised after it had stored
    the paths), [_perform] writes [env.json], stores the total size in
    the info dict, and then raises on the missing version: nothing else
    is written. *)
Theorem perform_without_version env s vp :
  reachable s ->
  versionPath_ s = Some vp -> version_ s = None ->
  exists s',
    perform env s = (Raise (AttributeError "__version"), s')
    /\ written s' = written s ++ [EnvJson (join vp "env.json") (environ env)]
    /\ info_ s' = <["size" := VInt (sumOfSizes s)]> (info_ s)
    /\ files_ s' = files_ s.
Proof.
  intros Hinv%reachable_inv Hvp Hver.
  pose proof (inv_loaded s Hinv vp Hvp) as Hloaded.
  destruct Hinv as [_ Hfiles _ _ _].
  destruct s as [h pc fp f i a v st l vpo dp cp ver w]. simpl in *. subst.
  unfold perform, writeEnv. unfold mbind at 1 2 3 4.
  unfold versionPath. rewrite getter_eq, load_loaded by done. simpl.
  unfold modify. simpl.
  unfold writeInfo. unfold mbind at 1, get. simpl.
  unfold mbind at 1. rewrite forM_addSize; simpl.
  2:{ intros p l Hin. destruct (Hfiles p l Hin) as (? & m & n & _ & _ & ? & ?).
      by exists m, n. }
  unfold version, addInfo, mbind, get, modify, getattr, ret. simpl.
  rewrite ?load_loaded by done. simpl.
  eexists. split; [reflexivity|]. simpl. split_and!; try done.
Qed.

End LoadFacts.

(* ===================================================================== *)
(** * [DpxClientPlate]: what the constructor reads from the name *)
(* ===================================================================== *)

Module PlateFacts.
Import Py Crawler Path PyText DpxClientPlate PyFacts RegistryFacts.

Lemma split_nonempty c s : split c s <> [].
Proof.
  destruct s as [|a s]; simpl; [done|].
  destruct (decide (a = c)); [done|]. by destruct (split c s).
Qed.

Lemma length_split c s : length (split c s) = S (count c s).
Proof.
  unfold count. induction s as [|a s IH]; simpl; [done|].
  rewrite filter_cons. destruct (decide (a = c)); simpl.
  - by rewrite IH.
  - pose proof (split_nonempty c s). by destruct (split c s).
Qed.

Lemma join_split c s : join_with c (split c s) = s.
Proof.
  induction s as [|a s IH]; simpl; [done|].
  pose proof (split_nonempty c s) as Hne.
  destruct (decide (a = c)) as [->|Hac].
  - destruct (split c s) as [|p ps]; [done|]. simpl in *. by rewrite IH.
  - destruct (split c s) as [|p ps]; [done|]. simpl in *.
    destruct ps; simpl in *; by rewrite <- IH.
Qed.

Lemma split_parts c s part : part ∈ split c s -> count c part = 0.
Proof.
  unfold count. revert part. induction s as [|a s IH]; simpl; intros part.
  - by intros ->%list_elem_of_singleton.
  - destruct (decide (a = c)) as [->|Hac].
    + intros [->|H]%elem_of_cons; [done | by apply IH].
    + pose proof (split_nonempty c s) as Hne.
      destruct (split c s) as [|p ps]; [done|].
      intros [->|H]%elem_of_cons.
      * simpl. rewrite filter_cons, decide_False by done. apply IH. left.
      * apply IH. by right.
Qed.

Lemma join_with_snoc c parts x :
  parts <> [] -> join_with c (parts ++ [x]) = join_with c parts +:+ String c x.
Proof.
  induction parts as [|p parts IH]; [done|]. intros _.
  destruct parts as [|q parts]; [done|].
  change (join_with c ((p :: q :: parts) ++ [x]))
    with (p +:+ String c (join_with c ((q :: parts) ++ [x]))).
  rewrite IH by done.
  change (join_with c (p :: q :: parts))
    with (p +:+ String c (join_with c (q :: parts))).
  by rewrite app_assoc_str.
Qed.

Lemma slice_from_short n s : String.length s <= n -> slice_from n s = EmptyString.
Proof.
  revert s. induction n as [|n IH]; intros [|a s]; simpl; try done; try lia.
  intros H. apply IH. lia.
Qed.

Lemma length_slice_from n s :
  String.length (slice_from n s) = String.length s - n.
Proof.
  revert s. induction n as [|n IH]; intros [|a s]; simpl; done.
Qed.

Lemma int_empty : int EmptyString = Raise (ValueError EmptyString).
Proof. reflexivity. Qed.

Lemma index_Ok {A} (l : list A) i x : index l i = Ok x -> l !! i = Some x.
Proof. unfold index. destruct (l !! i); [by intros [= ->] | done]. Qed.

Lemma index_last_Ok {A} (l : list A) x :
  index_last l = Ok x -> l = removelast l ++ [x].
Proof.
  unfold index_last. destruct (last l) as [y|] eqn:E; [|done]. intros [= ->].
  destruct l as [|a l] using rev_ind; [done|].
  rewrite last_snoc in E. injection E as ->.
  by rewrite removelast_last.
Qed.

Lemma applyOps_setVar_last self ops name value ctx :
  var name (foldl applyOp self (ops ++ [SetVar name value ctx])) = Ok value.
Proof.
  rewrite foldl_app. simpl. unfold var. simpl. by rewrite lookup_insert_eq.
Qed.

Lemma var_applyOps name ops self :
  var name (foldl applyOp self ops) =
  match assigned name ops with
  | Some value => Ok value
  | None => var name self
  end.
Proof.
  revert self. induction ops as [|[n v c|n v] ops IH]; intros self; simpl; [done| |].
  - rewrite IH. destruct (assigned name ops); [done|].
    unfold var. simpl. destruct (decide (n = name)) as [->|Hne].
    + by rewrite lookup_insert_eq.
    + by rewrite lookup_insert_ne.
  - rewrite IH. by destruct (assigned name ops).
Qed.

Lemma var_setVar name n v c self :
  var name (setVar n v c self) = if decide (n = name) then Ok v else var name self.
Proof.
  unfold var. simpl. destruct (decide (n = name)) as [->|Hne].
  - by rewrite lookup_insert_eq.
  - by rewrite lookup_insert_ne.
Qed.

Local Arguments int : simpl never.
Local Arguments split : simpl never.
Local Arguments slice : simpl never.
Local Arguments slice_from : simpl never.
Local Arguments join_with : simpl never.
Local Arguments var : simpl never.

(** X20.  What a [DpxClientPlate] always carries.  When the constructor
    body returns, the name had at least three parts between
    underscores; [seq] is EP followed by the first part without its
    first three characters, [shot] is HVN, [seq] and the second and
    third part joined by hyphens, [plateName] is plate, [imageType] is
    sequence and [version] is an integer, whichever branch was taken;
    for a node that was a sequence already the version is 0 and the
    name is kept. *)
Theorem plate_variables self name ops :
  var "name" self = Ok (VStr name) ->
  DpxClientPlate__init__ self = Ok ops ->
  exists part0 part1 part2 rest version,
    split underscore name = part0 :: part1 :: part2 :: rest
    /\ var "seq" (foldl applyOp self ops) = Ok (VStr ("EP" +:+ slice_from 3 part0))
    /\ var "shot" (foldl applyOp self ops)
       = Ok (VStr ("HVN-" +:+ ("EP" +:+ slice_from 3 part0)
                   +:+ "-" +:+ part1 +:+ "-" +:+ part2))
    /\ var "plateName" (foldl applyOp self ops) = Ok (VStr "plate")
    /\ var "imageType" (foldl applyOp self ops) = Ok (VStr "sequence")
    /\ var "version" (foldl applyOp self ops) = Ok (VInt version)
    /\ (var "imageType" self = Ok (VStr "sequence") ->
        version = 0%Z /\ var "name" (foldl applyOp self ops) = Ok (VStr name)).
Proof.
  intros Hname Hinit. unfold DpxClientPlate__init__ in Hinit.
  rewrite Hname in Hinit. simpl in Hinit.
  destruct (split underscore name) as [|part0 [|part1 [|part2 rest]]] eqn:Hsplit;
    try done.
  simpl in Hinit. rewrite !var_setVar in Hinit. simpl in Hinit.
  destruct (var "imageType" self) as [imageType|] eqn:Htype; [|done].
  simpl in Hinit. destruct (isStr "sequence" imageType) eqn:Hseq.
  - injection Hinit as <-. exists part0, part1, part2, rest, 0%Z.
    assert (imageType = VStr "sequence") as ->.
    { destruct imageType as [| | |t| |]; try done. simpl in Hseq.
      apply bool_decide_eq_true in Hseq. by subst. }
    split_and!; try done; by rewrite var_applyOps.
  - apply bind_Ok in Hinit as (lastPart & Hlast & Hinit).
    apply bind_Ok in Hinit as (version & Hversion & Hinit).
    apply bind_Ok in Hinit as (frame & Hframe & [= <-]).
    exists part0, part1, part2, rest, version.
    split_and!; try done; try (by rewrite var_applyOps).
    intros [= ->]. by vm_compute in Hseq.
Qed.

(** X21.  A plate with its version in the name.  For a node that is
    not a sequence yet, the constructor body cuts the name at its last
    underscore: the name becomes what precedes it; of the part that
    follows, the characters 1 to 3 are the version and the characters
    from 4 on the frame, whose count is the padding.  Both must be
    numbers, so that part is longer than four characters. *)
Theorem plate_with_version self name ops :
  var "name" self = Ok (VStr name) ->
  var "imageType" self <> Ok (VStr "sequence") ->
  DpxClientPlate__init__ self = Ok ops ->
  exists stem lastPart version frame,
    name = stem +:+ String underscore lastPart
    /\ count underscore lastPart = 0
    /\ var "name" (foldl applyOp self ops) = Ok (VStr stem)
    /\ int (slice 1 4 lastPart) = Ok version
    /\ var "version" (foldl applyOp self ops) = Ok (VInt version)
    /\ int (slice_from 4 lastPart) = Ok frame
    /\ var "frame" (foldl applyOp self ops) = Ok (VInt frame)
    /\ var "padding" (foldl applyOp self ops) = Ok (VInt (len lastPart - 4))
    /\ (4 < len lastPart)%Z.
Proof.
  intros Hname Hnoseq Hinit. unfold DpxClientPlate__init__ in Hinit.
  rewrite Hname in Hinit. simpl in Hinit.
  pose proof (join_split underscore name) as Hjoin.
  assert (Hparts : forall part, part ∈ split underscore name ->
            count underscore part = 0) by apply split_parts.
  destruct (split underscore name) as [|part0 [|part1 [|part2 rest]]] eqn:Hsplit;
    try done.
  simpl in Hinit. rewrite !var_setVar in Hinit. simpl in Hinit.
  destruct (var "imageType" self) as [imageType|] eqn:Htype; [|done].
  simpl in Hinit. destruct (isStr "sequence" imageType) eqn:Hseq.
  { destruct imageType as [| | |t| |]; try done. simpl in Hseq.
    apply bool_decide_eq_true in Hseq. by subst. }
  apply bind_Ok in Hinit as (lastPart & Hlast & Hinit).
  apply bind_Ok in Hinit as (version & Hversion & Hinit).
  apply bind_Ok in Hinit as (frame & Hframe & [= <-]).
  apply index_last_Ok in Hlast.
  assert (Hlen : 4 < String.length lastPart).
  { destruct (decide (4 < String.length lastPart)) as [|Hshort]; [done|].
    rewrite slice_from_short in Hframe by lia. by rewrite int_empty in Hframe. }
  exists (join_with underscore (removelast (part0 :: part1 :: part2 :: rest))),
         lastPart, version, frame.
  split_and!; try done; try (by rewrite var_applyOps).
  - rewrite <- Hjoin. rewrite Hlast at 1. by apply join_with_snoc.
  - apply Hparts. rewrite Hlast. apply elem_of_app. right. left.
  - rewrite var_applyOps. simpl. do 2 f_equal. unfold len.
    rewrite length_slice_from. lia.
  - unfold len. lia.
Qed.

Lemma issubclass_derived (base : PathClass) :
  issubclass base PathBase = true ->
  issubclass (DpxClientPlate base) PathBase = true
  /\ issubclass (DpxClientPlate base) base = true.
Proof.
  unfold issubclass, issubclassMro. rewrite !bool_decide_eq_true. simpl.
  intros H. split; [by apply suffix_cons_r | by apply suffix_cons_r].
Qed.

(** X22.  A name that is too short.  Once [dpxClientPlate] is
    registered (which needs a base class derived from [Path]), [create]
    on a path its [test] accepts, whose name has fewer than two
    underscores, does not return a node: the constructor fails on the
    missing part and [create] reports [CreateCrawlerError] for the type
    [dpxClientPlate]. *)
Theorem plate_name_too_short base r ph parent inherited name :
  issubclass base PathBase = true ->
  "dpxClientPlate" ∉ registeredNames r ->
  test base ph parent = Ok true ->
  initBody base ph parent (Path__init__ (mro (DpxClientPlate base)) ph parent)
    = Ok inherited ->
  var "name" (foldl applyOp (Path__init__ (mro (DpxClientPlate base)) ph parent)
                inherited) = Ok (VStr name) ->
  count underscore name < 2 ->
  exists r',
    registerDpxClientPlate base r = Ok r'
    /\ create r' ph parent
       = Raise (CreateCrawlerError "dpxClientPlate" (path ph) IndexError).
Proof.
  intros Hbase Hnew Htest Hinherited Hname Hcount.
  destruct (issubclass_derived base Hbase) as [Hsub _].
  exists (r ++ [("dpxClientPlate", DpxClientPlate base)]). split.
  - unfold registerDpxClientPlate, register. rewrite Hsub.
    by rewrite odict_set_notin.
  - rewrite create_snoc by done.
    change (test (DpxClientPlate base)) with (test base). rewrite Htest.
    unfold createdBy, construct.
    remember (Path__init__ (mro (DpxClientPlate base)) ph parent) as self.
    simpl. rewrite Hinherited. simpl.
    unfold DpxClientPlate__init__. rewrite Hname. simpl.
    pose proof (length_split underscore name) as Hlen.
    destruct (split underscore name) as [|part0 [|part1 [|part2 rest]]];
      simpl in *; try done. lia.
Qed.

End PlateFacts.

(* ===================================================================== *)
(** * [updateUmediaMetadata]: the header it writes *)
(* ===================================================================== *)

Module UmediaFacts.
Import Py Crawler UpdateImageMetadata.

(** X23.  The umedia header.  [updateUmediaMetadata] needs the node's
    [filePath] and the environment's [USERNAME]: without the first it
    raises what [var] raises, without the second [KeyError], and in
    both cases no attribute of the spec has been touched.  Otherwise it
    returns, having set the five [umedia:] attributes (the source file
    is the node's [filePath], the user is [USERNAME], the two versions
    default to the empty string) and left every other attribute as it
    was. *)
Theorem updateUmediaMetadata_outcome environ timestamp spec crawler :
  match updateUmediaMetadata environ timestamp spec crawler with
  | (Ok _, spec') =>
      (exists sourceFile user,
         var "filePath" crawler = Ok sourceFile
         /\ environ !! "USERNAME" = Some user
         /\ spec' !! "umedia:sourceFile" = Some sourceFile
         /\ spec' !! "umedia:ingestorUser" = Some (VStr user))
      /\ spec' !! "umedia:fileUpdatedTime" = Some (VStr timestamp)
      /\ spec' !! "umedia:uverVersion"
         = Some (VStr (default EmptyString (environ !! "UVER_VERSION")))
      /\ spec' !! "umedia:ingestorVersion"
         = Some (VStr (default EmptyString (environ !! "UVER_INGESTOR_VERSION")))
      /\ (forall name,
            name ∉ ["umedia:sourceFile"; "umedia:fileUpdatedTime";
                    "umedia:uverVersion"; "umedia:ingestorUser";
                    "umedia:ingestorVersion"] ->
            spec' !! name = spec !! name)
  | (Raise e, spec') =>
      spec' = spec
      /\ (var "filePath" crawler = Raise e
          \/ (is_Some (cvars crawler !! "filePath")
              /\ environ !! "USERNAME" = None
              /\ e = KeyError (VStr "USERNAME")))
  end.
Proof.
  unfold updateUmediaMetadata, environItem, var.
  destruct (cvars crawler !! "filePath") as [sourceFile|]; simpl.
  - destruct (environ !! "USERNAME") as [user|] eqn:Huser; simpl.
    + unfold attribute, environGet. split_and!.
      * exists sourceFile, user. split_and!; try done.
        -- repeat (rewrite lookup_insert_ne by done); by rewrite lookup_insert_eq.
        -- repeat (rewrite lookup_insert_ne by done); by rewrite lookup_insert_eq.
      * repeat (rewrite lookup_insert_ne by done); by rewrite lookup_insert_eq.
      * repeat (rewrite lookup_insert_ne by done); by rewrite lookup_insert_eq.
      * repeat (rewrite lookup_insert_ne by done); by rewrite lookup_insert_eq.
      * intros name Hname. rewrite !lookup_insert_ne; [done|..];
          intros <-; apply Hname; set_solver.
    + split; [done|]. right. eauto.
  - split; [done|]. by left.
Qed.

End UmediaFacts.

(* ===================================================================== *)
(** * The base class itself: [Path.test] and [Path.__init__] *)
(* ===================================================================== *)

Module BaseFacts.
Import Py Crawler Path PyFacts RegistryFacts.

(** X24.  [Path] registered as a type.  [register] accepts the class
    [Path] itself, and from then on [create] asks its [test] first,
    which is not implemented: for every path, [create] raises
    [TestCrawlerError] for that name around [NotImplementedError]. *)
Theorem create_with_base_class r name ph parent :
  name ∉ registeredNames r ->
  exists r',
    register name PathBase r = Ok r'
    /\ create r' ph parent
       = Raise (TestCrawlerError name (path ph) NotImplementedError).
Proof.
  intros Hname. exists (r ++ [(name, PathBase)]). split.
  - unfold register. by rewrite odict_set_notin.
  - by rewrite create_snoc.
Qed.

Lemma applyOps_dom (ops : list SetOp) c k :
  is_Some (cvars c !! k) -> is_Some (cvars (foldl applyOp c ops) !! k).
Proof.
  revert c. induction ops as [|op ops IH]; intros c Hk; simpl; [done|].
  apply IH. destruct op as [n v b|n v]; simpl; [|done].
  destruct (decide (n = k)) as [->|Hne].
  - rewrite lookup_insert_eq. eauto.
  - by rewrite lookup_insert_ne.
Qed.

(** X25.  What every constructed node has.  Whatever the constructor of
    a subclass sets afterwards, a node that a class call returns defines
    the five variables of [Path.__init__]: [filePath], [ext],
    [baseName], [name] and [sourceDirectory]; and its glob memo is
    empty, so that its first [glob] traverses. *)
Theorem construct_defines_path_vars cls ph parent c :
  construct cls ph parent = Ok c ->
  (forall k, k ∈ ["filePath"; "ext"; "baseName"; "name"; "sourceDirectory"] ->
     exists v, var k c = Ok v)
  /\ globCache c = None
  /\ (forall enumerate r useCache,
        (glob enumerate r [] useCache c).1 = Ok (collectCrawlers c)).
Proof.
  unfold construct. intros (ops & _ & [= <-])%bind_Ok.
  assert (Hcache : globCache (foldl applyOp (Path__init__ (mro cls) ph parent) ops)
                   = None).
  { assert (H : forall ops c, globCache (foldl applyOp c ops) = globCache c).
    { clear. induction ops as [|op ops IH]; intros c; simpl; [done|].
      rewrite IH. by destruct op. }
    rewrite H. unfold Path__init__. by case_bool_decide. }
  split_and!; [|done|].
  - intros k Hk.
    assert (Hdef : is_Some (cvars (Path__init__ (mro cls) ph parent) !! k)).
    { unfold Path__init__. case_bool_decide as Hsrc; simpl.
      - repeat (apply elem_of_cons in Hk as [->|Hk];
                [first [ by (repeat (rewrite lookup_insert_ne by done);
                             rewrite lookup_insert_eq; eauto)
                       | by (unfold varNames in Hsrc;
                             apply elem_of_elements, elem_of_dom in Hsrc) ]|]).
        by apply elem_of_nil in Hk.
      - repeat (apply elem_of_cons in Hk as [->|Hk];
                [by (repeat (rewrite lookup_insert_ne by done);
                     rewrite lookup_insert_eq; eauto)|]).
        by apply elem_of_nil in Hk. }
    apply (applyOps_dom ops) in Hdef as [v Hv]. exists v.
    unfold var. by rewrite Hv.
  - intros enumerate r useCache. unfold glob. by rewrite Hcache.
Qed.

End BaseFacts.

(* ===================================================================== *)
(** * The scenarios, evaluated *)
(* ===================================================================== *)

Module ScenarioFacts.
Import Py Crawler Path CreateVersion PyText DpxClientPlate UpdateImageMetadata.
Import Examples VersionExamples Scenarios.

Lemma create_after_register_witness :
  register "never" Never registry = Ok (registry ++ [("never", Never)])
  /\ create (registry ++ [("never", Never)]) plate None =
     match test Never plate None with
     | Raise err => Raise (TestCrawlerError "never" (path plate) err)
     | Ok true => createdBy "never" Never plate None
     | Ok false => create registry plate None
     end.
Proof.
  split; [reflexivity|].
  apply (RegistryFacts.create_after_register registry _ "never" Never plate None).
  - apply (bool_decide_unpack _). vm_compute. exact I.
  - reflexivity.
Defined.

Lemma create_returns_witness :
  exists r1 name cls r2 n0,
    registry = r1 ++ (name, cls) :: r2
    /\ test cls plate None = Ok true
    /\ (forall later c, (later, c) ∈ r2 -> test c plate None = Ok false)
    /\ construct cls plate None = Ok n0
    /\ typed = setVar "type" (VStr name) false n0
    /\ var "type" typed = Ok (VStr name)
    /\ cclass typed = mro cls /\ cparent typed = None /\ cchildren typed = []
    /\ pathHolder typed = Some plate.
Proof.
  apply (RegistryFacts.create_returns registry plate None typed).
  - apply (bool_decide_unpack _). vm_compute. exact I.
  - vm_compute. reflexivity.
Defined.


Lemma clone_carries_witness :
  (forall k v, cvars typed !! k = Some v -> var k typed = Ok v)
  /\ (forall k v, ctags typed !! k = Some v -> tag k typed = Ok v)
  /\ (forall k, k ∈ cctx typed -> k ∈ dom (cvars typed) -> k ∈ cctx typed)
  /\ cparent typed = None /\ cchildren typed = []
  /\ exists p, var "filePath" typed = Ok (VStr p)
       /\ pathHolder typed = Some {| path := p; isDirectory := noDirs p |}.
Proof.
  apply (CloneFacts.clone_carries noDirs registry typed typed).
  vm_compute. reflexivity.
Defined.

Lemma glob_unregistered_filter_witness :
  (glob descending registry [ByName "file"; ByName "movie"] true tree).1
  = Raise (AssertionError EmptyString)
  /\ globCache (glob descending registry [ByName "file"; ByName "movie"] true tree).2
     = Some (globList true tree)
  /\ (glob descending registry [] true
        (glob descending registry [ByName "file"; ByName "movie"] true tree).2).1
     = Ok (globList true tree).
Proof.
  apply (FilterFacts.glob_unregistered_filter descending registry
           [ByName "file"; ByName "movie"] true tree "movie").
  - apply (bool_decide_unpack _). vm_compute. exact I.
  - right. left.
Defined.

Lemma registeredSubTypes_names_witness :
  match registeredSubTypes stored registry (ByName "file") with
  | Ok names =>
      exists base,
        baseClass registry (ByName "file") = Ok base
        /\ NoDup names
        /\ (forall name, name ∈ names <->
              exists cls, (name, cls) ∈ registry /\ issubclass cls base = true)
        /\ (forall t, ByName "file" = ByName t -> t ∈ names)
  | Raise e =>
      e = AssertionError EmptyString /\ "file" ∉ registeredNames registry
  end.
Proof.
  apply (FilterFacts.registeredSubTypes_names stored registry (ByName "file")).
  intros S. reflexivity.
Defined.

Lemma create_then_clone_witness : clone noDirs registry typed = Ok typed.
Proof.
  apply (CloneFacts.create_then_clone noDirs registry plate typed).
  - vm_compute. reflexivity.
  - reflexivity.
  - vm_compute. reflexivity.
Defined.

Lemma addFile_succeeds_iff_witness :
  ((addFile disk img MNone task).1 = Ok tt <->
     startswith img (dataDir +:+ String sep EmptyString) = true
     /\ is_Some (givenItems MNone (heap task)) /\ is_Some (st_size disk img))
  /\ (forall v, startswith img (dataDir +:+ String sep EmptyString) = true ->
        (addFile disk img (MOther v) task).1
        = Raise (AssertionError "metadata needs to be a dict or None"))
  /\ (startswith img (dataDir +:+ String sep EmptyString) = true ->
      is_Some (givenItems MNone (heap task)) -> st_size disk img = None ->
      (addFile disk img MNone task).1 = Raise (OSError img)
      /\ files_ (addFile disk img MNone task).2 = files_ task).
Proof.
  apply (TaskFacts.addFile_succeeds_iff disk img MNone task dataDir (dataPath task).2).
  vm_compute. reflexivity.
Defined.

Lemma fileMetadata_iff_witness :
  let s := (addFile disk img MNone task).2 in
  ((exists r s1, fileMetadata img s = (Ok r, s1)) <-> img ∈ keys (files_ s))
  /\ (img ∉ keys (files_ s) ->
      fileMetadata img s = (Raise (MetadataNotFoundError img), s))
  /\ (files s).1 = Ok (keys (files_ s)) /\ (files s).2 = s.
Proof.
  cbn zeta.
  apply (TaskFacts.fileMetadata_iff img (addFile disk img MNone task).2).
  apply (reach_step task); [apply reach_init | apply step_addFile].
Defined.

Lemma addFile_then_fileMetadata_witness :
  let s' := (addFile disk img (MDict 0) task).2 in
  img ∈ keys (files_ s')
  /\ exists given size r s'' m,
       givenItems (MDict 0) (heap task) = Some given
       /\ st_size disk img = Some size
       /\ fileMetadata img s' = (Ok r, s'')
       /\ heap s'' !! r = Some m
       /\ m !! "size" = Some (VInt size)
       /\ m !! "type"
          = Some (default (VStr (slice_from 1 (splitext img).2)) (given !! "type"))
       /\ (forall k, k <> "size" -> k <> "type" -> m !! k = given !! k).
Proof.
  cbn zeta.
  apply (TaskFacts.addFile_then_fileMetadata disk img (MDict 0) task).
  vm_compute. reflexivity.
Defined.

Lemma unbound_task_witness :
  version unboundTask = (Raise (AttributeError "__version"), unboundTask)
  /\ versionPath unboundTask = (Raise (AttributeError "__versionPath"), unboundTask)
  /\ dataPath unboundTask = (Raise (AttributeError "__dataPath"), unboundTask)
  /\ configPath unboundTask = (Raise (AttributeError "__configPath"), unboundTask)
  /\ assetName unboundTask = (Ok VNone, unboundTask)
  /\ variant unboundTask = (Ok VNone, unboundTask)
  /\ addFile disk img MNone unboundTask
     = (Raise (AttributeError "__dataPath"), unboundTask)
  /\ files unboundTask = (Ok [], unboundTask)
  /\ perform disk unboundTask = (Raise (AttributeError "__versionPath"), unboundTask)
  /\ written unboundTask = [].
Proof.
  apply (LoadFacts.unbound_task disk img MNone unboundTask).
  - apply reach_init.
  - reflexivity.
Defined.

Lemma failed_load_not_retried_witness :
  let s1 := (version latestTask).2 in
  loadPublishData s1 = (Ok tt, s1)
  /\ version s1 = (Raise (AttributeError "__version"), s1)
  /\ (ValueError "atest" <> AttributeError "__version" ->
      loadPublishData latestTask = (Raise (ValueError "atest"), s1)
      /\ loadedPublishedData latestTask = false /\ loadedPublishedData s1 = true).
Proof.
  cbn zeta.
  apply (LoadFacts.failed_load_not_retried latestTask (ValueError "atest")
           (version latestTask).2).
  - apply reach_init.
  - vm_compute. reflexivity.
Defined.

Lemma perform_info_witness :
  let s := (addFile disk img MNone task).2 in
  exists vp info,
    InfoJson (join vp "info.json") info ∈ written (perform disk s).2
    /\ info_ (perform disk s).2 = info
    /\ info !! "user"
       = Some (VStr (default EmptyString (environ disk !! "USERNAME")))
    /\ info !! "totalTime" = Some (VInt (now disk - startTime s))
    /\ (forall k, k ∉ ["size"; "version"; "user"; "totalTime"; "assetName"; "variant"] ->
          info !! k = info_ s !! k)
    /\ (if truthy (assetName_ (perform disk s).2)
        then info !! "assetName" = Some (assetName_ (perform disk s).2)
             /\ info !! "variant" = Some (assetName_ (perform disk s).2)
        else info !! "assetName" = info_ s !! "assetName"
             /\ info !! "variant" = info_ s !! "variant").
Proof.
  cbn zeta.
  apply (LoadFacts.perform_info disk (addFile disk img MNone task).2).
  - apply (reach_step task); [apply reach_init | apply step_addFile].
  - vm_compute. reflexivity.
Defined.

Lemma perform_without_version_witness :
  let s := (loadPublishData latestTask).2 in
  exists s',
    perform disk s = (Raise (AttributeError "__version"), s')
    /\ written s' = written s ++ [EnvJson (join "/job/latest" "env.json") (environ disk)]
    /\ info_ s' = <["size" := VInt (sumOfSizes s)]> (info_ s)
    /\ files_ s' = files_ s.
Proof.
  cbn zeta.
  apply (LoadFacts.perform_without_version disk (loadPublishData latestTask).2
           "/job/latest").
  - apply (reach_step latestTask); [apply reach_init | apply step_load].
  - vm_compute. reflexivity.
  - vm_compute. reflexivity.
Defined.

Lemma plate_variables_witness :
  exists part0 part1 part2 rest version,
    split underscore "XHE102_013_060_plate_v00200986" = part0 :: part1 :: part2 :: rest
    /\ var "seq" (foldl applyOp plateSelf plateOps)
       = Ok (VStr ("EP" +:+ slice_from 3 part0))
    /\ var "shot" (foldl applyOp plateSelf plateOps)
       = Ok (VStr ("HVN-" +:+ ("EP" +:+ slice_from 3 part0)
                   +:+ "-" +:+ part1 +:+ "-" +:+ part2))
    /\ var "plateName" (foldl applyOp plateSelf plateOps) = Ok (VStr "plate")
    /\ var "imageType" (foldl applyOp plateSelf plateOps) = Ok (VStr "sequence")
    /\ var "version" (foldl applyOp plateSelf plateOps) = Ok (VInt version)
    /\ (var "imageType" plateSelf = Ok (VStr "sequence") ->
        version = 0%Z
        /\ var "name" (foldl applyOp plateSelf plateOps)
           = Ok (VStr "XHE102_013_060_plate_v00200986")).
Proof.
  apply (PlateFacts.plate_variables plateSelf "XHE102_013_060_plate_v00200986" plateOps).
  - vm_compute. reflexivity.
  - vm_compute. reflexivity.
Defined.

Lemma plate_with_version_witness :
  exists stem lastPart version frame,
    "XHE102_013_060_plate_v00200986" = stem +:+ String underscore lastPart
    /\ count underscore lastPart = 0
    /\ var "name" (foldl applyOp plateSelf plateOps) = Ok (VStr stem)
    /\ int (slice 1 4 lastPart) = Ok version
    /\ var "version" (foldl applyOp plateSelf plateOps) = Ok (VInt version)
    /\ int (slice_from 4 lastPart) = Ok frame
    /\ var "frame" (foldl applyOp plateSelf plateOps) = Ok (VInt frame)
    /\ var "padding" (foldl applyOp plateSelf plateOps) = Ok (VInt (len lastPart - 4))
    /\ (4 < len lastPart)%Z.
Proof.
  apply (PlateFacts.plate_with_version plateSelf "XHE102_013_060_plate_v00200986"
           plateOps).
  - vm_compute. reflexivity.
  - intros H. vm_compute in H. discriminate H.
  - vm_compute. reflexivity.
Defined.

Lemma plate_name_too_short_witness :
  exists r',
    registerDpxClientPlate Dpx registry = Ok r'
    /\ create r' plate None
       = Raise (CreateCrawlerError "dpxClientPlate" (path plate) IndexError).
Proof.
  apply (PlateFacts.plate_name_too_short Dpx registry plate None
           [SetVar "imageType" (VStr "single") false; SetTag "group" (VStr "plate")]
           "b").
  - reflexivity.
  - apply (bool_decide_unpack _). vm_compute. exact I.
  - reflexivity.
  - reflexivity.
  - vm_compute. reflexivity.
  - vm_compute. lia.
Defined.

Lemma create_with_base_class_witness :
  exists r',
    register "path" PathBase registry = Ok r'
    /\ create r' plate None
       = Raise (TestCrawlerError "path" (path plate) NotImplementedError).
Proof.
  apply (BaseFacts.create_with_base_class registry "path" plate None).
  apply (bool_decide_unpack _). vm_compute. exact I.
Defined.

Lemma construct_defines_path_vars_witness :
  (forall k, k ∈ ["filePath"; "ext"; "baseName"; "name"; "sourceDirectory"] ->
     exists v, var k untyped = Ok v)
  /\ globCache untyped = None
  /\ (forall enumerate r useCache,
        (glob enumerate r [] useCache untyped).1 = Ok (collectCrawlers untyped)).
Proof.
  apply (BaseFacts.construct_defines_path_vars File plate None untyped).
  reflexivity.
Defined.

(** The plate of the client, classified by a registry that knows
    [dpxClientPlate]: shot, version, frame and padding are read from the
    name, and the name loses its last part. *)
Example client_plate :
  exists r node,
    registerDpxClientPlate Dpx registry = Ok r
    /\ create r plateFile None = Ok node
    /\ var "type" node = Ok (VStr "dpxClientPlate")
    /\ var "shot" node = Ok (VStr "HVN-EP102-013-060")
    /\ var "name" node = Ok (VStr "XHE102_013_060_plate")
    /\ var "version" node = Ok (VInt 2)
    /\ var "frame" node = Ok (VInt 986)
    /\ var "padding" node = Ok (VInt 5)
    /\ tag "group" node = Ok (VStr "plate").
Proof.
  eexists _, _. split; [reflexivity|]. split; [vm_compute; reflexivity|].
  split_and!; vm_compute; reflexivity.
Qed.

End ScenarioFacts.
